(** * Codexa quiz adventure: parser, adventure state machine and reward ledger

    A shallow embedding of the quiz engine of Project Codexa:
    - [tutor_engine.py]: [validate_quiz_block] and [parse_quiz_block], together
      with the fragment of Python's [re] module the two functions rely on;
    - [app.py] (gamified edition): ranks and levels, the daily streak, the
      quest counters, achievements, the adventure moves and the 80% gate;
      further on its badges, its Sudoku (generator, validator and the button
      "Check") and the text it hands to the speech engine;
    - [tutor_engine.py]: the loop of [run_chapters] that asks for a quiz
      again while the answer is not valid;
    - [app.py] (dashboard edition, in [Module Dashboard]): its badges, the
      URL of its health check and the dispatch of its chat.

    Conventions of the embedding.
    - A Python [str] is a list of Unicode code points ([N]).
    - Python integers are [Z]; dates are day ordinals in [Z], so that
      [(today - last).days] is a subtraction.
    - The only float of the engine, the quiz accuracy, is a quotient of two
      small integers; it is kept as an exact rational ([Q]), which decides
      the comparisons with 80 and with 100 as the float does for any quiz
      of fewer than 2^46 questions.
    - [st.session_state] is a record; the flags stored under computed keys
      ([ach_<title>], [quest_done_<id>_<date>]) are finite sets of the
      computed part of the key.
    - The clock ([datetime.utcnow().date()], [pd.Timestamp("today")]) is an
      explicit argument; so are the draws of [random] and the answers of the
      model. *)

From Stdlib Require Import ZArith QArith Lia Ascii String.
From stdpp Require Import base option list gmap strings.

Local Open Scope Z_scope.

(** ** A fragment of Python's [re]: backtracking search with one group *)

Module Re.

Definition text := list N.

(** Code points of an ASCII literal of the source. *)
Definition py (s : string) : text :=
  (λ a, N_of_ascii a) <$> list_ascii_of_string s.

Definition newline : N := 10%N.

Definition is_newline (c : N) : bool := (c =? newline)%N.

(** [str.isspace], which is also the class [\s] of a [str] pattern. *)
Definition is_space (c : N) : bool :=
  ((9 <=? c) && (c <=? 13) || (28 <=? c) && (c <=? 32)
   || (c =? 133) || (c =? 160) || (c =? 5760)
   || (8192 <=? c) && (c <=? 8202)
   || (c =? 8232) || (c =? 8233) || (c =? 8239) || (c =? 8287)
   || (c =? 12288))%N.

(** [.] without [re.S], and with it. *)
Definition dot (c : N) : bool := negb (is_newline c).
Definition any (c : N) : bool := true.

(** The pieces the patterns of [tutor_engine.py] are made of. Quantifiers
    only ever apply to a character class there. *)
Inductive atom :=
| Lit (l : text)               (* literal characters *)
| OneOf (c : N → bool)         (* one character of a class *)
| Star (c : N → bool)          (* c*   greedy *)
| Plus (c : N → bool)          (* c+   greedy *)
| LazyStar (c : N → bool)      (* c*?  lazy *)
| Bol                          (* ^ under re.M *)
| Eol                          (* $ under re.M *)
| GOpen                        (* ( of group 1 *)
| GClose.                      (* ) of group 1 *)

(** A match: what is left of the subject where group 1 opens, where it
    closes, and where the whole match ends. *)
Record mres := MRes { g_start : text; g_end : text; m_end : text }.

Definition set_start (s : text) (m : mres) : mres :=
  {| g_start := s; g_end := g_end m; m_end := m_end m |}.
Definition set_end (s : text) (m : mres) : mres :=
  {| g_start := g_start m; g_end := s; m_end := m_end m |}.

Definition group1 (m : mres) : text :=
  take (length (g_start m) - length (g_end m))%nat (g_start m).

Fixpoint eat (l s : text) : option text :=
  match l with
  | [] => Some s
  | a :: l' =>
      match s with
      | b :: s' => if (a =? b)%N then eat l' s' else None
      | [] => None
      end
  end.

(** The character before the current position, [None] at the start. *)
Definition at_bol (prev : option N) : bool :=
  match prev with None => true | Some c => is_newline c end.

Definition at_eol (s : text) : bool :=
  match s with [] => true | c :: _ => is_newline c end.

(** The character before the position reached once [l] has been read. *)
Definition after (l : text) (prev : option N) : option N :=
  match last l with Some c => Some c | None => prev end.

Definition conts := option N → text → option mres.

(** Greedy repetition: one more character first, the rest of the pattern
    as a fallback. *)
Fixpoint greedy (c : N → bool) (k : conts) (prev : option N) (s : text)
  : option mres :=
  match s with
  | x :: s' =>
      if c x then
        match greedy c k (Some x) s' with
        | Some m => Some m
        | None => k prev s
        end
      else k prev s
  | [] => k prev s
  end.

(** Lazy repetition: the rest of the pattern first. *)
Fixpoint lazy (c : N → bool) (k : conts) (prev : option N) (s : text)
  : option mres :=
  match k prev s with
  | Some m => Some m
  | None =>
      match s with
      | x :: s' => if c x then lazy c k (Some x) s' else None
      | [] => None
      end
  end.

(** [run r prev s]: match [r] at the start of [s], in the order a
    backtracking matcher explores the alternatives. *)
Fixpoint run (r : list atom) (prev : option N) (s : text) : option mres :=
  match r with
  | [] => Some {| g_start := s; g_end := s; m_end := s |}
  | a :: r' =>
      match a with
      | Lit l =>
          match eat l s with
          | Some s' => run r' (after l prev) s'
          | None => None
          end
      | OneOf c =>
          match s with
          | x :: s' => if c x then run r' (Some x) s' else None
          | [] => None
          end
      | Star c => greedy c (run r') prev s
      | Plus c =>
          match s with
          | x :: s' => if c x then greedy c (run r') (Some x) s' else None
          | [] => None
          end
      | LazyStar c => lazy c (run r') prev s
      | Bol => if at_bol prev then run r' prev s else None
      | Eol => if at_eol s then run r' prev s else None
      | GOpen => set_start s <$> run r' prev s
      | GClose => set_end s <$> run r' prev s
      end
  end.

(** [re.search]: the leftmost position where the pattern matches. *)
Fixpoint search_from (r : list atom) (prev : option N) (s : text)
  : option mres :=
  match run r prev s with
  | Some m => Some m
  | None =>
      match s with
      | x :: s' => search_from r (Some x) s'
      | [] => None
      end
  end.

Definition search (r : list atom) (s : text) : option mres :=
  search_from r None s.

(** [re.findall] for a pattern with one group: the group of every match,
    scanning left to right; [skip] counts the characters of the last match
    still to be passed over. (The patterns it is used with match no empty
    string, so the rule for what follows an empty match does not matter.) *)
Fixpoint findall_from (r : list atom) (prev : option N) (s : text)
    (skip : nat) : list text :=
  match skip with
  | S n =>
      match s with
      | x :: s' => findall_from r (Some x) s' n
      | [] => []
      end
  | O =>
      match run r prev s with
      | Some m =>
          group1 m ::
          match s with
          | x :: s' =>
              findall_from r (Some x) s'
                (pred (length s - length (m_end m)))
          | [] => []
          end
      | None =>
          match s with
          | x :: s' => findall_from r (Some x) s' 0
          | [] => []
          end
      end
  end.

Definition findall (r : list atom) (s : text) : list text :=
  findall_from r None s 0.

(** [needle in hay]. *)
Fixpoint str_in (needle hay : text) : bool :=
  match eat needle hay with
  | Some _ => true
  | None =>
      match hay with
      | _ :: hay' => str_in needle hay'
      | [] => false
      end
  end.

(** [str.strip()]. *)
Fixpoint lstrip (s : text) : text :=
  match s with
  | c :: s' => if is_space c then lstrip s' else s
  | [] => []
  end.

Definition rstrip (s : text) : text := reverse (lstrip (reverse s)).

Definition strip (s : text) : text := rstrip (lstrip s).

(** [bool(s)] of a string. *)
Definition nonempty (s : text) : bool :=
  match s with [] => false | _ => true end.

End Re.

(** ** tutor_engine.py: the strict validator and the lenient parser *)

Import Re.

(** r"\[QUIZ START\](.*?)\[QUIZ END\]" with re.S *)
Definition QUIZ_RE : list atom :=
  [Lit (py "[QUIZ START]"); GOpen; LazyStar any; GClose; Lit (py "[QUIZ END]")].

(** r"\[QUESTION\](.*?)\[/QUESTION\]" with re.S *)
Definition QUESTION_RE : list atom :=
  [Lit (py "[QUESTION]"); GOpen; LazyStar any; GClose; Lit (py "[/QUESTION]")].

(** r"^\s*Question:\s*.+" with re.M (validator) *)
Definition V_QUESTION_LINE : list atom :=
  [Bol; Star is_space; Lit (py "Question:"); Star is_space; Plus dot].

(** rf"^\s*\[{k}\]\s*.+" with re.M (validator) *)
Definition V_OPTION_LINE (k : text) : list atom :=
  [Bol; Star is_space; Lit (py "[" ++ k ++ py "]"); Star is_space; Plus dot].

(** r"^\s*Question:\s*(.+)\s*$" with re.M (parser) *)
Definition QUESTION_LINE : list atom :=
  [Bol; Star is_space; Lit (py "Question:"); Star is_space;
   GOpen; Plus dot; GClose; Star is_space; Eol].

(** rf"^\s*\[{key}\]\s*(.+)\s*$" with re.M (parser) *)
Definition OPTION_LINE (key : text) : list atom :=
  [Bol; Star is_space; Lit (py "[" ++ key ++ py "]"); Star is_space;
   GOpen; Plus dot; GClose; Star is_space; Eol].

(** The class [A-C]. *)
Definition A_to_C (c : N) : bool := ((65 <=? c) && (c <=? 67))%N.

(** r"^\s*\[CORRECT:\s*([A-C])\s*\]" with re.M (both) *)
Definition CORRECT_LINE : list atom :=
  [Bol; Star is_space; Lit (py "[CORRECT:"); Star is_space;
   GOpen; OneOf A_to_C; GClose; Star is_space; Lit (py "]")].

Definition KEYS : list text := [py "A"; py "B"; py "C"].

(** The body of the loop of [validate_quiz_block]: the three checks on one
    question block. *)
Definition valid_block (qb : text) : bool :=
  bool_decide (is_Some (search V_QUESTION_LINE qb))
  && forallb (λ k, bool_decide (is_Some (search (V_OPTION_LINE k) qb))) KEYS
  && bool_decide (is_Some (search CORRECT_LINE qb)).

Definition validate_quiz_block (t : text) : bool :=
  if negb (nonempty t) || negb (str_in (py "[QUIZ START]") t)
     || negb (str_in (py "[QUIZ END]") t)
  then false
  else
    match search QUIZ_RE t with
    | None => false
    | Some m =>
        let body := group1 m in
        let q_blocks := findall QUESTION_RE body in
        if negb (length q_blocks =? 5)%nat then false
        else forallb valid_block q_blocks
    end.

(** A parsed question: the dictionary [parse_quiz_block] appends. The key
    ['correct'] is read by the quiz tab and never written by the parser. *)
Record item := Item {
  question : text;
  options : list text;
  answer : text;
  explanation : text;
  code : text;
  correct : option Z
}.

(** [d.get(key, "")] on the options dictionary. *)
Fixpoint dict_get (d : list (text * text)) (key : text) : text :=
  match d with
  | [] => []
  | (k, v) :: d' => if bool_decide (k = key) then v else dict_get d' key
  end.

(** The text a line pattern captures, stripped; [""] without a match. *)
Definition captured (r : list atom) (qb : text) : text :=
  match search r qb with
  | Some m => strip (group1 m)
  | None => []
  end.

Definition question_of (qb : text) : text := captured QUESTION_LINE qb.

Definition options_map_of (qb : text) : list (text * text) :=
  (λ key, (key, captured (OPTION_LINE key) qb)) <$> KEYS.

Definition correct_key_of (qb : text) : text :=
  match search CORRECT_LINE qb with
  | Some m => group1 m
  | None => py "A"
  end.

(** The body of the loop of [parse_quiz_block]: [None] is [continue]. *)
Definition parse_question (qb : text) : option item :=
  let question := question_of qb in
  let options_map := options_map_of qb in
  let correct_key := correct_key_of qb in
  if negb (nonempty question) || negb (forallb nonempty (options_map.*2))
  then None
  else Some {| question := question;
               options := [dict_get options_map (py "A");
                           dict_get options_map (py "B");
                           dict_get options_map (py "C")];
               answer := dict_get options_map correct_key;
               explanation := [];
               code := [];
               correct := None |}.

Definition parse_quiz_block (t : text) : list item :=
  if negb (nonempty t) then []
  else
    match search QUIZ_RE t with
    | None => []
    | Some m =>
        let body := group1 m in
        let q_blocks := findall QUESTION_RE body in
        omap parse_question q_blocks
    end.

(** ** app.py: the session state *)

Inductive anim := idle | fwd | back | celebrate.

(** An entry of [progress[subject][chapter]]. *)
Record tally := Tally { score : Z; total : Z }.

(** A record of [history]. *)
Record history_entry := HistoryEntry {
  h_date : Z;
  h_subject : string;
  h_chapter : string;
  h_score : Z;
  h_total : Z;
  h_xp : Z
}.

(** [quests_daily_progress]: the integer entries by key, and the entry
    ["reset_date"] apart (the callers name the counters [daily_quizzes] and
    [daily_correct] only). *)
Record daily_progress := DailyProgress {
  counters : gmap string Z;
  reset_date : option Z
}.

(** [quests_weekly_progress]; [week_start] is [None] when the key is
    absent. *)
Record weekly_progress := WeeklyProgress {
  weekly_quizzes : Z;
  weekly_80plus : Z;
  week_start : option Z
}.

(** The keys of [st.session_state] the engine reads or writes. *)
Record session := Session {
  subject : string;
  chapter : string;
  quiz_items : list item;
  quiz_score : Z;
  quiz_total : Z;
  quiz_count : Z;
  progress : gmap string (gmap string tally);
  game_credits : Z;
  total_xp : Z;
  coins : Z;
  sudoku_wins : Z;
  sudoku_games_played : Z;
  sudoku_started : bool;
  history : list history_entry;
  unlocked_avatars : gset string;
  daily_streak : Z;
  last_active_date : option Z;
  correct_streak : Z;
  correct_total : Z;
  last_quiz_pct : Q;
  quests_daily_progress : daily_progress;
  quests_weekly_progress : weekly_progress;
  quiz_map_position : Z;
  quiz_map_total_questions : Z;
  quiz_map_correct : Z;
  quiz_map_qindex : Z;
  quiz_map_anim : anim;
  quiz_map_done : bool;
  quiz_map_answers : gmap Z (Z * bool);
  ach : gset string; (* titles t with session_state[ach_t] = True *)
  quest_done : gset (string * Z) (* (id, date) with quest_done_id_date = True *)
}.

(** Assignments to one key. *)
Definition with_subject (v : string) (s : session) : session :=
  Session v (chapter s) (quiz_items s) (quiz_score s) (quiz_total s)
    (quiz_count s) (progress s) (game_credits s) (total_xp s) (coins s)
    (sudoku_wins s) (sudoku_games_played s) (sudoku_started s) (history s)
    (unlocked_avatars s) (daily_streak s) (last_active_date s)
    (correct_streak s) (correct_total s) (last_quiz_pct s)
    (quests_daily_progress s) (quests_weekly_progress s) (quiz_map_position s)
    (quiz_map_total_questions s) (quiz_map_correct s) (quiz_map_qindex s)
    (quiz_map_anim s) (quiz_map_done s) (quiz_map_answers s) (ach s)
    (quest_done s).
Definition with_chapter (v : string) (s : session) : session :=
  Session (subject s) v (quiz_items s) (quiz_score s) (quiz_total s)
    (quiz_count s) (progress s) (game_credits s) (total_xp s) (coins s)
    (sudoku_wins s) (sudoku_games_played s) (sudoku_started s) (history s)
    (unlocked_avatars s) (daily_streak s) (last_active_date s)
    (correct_streak s) (correct_total s) (last_quiz_pct s)
    (quests_daily_progress s) (quests_weekly_progress s) (quiz_map_position s)
    (quiz_map_total_questions s) (quiz_map_correct s) (quiz_map_qindex s)
    (quiz_map_anim s) (quiz_map_done s) (quiz_map_answers s) (ach s)
    (quest_done s).
Definition with_quiz_items (v : list item) (s : session) : session :=
  Session (subject s) (chapter s) v (quiz_score s) (quiz_total s)
    (quiz_count s) (progress s) (game_credits s) (total_xp s) (coins s)
    (sudoku_wins s) (sudoku_games_played s) (sudoku_started s) (history s)
    (unlocked_avatars s) (daily_streak s) (last_active_date s)
    (correct_streak s) (correct_total s) (last_quiz_pct s)
    (quests_daily_progress s) (quests_weekly_progress s) (quiz_map_position s)
    (quiz_map_total_questions s) (quiz_map_correct s) (quiz_map_qindex s)
    (quiz_map_anim s) (quiz_map_done s) (quiz_map_answers s) (ach s)
    (quest_done s).
Definition with_quiz_score (v : Z) (s : session) : session :=
  Session (subject s) (chapter s) (quiz_items s) v (quiz_total s)
    (quiz_count s) (progress s) (game_credits s) (total_xp s) (coins s)
    (sudoku_wins s) (sudoku_games_played s) (sudoku_started s) (history s)
    (unlocked_avatars s) (daily_streak s) (last_active_date s)
    (correct_streak s) (correct_total s) (last_quiz_pct s)
    (quests_daily_progress s) (quests_weekly_progress s) (quiz_map_position s)
    (quiz_map_total_questions s) (quiz_map_correct s) (quiz_map_qindex s)
    (quiz_map_anim s) (quiz_map_done s) (quiz_map_answers s) (ach s)
    (quest_done s).
Definition with_quiz_total (v : Z) (s : session) : session :=
  Session (subject s) (chapter s) (quiz_items s) (quiz_score s) v
    (quiz_count s) (progress s) (game_credits s) (total_xp s) (coins s)
    (sudoku_wins s) (sudoku_games_played s) (sudoku_started s) (history s)
    (unlocked_avatars s) (daily_streak s) (last_active_date s)
    (correct_streak s) (correct_total s) (last_quiz_pct s)
    (quests_daily_progress s) (quests_weekly_progress s) (quiz_map_position s)
    (quiz_map_total_questions s) (quiz_map_correct s) (quiz_map_qindex s)
    (quiz_map_anim s) (quiz_map_done s) (quiz_map_answers s) (ach s)
    (quest_done s).
Definition with_quiz_count (v : Z) (s : session) : session :=
  Session (subject s) (chapter s) (quiz_items s) (quiz_score s) (quiz_total s)
    v (progress s) (game_credits s) (total_xp s) (coins s) (sudoku_wins s)
    (sudoku_games_played s) (sudoku_started s) (history s)
    (unlocked_avatars s) (daily_streak s) (last_active_date s)
    (correct_streak s) (correct_total s) (last_quiz_pct s)
    (quests_daily_progress s) (quests_weekly_progress s) (quiz_map_position s)
    (quiz_map_total_questions s) (quiz_map_correct s) (quiz_map_qindex s)
    (quiz_map_anim s) (quiz_map_done s) (quiz_map_answers s) (ach s)
    (quest_done s).
Definition with_progress (v : gmap string (gmap string tally)) (s : session) : session :=
  Session (subject s) (chapter s) (quiz_items s) (quiz_score s) (quiz_total s)
    (quiz_count s) v (game_credits s) (total_xp s) (coins s) (sudoku_wins s)
    (sudoku_games_played s) (sudoku_started s) (history s)
    (unlocked_avatars s) (daily_streak s) (last_active_date s)
    (correct_streak s) (correct_total s) (last_quiz_pct s)
    (quests_daily_progress s) (quests_weekly_progress s) (quiz_map_position s)
    (quiz_map_total_questions s) (quiz_map_correct s) (quiz_map_qindex s)
    (quiz_map_anim s) (quiz_map_done s) (quiz_map_answers s) (ach s)
    (quest_done s).
Definition with_game_credits (v : Z) (s : session) : session :=
  Session (subject s) (chapter s) (quiz_items s) (quiz_score s) (quiz_total s)
    (quiz_count s) (progress s) v (total_xp s) (coins s) (sudoku_wins s)
    (sudoku_games_played s) (sudoku_started s) (history s)
    (unlocked_avatars s) (daily_streak s) (last_active_date s)
    (correct_streak s) (correct_total s) (last_quiz_pct s)
    (quests_daily_progress s) (quests_weekly_progress s) (quiz_map_position s)
    (quiz_map_total_questions s) (quiz_map_correct s) (quiz_map_qindex s)
    (quiz_map_anim s) (quiz_map_done s) (quiz_map_answers s) (ach s)
    (quest_done s).
Definition with_total_xp (v : Z) (s : session) : session :=
  Session (subject s) (chapter s) (quiz_items s) (quiz_score s) (quiz_total s)
    (quiz_count s) (progress s) (game_credits s) v (coins s) (sudoku_wins s)
    (sudoku_games_played s) (sudoku_started s) (history s)
    (unlocked_avatars s) (daily_streak s) (last_active_date s)
    (correct_streak s) (correct_total s) (last_quiz_pct s)
    (quests_daily_progress s) (quests_weekly_progress s) (quiz_map_position s)
    (quiz_map_total_questions s) (quiz_map_correct s) (quiz_map_qindex s)
    (quiz_map_anim s) (quiz_map_done s) (quiz_map_answers s) (ach s)
    (quest_done s).
Definition with_coins (v : Z) (s : session) : session :=
  Session (subject s) (chapter s) (quiz_items s) (quiz_score s) (quiz_total s)
    (quiz_count s) (progress s) (game_credits s) (total_xp s) v
    (sudoku_wins s) (sudoku_games_played s) (sudoku_started s) (history s)
    (unlocked_avatars s) (daily_streak s) (last_active_date s)
    (correct_streak s) (correct_total s) (last_quiz_pct s)
    (quests_daily_progress s) (quests_weekly_progress s) (quiz_map_position s)
    (quiz_map_total_questions s) (quiz_map_correct s) (quiz_map_qindex s)
    (quiz_map_anim s) (quiz_map_done s) (quiz_map_answers s) (ach s)
    (quest_done s).
Definition with_sudoku_wins (v : Z) (s : session) : session :=
  Session (subject s) (chapter s) (quiz_items s) (quiz_score s) (quiz_total s)
    (quiz_count s) (progress s) (game_credits s) (total_xp s) (coins s) v
    (sudoku_games_played s) (sudoku_started s) (history s)
    (unlocked_avatars s) (daily_streak s) (last_active_date s)
    (correct_streak s) (correct_total s) (last_quiz_pct s)
    (quests_daily_progress s) (quests_weekly_progress s) (quiz_map_position s)
    (quiz_map_total_questions s) (quiz_map_correct s) (quiz_map_qindex s)
    (quiz_map_anim s) (quiz_map_done s) (quiz_map_answers s) (ach s)
    (quest_done s).
Definition with_sudoku_games_played (v : Z) (s : session) : session :=
  Session (subject s) (chapter s) (quiz_items s) (quiz_score s) (quiz_total s)
    (quiz_count s) (progress s) (game_credits s) (total_xp s) (coins s)
    (sudoku_wins s) v (sudoku_started s) (history s) (unlocked_avatars s)
    (daily_streak s) (last_active_date s) (correct_streak s) (correct_total s)
    (last_quiz_pct s) (quests_daily_progress s) (quests_weekly_progress s)
    (quiz_map_position s) (quiz_map_total_questions s) (quiz_map_correct s)
    (quiz_map_qindex s) (quiz_map_anim s) (quiz_map_done s)
    (quiz_map_answers s) (ach s) (quest_done s).
Definition with_sudoku_started (v : bool) (s : session) : session :=
  Session (subject s) (chapter s) (quiz_items s) (quiz_score s) (quiz_total s)
    (quiz_count s) (progress s) (game_credits s) (total_xp s) (coins s)
    (sudoku_wins s) (sudoku_games_played s) v (history s) (unlocked_avatars s)
    (daily_streak s) (last_active_date s) (correct_streak s) (correct_total s)
    (last_quiz_pct s) (quests_daily_progress s) (quests_weekly_progress s)
    (quiz_map_position s) (quiz_map_total_questions s) (quiz_map_correct s)
    (quiz_map_qindex s) (quiz_map_anim s) (quiz_map_done s)
    (quiz_map_answers s) (ach s) (quest_done s).
Definition with_history (v : list history_entry) (s : session) : session :=
  Session (subject s) (chapter s) (quiz_items s) (quiz_score s) (quiz_total s)
    (quiz_count s) (progress s) (game_credits s) (total_xp s) (coins s)
    (sudoku_wins s) (sudoku_games_played s) (sudoku_started s) v
    (unlocked_avatars s) (daily_streak s) (last_active_date s)
    (correct_streak s) (correct_total s) (last_quiz_pct s)
    (quests_daily_progress s) (quests_weekly_progress s) (quiz_map_position s)
    (quiz_map_total_questions s) (quiz_map_correct s) (quiz_map_qindex s)
    (quiz_map_anim s) (quiz_map_done s) (quiz_map_answers s) (ach s)
    (quest_done s).
Definition with_unlocked_avatars (v : gset string) (s : session) : session :=
  Session (subject s) (chapter s) (quiz_items s) (quiz_score s) (quiz_total s)
    (quiz_count s) (progress s) (game_credits s) (total_xp s) (coins s)
    (sudoku_wins s) (sudoku_games_played s) (sudoku_started s) (history s) v
    (daily_streak s) (last_active_date s) (correct_streak s) (correct_total s)
    (last_quiz_pct s) (quests_daily_progress s) (quests_weekly_progress s)
    (quiz_map_position s) (quiz_map_total_questions s) (quiz_map_correct s)
    (quiz_map_qindex s) (quiz_map_anim s) (quiz_map_done s)
    (quiz_map_answers s) (ach s) (quest_done s).
Definition with_daily_streak (v : Z) (s : session) : session :=
  Session (subject s) (chapter s) (quiz_items s) (quiz_score s) (quiz_total s)
    (quiz_count s) (progress s) (game_credits s) (total_xp s) (coins s)
    (sudoku_wins s) (sudoku_games_played s) (sudoku_started s) (history s)
    (unlocked_avatars s) v (last_active_date s) (correct_streak s)
    (correct_total s) (last_quiz_pct s) (quests_daily_progress s)
    (quests_weekly_progress s) (quiz_map_position s)
    (quiz_map_total_questions s) (quiz_map_correct s) (quiz_map_qindex s)
    (quiz_map_anim s) (quiz_map_done s) (quiz_map_answers s) (ach s)
    (quest_done s).
Definition with_last_active_date (v : option Z) (s : session) : session :=
  Session (subject s) (chapter s) (quiz_items s) (quiz_score s) (quiz_total s)
    (quiz_count s) (progress s) (game_credits s) (total_xp s) (coins s)
    (sudoku_wins s) (sudoku_games_played s) (sudoku_started s) (history s)
    (unlocked_avatars s) (daily_streak s) v (correct_streak s)
    (correct_total s) (last_quiz_pct s) (quests_daily_progress s)
    (quests_weekly_progress s) (quiz_map_position s)
    (quiz_map_total_questions s) (quiz_map_correct s) (quiz_map_qindex s)
    (quiz_map_anim s) (quiz_map_done s) (quiz_map_answers s) (ach s)
    (quest_done s).
Definition with_correct_streak (v : Z) (s : session) : session :=
  Session (subject s) (chapter s) (quiz_items s) (quiz_score s) (quiz_total s)
    (quiz_count s) (progress s) (game_credits s) (total_xp s) (coins s)
    (sudoku_wins s) (sudoku_games_played s) (sudoku_started s) (history s)
    (unlocked_avatars s) (daily_streak s) (last_active_date s) v
    (correct_total s) (last_quiz_pct s) (quests_daily_progress s)
    (quests_weekly_progress s) (quiz_map_position s)
    (quiz_map_total_questions s) (quiz_map_correct s) (quiz_map_qindex s)
    (quiz_map_anim s) (quiz_map_done s) (quiz_map_answers s) (ach s)
    (quest_done s).
Definition with_correct_total (v : Z) (s : session) : session :=
  Session (subject s) (chapter s) (quiz_items s) (quiz_score s) (quiz_total s)
    (quiz_count s) (progress s) (game_credits s) (total_xp s) (coins s)
    (sudoku_wins s) (sudoku_games_played s) (sudoku_started s) (history s)
    (unlocked_avatars s) (daily_streak s) (last_active_date s)
    (correct_streak s) v (last_quiz_pct s) (quests_daily_progress s)
    (quests_weekly_progress s) (quiz_map_position s)
    (quiz_map_total_questions s) (quiz_map_correct s) (quiz_map_qindex s)
    (quiz_map_anim s) (quiz_map_done s) (quiz_map_answers s) (ach s)
    (quest_done s).
Definition with_last_quiz_pct (v : Q) (s : session) : session :=
  Session (subject s) (chapter s) (quiz_items s) (quiz_score s) (quiz_total s)
    (quiz_count s) (progress s) (game_credits s) (total_xp s) (coins s)
    (sudoku_wins s) (sudoku_games_played s) (sudoku_started s) (history s)
    (unlocked_avatars s) (daily_streak s) (last_active_date s)
    (correct_streak s) (correct_total s) v (quests_daily_progress s)
    (quests_weekly_progress s) (quiz_map_position s)
    (quiz_map_total_questions s) (quiz_map_correct s) (quiz_map_qindex s)
    (quiz_map_anim s) (quiz_map_done s) (quiz_map_answers s) (ach s)
    (quest_done s).
Definition with_quests_daily_progress (v : daily_progress) (s : session) : session :=
  Session (subject s) (chapter s) (quiz_items s) (quiz_score s) (quiz_total s)
    (quiz_count s) (progress s) (game_credits s) (total_xp s) (coins s)
    (sudoku_wins s) (sudoku_games_played s) (sudoku_started s) (history s)
    (unlocked_avatars s) (daily_streak s) (last_active_date s)
    (correct_streak s) (correct_total s) (last_quiz_pct s) v
    (quests_weekly_progress s) (quiz_map_position s)
    (quiz_map_total_questions s) (quiz_map_correct s) (quiz_map_qindex s)
    (quiz_map_anim s) (quiz_map_done s) (quiz_map_answers s) (ach s)
    (quest_done s).
Definition with_quests_weekly_progress (v : weekly_progress) (s : session) : session :=
  Session (subject s) (chapter s) (quiz_items s) (quiz_score s) (quiz_total s)
    (quiz_count s) (progress s) (game_credits s) (total_xp s) (coins s)
    (sudoku_wins s) (sudoku_games_played s) (sudoku_started s) (history s)
    (unlocked_avatars s) (daily_streak s) (last_active_date s)
    (correct_streak s) (correct_total s) (last_quiz_pct s)
    (quests_daily_progress s) v (quiz_map_position s)
    (quiz_map_total_questions s) (quiz_map_correct s) (quiz_map_qindex s)
    (quiz_map_anim s) (quiz_map_done s) (quiz_map_answers s) (ach s)
    (quest_done s).
Definition with_quiz_map_position (v : Z) (s : session) : session :=
  Session (subject s) (chapter s) (quiz_items s) (quiz_score s) (quiz_total s)
    (quiz_count s) (progress s) (game_credits s) (total_xp s) (coins s)
    (sudoku_wins s) (sudoku_games_played s) (sudoku_started s) (history s)
    (unlocked_avatars s) (daily_streak s) (last_active_date s)
    (correct_streak s) (correct_total s) (last_quiz_pct s)
    (quests_daily_progress s) (quests_weekly_progress s) v
    (quiz_map_total_questions s) (quiz_map_correct s) (quiz_map_qindex s)
    (quiz_map_anim s) (quiz_map_done s) (quiz_map_answers s) (ach s)
    (quest_done s).
Definition with_quiz_map_total_questions (v : Z) (s : session) : session :=
  Session (subject s) (chapter s) (quiz_items s) (quiz_score s) (quiz_total s)
    (quiz_count s) (progress s) (game_credits s) (total_xp s) (coins s)
    (sudoku_wins s) (sudoku_games_played s) (sudoku_started s) (history s)
    (unlocked_avatars s) (daily_streak s) (last_active_date s)
    (correct_streak s) (correct_total s) (last_quiz_pct s)
    (quests_daily_progress s) (quests_weekly_progress s) (quiz_map_position s)
    v (quiz_map_correct s) (quiz_map_qindex s) (quiz_map_anim s)
    (quiz_map_done s) (quiz_map_answers s) (ach s) (quest_done s).
Definition with_quiz_map_correct (v : Z) (s : session) : session :=
  Session (subject s) (chapter s) (quiz_items s) (quiz_score s) (quiz_total s)
    (quiz_count s) (progress s) (game_credits s) (total_xp s) (coins s)
    (sudoku_wins s) (sudoku_games_played s) (sudoku_started s) (history s)
    (unlocked_avatars s) (daily_streak s) (last_active_date s)
    (correct_streak s) (correct_total s) (last_quiz_pct s)
    (quests_daily_progress s) (quests_weekly_progress s) (quiz_map_position s)
    (quiz_map_total_questions s) v (quiz_map_qindex s) (quiz_map_anim s)
    (quiz_map_done s) (quiz_map_answers s) (ach s) (quest_done s).
Definition with_quiz_map_qindex (v : Z) (s : session) : session :=
  Session (subject s) (chapter s) (quiz_items s) (quiz_score s) (quiz_total s)
    (quiz_count s) (progress s) (game_credits s) (total_xp s) (coins s)
    (sudoku_wins s) (sudoku_games_played s) (sudoku_started s) (history s)
    (unlocked_avatars s) (daily_streak s) (last_active_date s)
    (correct_streak s) (correct_total s) (last_quiz_pct s)
    (quests_daily_progress s) (quests_weekly_progress s) (quiz_map_position s)
    (quiz_map_total_questions s) (quiz_map_correct s) v (quiz_map_anim s)
    (quiz_map_done s) (quiz_map_answers s) (ach s) (quest_done s).
Definition with_quiz_map_anim (v : anim) (s : session) : session :=
  Session (subject s) (chapter s) (quiz_items s) (quiz_score s) (quiz_total s)
    (quiz_count s) (progress s) (game_credits s) (total_xp s) (coins s)
    (sudoku_wins s) (sudoku_games_played s) (sudoku_started s) (history s)
    (unlocked_avatars s) (daily_streak s) (last_active_date s)
    (correct_streak s) (correct_total s) (last_quiz_pct s)
    (quests_daily_progress s) (quests_weekly_progress s) (quiz_map_position s)
    (quiz_map_total_questions s) (quiz_map_correct s) (quiz_map_qindex s) v
    (quiz_map_done s) (quiz_map_answers s) (ach s) (quest_done s).
Definition with_quiz_map_done (v : bool) (s : session) : session :=
  Session (subject s) (chapter s) (quiz_items s) (quiz_score s) (quiz_total s)
    (quiz_count s) (progress s) (game_credits s) (total_xp s) (coins s)
    (sudoku_wins s) (sudoku_games_played s) (sudoku_started s) (history s)
    (unlocked_avatars s) (daily_streak s) (last_active_date s)
    (correct_streak s) (correct_total s) (last_quiz_pct s)
    (quests_daily_progress s) (quests_weekly_progress s) (quiz_map_position s)
    (quiz_map_total_questions s) (quiz_map_correct s) (quiz_map_qindex s)
    (quiz_map_anim s) v (quiz_map_answers s) (ach s) (quest_done s).
Definition with_quiz_map_answers (v : gmap Z (Z * bool)) (s : session) : session :=
  Session (subject s) (chapter s) (quiz_items s) (quiz_score s) (quiz_total s)
    (quiz_count s) (progress s) (game_credits s) (total_xp s) (coins s)
    (sudoku_wins s) (sudoku_games_played s) (sudoku_started s) (history s)
    (unlocked_avatars s) (daily_streak s) (last_active_date s)
    (correct_streak s) (correct_total s) (last_quiz_pct s)
    (quests_daily_progress s) (quests_weekly_progress s) (quiz_map_position s)
    (quiz_map_total_questions s) (quiz_map_correct s) (quiz_map_qindex s)
    (quiz_map_anim s) (quiz_map_done s) v (ach s) (quest_done s).
Definition with_ach (v : gset string) (s : session) : session :=
  Session (subject s) (chapter s) (quiz_items s) (quiz_score s) (quiz_total s)
    (quiz_count s) (progress s) (game_credits s) (total_xp s) (coins s)
    (sudoku_wins s) (sudoku_games_played s) (sudoku_started s) (history s)
    (unlocked_avatars s) (daily_streak s) (last_active_date s)
    (correct_streak s) (correct_total s) (last_quiz_pct s)
    (quests_daily_progress s) (quests_weekly_progress s) (quiz_map_position s)
    (quiz_map_total_questions s) (quiz_map_correct s) (quiz_map_qindex s)
    (quiz_map_anim s) (quiz_map_done s) (quiz_map_answers s) v (quest_done s).
Definition with_quest_done (v : gset (string * Z)) (s : session) : session :=
  Session (subject s) (chapter s) (quiz_items s) (quiz_score s) (quiz_total s)
    (quiz_count s) (progress s) (game_credits s) (total_xp s) (coins s)
    (sudoku_wins s) (sudoku_games_played s) (sudoku_started s) (history s)
    (unlocked_avatars s) (daily_streak s) (last_active_date s)
    (correct_streak s) (correct_total s) (last_quiz_pct s)
    (quests_daily_progress s) (quests_weekly_progress s) (quiz_map_position s)
    (quiz_map_total_questions s) (quiz_map_correct s) (quiz_map_qindex s)
    (quiz_map_anim s) (quiz_map_done s) (quiz_map_answers s) (ach s) v.

(** ** app.py: gamification constants *)

Definition RANKS : list (Z * string) :=
  [(0, "Rookie"%string); (100, "Apprentice"%string); (300, "Scholar"%string);
   (700, "Mentor"%string); (1200, "Master"%string);
   (2000, "Grandmaster"%string)].

Definition LEVEL_XP : list Z :=
  [0; 100; 250; 450; 700; 1000; 1400; 1850; 2350; 2900; 3500; 4200].

(** A row of [ACHIEVEMENTS]: title, description, condition over the session
    state, XP reward (the emoji column is display only). *)
Record achievement := Achievement {
  a_title : string;
  a_desc : string;
  a_cond : session → bool;
  a_xp : Z
}.

Definition ACHIEVEMENTS : list achievement :=
  [ Achievement "First Steps" "Complete 1 quiz"
      (λ ss, bool_decide (1 ≤ quiz_count ss)%Z) 25%Z;
    Achievement "Warming Up" "Reach 5 quizzes"
      (λ ss, bool_decide (5 ≤ quiz_count ss)%Z) 50%Z;
    Achievement "Quiz Pro" "Reach 20 quizzes"
      (λ ss, bool_decide (20 ≤ quiz_count ss)%Z) 100%Z;
    Achievement "Hot Streak" "Daily streak 5+"
      (λ ss, bool_decide (5 ≤ daily_streak ss)%Z) 50%Z;
    Achievement "Flawless" "Score 100% in a quiz"
      (λ ss, Qeq_bool (last_quiz_pct ss) 100%Q) 50%Z;
    Achievement "Marathon" "Answer 50 correct in total"
      (λ ss, bool_decide (50 ≤ correct_total ss)%Z) 75%Z ]%string.

Record quest := Quest {
  q_id : string;
  q_name : string;
  q_target : Z;
  q_key : string;
  q_reward_xp : Z;
  q_reward_coins : Z
}.

Definition DAILY_QUESTS : list quest :=
  [ Quest "q_daily_quiz" "Daily Quizzer" 1%Z "daily_quizzes" 20%Z 5%Z;
    Quest "q_daily_correct" "Sharp Mind" 5%Z "daily_correct" 20%Z 5%Z ]%string.

Definition WEEKLY_QUESTS : list quest :=
  [ Quest "q_weekly_quizzes" "Weekly Warrior" 10%Z "weekly_quizzes" 100%Z 25%Z;
    Quest "q_weekly_accuracy" "Precision" 3%Z "weekly_80plus" 100%Z 25%Z ]%string.

Inductive shop_value := AvatarValue (name : string) | CreditsValue (n : Z).

Record shop_item := ShopItem {
  i_id : string;
  i_cost : Z;
  i_value : shop_value
}.

Definition SHOP_ITEMS : list shop_item :=
  (* the avatars are named here; the source stores their glyphs *)
  [ ShopItem "avatar_owl" 20%Z (AvatarValue "owl");
    ShopItem "avatar_dragon" 40%Z (AvatarValue "dragon");
    ShopItem "credit_pack" 15%Z (CreditsValue 3%Z) ]%string.

(** ** Levels and ranks *)

Definition compute_rank (xp : Z) : string :=
  foldl (λ r '(threshold, name), if bool_decide (threshold ≤ xp) then name else r)
        "Rookie"%string RANKS.

Definition enumerate {A} (l : list A) : list (Z * A) :=
  imap (λ i x, (Z.of_nat i, x)) l.

Definition compute_level (xp : Z) : Z :=
  let lvl :=
    foldl (λ lvl '(i, cxp), if bool_decide (cxp ≤ xp) then i + 1 else lvl)
          1 (enumerate LEVEL_XP) in
  Z.min lvl (Z.of_nat (length LEVEL_XP)).

Definition format_rank_level (s : session) : string * Z :=
  (compute_rank (total_xp s), compute_level (total_xp s)).

(** ** Streak, quests, achievements *)

Definition touch_daily_streak (today : Z) (s : session) : session :=
  let s :=
    match last_active_date s with
    | None => with_daily_streak 1 s
    | Some last =>
        let diff := today - last in
        if bool_decide (diff = 1) then with_daily_streak (daily_streak s + 1) s
        else if bool_decide (1 < diff) then with_daily_streak 1 s
        else s
    end in
  with_last_active_date (Some today) s.

Definition fresh_daily (today : Z) : daily_progress :=
  {| counters := <["daily_quizzes"%string := 0]> (<["daily_correct"%string := 0]> ∅);
     reset_date := Some today |}.

Definition fresh_weekly (today : Z) : weekly_progress :=
  {| weekly_quizzes := 0; weekly_80plus := 0; week_start := Some today |}.

(** [d.get(key, 0)] on the daily counters. *)
Definition daily_get (d : daily_progress) (key : string) : Z :=
  default 0 (counters d !! key).

Definition update_quests (today : Z) (progress_key : string) (inc : Z)
    (is_80plus : bool) (s : session) : session :=
  (* reset daily *)
  let s :=
    if bool_decide (reset_date (quests_daily_progress s) ≠ Some today)
    then with_quests_daily_progress (fresh_daily today) s
    else s in
  let d := quests_daily_progress s in
  let s :=
    with_quests_daily_progress
      {| counters := <[progress_key := daily_get d progress_key + inc]> (counters d);
         reset_date := reset_date d |} s in
  (* reset weekly *)
  let s :=
    match week_start (quests_weekly_progress s) with
    | None => with_quests_weekly_progress (fresh_weekly today) s
    | Some ws =>
        if bool_decide (7 ≤ today - ws)
        then with_quests_weekly_progress (fresh_weekly today) s
        else s
    end in
  if bool_decide (progress_key = "daily_quizzes"%string) then
    let w := quests_weekly_progress s in
    let w := {| weekly_quizzes := weekly_quizzes w + inc;
                weekly_80plus := weekly_80plus w;
                week_start := week_start w |} in
    let w :=
      if is_80plus
      then {| weekly_quizzes := weekly_quizzes w;
              weekly_80plus := weekly_80plus w + 1;
              week_start := week_start w |}
      else w in
    with_quests_weekly_progress w s
  else s.

Definition grant_quest_rewards (completed_ids : list string) (s : session)
  : session :=
  foldl (λ s q,
           if bool_decide (q_id q ∈ completed_ids)
           then with_coins (coins s + q_reward_coins q)
                  (with_total_xp (total_xp s + q_reward_xp q) s)
           else s)
        s (DAILY_QUESTS ++ WEEKLY_QUESTS).

(** One turn of the loop of [check_achievements]. Each announcement
    ([f"{emoji} {title} (+{xp} XP)"]) is kept as the title and the XP it
    quotes. *)
Definition check_achievement (acc : session * list (string * Z))
    (a : achievement) : session * list (string * Z) :=
  let '(s, newly) := acc in
  if negb (bool_decide (a_title a ∈ ach s)) && a_cond a s then
    (with_total_xp (total_xp s + a_xp a) (with_ach ({[a_title a]} ∪ ach s) s),
     newly ++ [(a_title a, a_xp a)])
  else (s, newly).

Definition check_achievements_in (catalog : list achievement) (s : session)
  : session * list (string * Z) :=
  foldl check_achievement (s, []) catalog.

Definition check_achievements (s : session) : session * list (string * Z) :=
  check_achievements_in ACHIEVEMENTS s.

(** ** The quiz adventure *)

Definition apply_answer_and_move (today : Z) (is_correct : bool) (qidx : Z)
    (s : session) : session :=
  let s :=
    if is_correct then
      let s := with_quiz_map_position
                 (Z.min (quiz_map_position s + 1) (quiz_map_total_questions s + 1)) s in
      let s := with_quiz_map_correct (quiz_map_correct s + 1) s in
      let s := with_quiz_map_anim fwd s in
      let s := with_total_xp (total_xp s + 5) s in
      let s := with_correct_streak (correct_streak s + 1) s in
      let s := with_correct_total (correct_total s + 1) s in
      update_quests today "daily_correct" 1 false s
    else
      let s := with_quiz_map_position (Z.max 0 (quiz_map_position s - 1)) s in
      let s := with_quiz_map_anim back s in
      with_correct_streak 0 s in
  with_quiz_map_qindex (qidx + 1) s.

(** The two clocks of the gate: [datetime.utcnow().date()] for the quests,
    [pd.Timestamp("today")] for the history. *)
Record clock := Clock { utc_today : Z; local_today : Z }.

(** The message returned with the verdict; both texts quote the accuracy. *)
Inductive gate_message :=
| GreatJob (accuracy : Q)
| NeedAtLeast80 (accuracy : Q)
| NoMessage.

(** [100.0 * correct / max(1, total)] *)
Definition accuracy_of (correct_count total_questions : Z) : Q :=
  (100 * inject_Z correct_count / inject_Z (Z.max 1 total_questions))%Q.

(** [progress.setdefault(subj, {}).setdefault(chap, {score: 0, total: 0})]
    followed by the two additions. *)
Definition add_progress (subj chap : string) (sc tot : Z)
    (p : gmap string (gmap string tally)) : gmap string (gmap string tally) :=
  let chapters := default ∅ (p !! subj) in
  let e := default (Tally 0 0) (chapters !! chap) in
  <[subj := <[chap := Tally (score e + sc) (total e + tot)]> chapters]> p.

(** The cumulative statistics and the history record, written by both
    branches of the gate. *)
Definition record_attempt (now : clock) (xp : Z) (s : session) : session :=
  let s := with_quiz_score (quiz_score s + quiz_map_correct s) s in
  let s := with_quiz_total (quiz_total s + quiz_map_total_questions s) s in
  let s := with_quiz_count (quiz_count s + 1) s in
  let s := with_progress
             (add_progress (subject s) (chapter s) (quiz_map_correct s)
                (quiz_map_total_questions s) (progress s)) s in
  with_history
    (history s ++
       [ {| h_date := local_today now; h_subject := subject s;
            h_chapter := chapter s; h_score := quiz_map_correct s;
            h_total := quiz_map_total_questions s; h_xp := xp |} ]) s.

(** What a call of the gate leaves behind: the session state, the
    achievements it announces ([st.success]) and the pair it returns. *)
Record gate_outcome := GateOutcome {
  after_gate : session;
  announced : list (string * Z);
  verdict : bool * gate_message
}.

Definition check_completion_gate (now : clock) (s : session) : gate_outcome :=
  if bool_decide (quiz_map_total_questions s ≤ quiz_map_qindex s)
     && negb (quiz_map_done s)
  then
    let accuracy := accuracy_of (quiz_map_correct s) (quiz_map_total_questions s) in
    let s := with_last_quiz_pct accuracy s in
    (* weekly quest 80%+ *)
    let s := update_quests (utc_today now) "daily_quizzes" 1 (Qle_bool 80 accuracy) s in
    if Qle_bool 80 accuracy then
      let s := with_quiz_map_done true s in
      let s := with_quiz_map_anim celebrate s in
      let s := with_total_xp (total_xp s + 25) s in
      let s := with_game_credits (game_credits s + 1) s in
      let s := with_coins (coins s + 5) s in
      let s := record_attempt now (25 + 5 * quiz_map_correct s) s in
      let '(s, newly) := check_achievements s in
      GateOutcome s newly (true, GreatJob accuracy)
    else
      (* still record quiz attempt *)
      let s := record_attempt now (5 * quiz_map_correct s) s in
      let '(s, newly) := check_achievements s in
      GateOutcome s newly (false, NeedAtLeast80 accuracy)
  else GateOutcome s [] (false, NoMessage).

(** ** The quiz tab *)

(** The button "Start Quiz Adventure", given the text the model returned. *)
Definition start_quiz (quiz_text : text) (s : session) : session :=
  let s := with_quiz_items (parse_quiz_block quiz_text) s in
  let s := with_quiz_map_total_questions (Z.of_nat (length (quiz_items s))) s in
  let s := with_quiz_map_position 0 s in
  let s := with_quiz_map_correct 0 s in
  let s := with_quiz_map_qindex 0 s in
  let s := with_quiz_map_anim idle s in
  let s := with_quiz_map_done false s in
  with_quiz_map_answers ∅ s.

(** [next((j for j, o in enumerate(options) if o == answer), -1)] *)
Fixpoint index_of (j : Z) (opts : list text) (ans : text) : Z :=
  match opts with
  | [] => -1
  | o :: opts' => if bool_decide (o = ans) then j else index_of (j + 1) opts' ans
  end.

(** "Support either 'correct' index or 'answer' text". *)
Definition correct_index (q : item) : Z :=
  match correct q with
  | Some i => i
  | None => index_of 0 (options q) (answer q)
  end.

(** A click on option [i] of the question on display; there is a button
    only while questions remain, and one per option. *)
Definition answer_click (today : Z) (i : Z) (s : session) : session :=
  let qi := quiz_map_qindex s in
  if bool_decide (0 ≤ qi) then
    match quiz_items s !! Z.to_nat qi with
    | Some q =>
        if bool_decide (0 ≤ i < Z.of_nat (length (options q))) then
          let is_ok := bool_decide (i = correct_index q) in
          let s := with_quiz_map_answers (<[qi := (i, is_ok)]> (quiz_map_answers s)) s in
          apply_answer_and_move today is_ok qi s
        else s
    | None => s
    end
  else s.

(** The button "Retry Quiz": the [quiz_map_*] keys and [quiz_items] are
    deleted, and set to their defaults again by the next run. *)
Definition retry_quiz (s : session) : session :=
  let s := with_quiz_items [] s in
  let s := with_quiz_map_position 0 s in
  let s := with_quiz_map_total_questions 0 s in
  let s := with_quiz_map_correct 0 s in
  let s := with_quiz_map_qindex 0 s in
  let s := with_quiz_map_anim idle s in
  let s := with_quiz_map_done false s in
  with_quiz_map_answers ∅ s.

(** ** Quests tab, games tab, shop tab *)

(** [weekly.get(key, 0)] *)
Definition weekly_get (w : weekly_progress) (key : string) : Z :=
  if bool_decide (key = "weekly_quizzes"%string) then weekly_quizzes w
  else if bool_decide (key = "weekly_80plus"%string) then weekly_80plus w
  else 0.

(** One of the two loops of [quest_progress_view]: mark the quests that
    reached their target and are not marked yet, and collect their ids. *)
Definition claim_quest (cur : string → Z) (mark : Z)
    (acc : session * list string) (q : quest) : session * list string :=
  let '(s, completed) := acc in
  if bool_decide (q_target q ≤ cur (q_key q))
     && negb (bool_decide ((q_id q, mark) ∈ quest_done s))
  then (with_quest_done ({[(q_id q, mark)]} ∪ quest_done s) s,
        completed ++ [q_id q])
  else (s, completed).

Definition claim_quests (cur : string → Z) (mark : Z) (quests : list quest)
    (s : session) : session * list string :=
  foldl (claim_quest cur mark) (s, []) quests.

Definition quest_progress_view (today : Z) (s : session) : session :=
  let daily := quests_daily_progress s in
  let weekly := quests_weekly_progress s in
  let '(s, completed_today) := claim_quests (daily_get daily) today DAILY_QUESTS s in
  let s := if bool_decide (completed_today ≠ [])
           then grant_quest_rewards completed_today s else s in
  let wk_start := default today (week_start weekly) in
  let '(s, completed_week) := claim_quests (weekly_get weekly) wk_start WEEKLY_QUESTS s in
  if bool_decide (completed_week ≠ [])
  then grant_quest_rewards completed_week s else s.

(** Sudoku: the button "Start", and the button "Check" on a grid that is
    [solved] (full and valid) or not. *)
Definition sudoku_start (s : session) : session :=
  if negb (sudoku_started s) && bool_decide (0 < game_credits s) then
    with_sudoku_started true (with_game_credits (game_credits s - 1) s)
  else s.

Definition sudoku_check (solved : bool) (s : session) : session :=
  if sudoku_started s && solved then
    let s := with_total_xp (total_xp s + 10) s in
    let s := with_game_credits (game_credits s + 1) s in
    let s := with_sudoku_wins (sudoku_wins s + 1) s in
    let s := with_sudoku_started false s in
    with_sudoku_games_played (sudoku_games_played s + 1) s
  else s.

(** The button "Buy". *)
Definition buy (it : shop_item) (s : session) : session :=
  if bool_decide (i_cost it ≤ coins s) then
    let s := with_coins (coins s - i_cost it) s in
    match i_value it with
    | AvatarValue a => with_unlocked_avatars ({[a]} ∪ unlocked_avatars s) s
    | CreditsValue n => with_game_credits (game_credits s + n) s
    end
  else s.

(** ** Sessions: every operation of the engine, in any order *)

Inductive op :=
| TouchDailyStreak
| UpdateQuests (progress_key : string) (inc : Z) (is_80plus : bool)
| GrantQuestRewards (completed_ids : list string)
| CheckAchievements
| ApplyAnswerAndMove (is_correct : bool) (qidx : Z)
| CheckCompletionGate
| StartQuiz (quiz_text : text)
| AnswerClick (i : Z)
| RetryQuiz
| QuestProgressView
| SudokuStart
| SudokuCheck (solved : bool)
| Buy (it : shop_item).

(** The state after an operation, and the achievements it announced. *)
Definition step (now : clock) (o : op) (s : session)
  : session * list (string * Z) :=
  match o with
  | TouchDailyStreak => (touch_daily_streak (utc_today now) s, [])
  | UpdateQuests k inc hi => (update_quests (utc_today now) k inc hi s, [])
  | GrantQuestRewards ids => (grant_quest_rewards ids s, [])
  | CheckAchievements => check_achievements s
  | ApplyAnswerAndMove ok qidx => (apply_answer_and_move (utc_today now) ok qidx s, [])
  | CheckCompletionGate =>
      let r := check_completion_gate now s in (after_gate r, announced r)
  | StartQuiz t => (start_quiz t s, [])
  | AnswerClick i => (answer_click (utc_today now) i s, [])
  | RetryQuiz => (retry_quiz s, [])
  | QuestProgressView => (quest_progress_view (utc_today now) s, [])
  | SudokuStart => (sudoku_start s, [])
  | SudokuCheck solved => (sudoku_check solved s, [])
  | Buy it => (buy it s, [])
  end.

(** A session: operations, each at its own time. *)
Fixpoint run_session (ops : list (clock * op)) (s : session)
  : session * list (string * Z) :=
  match ops with
  | [] => (s, [])
  | (now, o) :: ops' =>
      let '(s1, n1) := step now o s in
      let '(s2, n2) := run_session ops' s1 in
      (s2, n1 ++ n2)
  end.

(** The defaults of [init_state], for a session opened on day [today]. *)
Definition init_state (today : Z) : session :=
  {| subject := ""; chapter := "";
     quiz_items := [];
     quiz_score := 0; quiz_total := 0; quiz_count := 0;
     progress := ∅;
     game_credits := 3; total_xp := 0; coins := 0;
     sudoku_wins := 0; sudoku_games_played := 0; sudoku_started := false;
     history := [];
     unlocked_avatars := {["backpack"%string]}; (* AVATARS[0], by name *)
     daily_streak := 0; last_active_date := None;
     correct_streak := 0; correct_total := 0; last_quiz_pct := 0;
     quests_daily_progress := fresh_daily today;
     quests_weekly_progress := fresh_weekly today;
     quiz_map_position := 0; quiz_map_total_questions := 0;
     quiz_map_correct := 0; quiz_map_qindex := 0;
     quiz_map_anim := idle; quiz_map_done := false;
     quiz_map_answers := ∅;
     ach := ∅;
     quest_done := ∅ |}.

(** ** Fixtures for the examples *)

(** Lines joined by newlines, as the model is asked to write them. *)
Definition lines (ls : list string) : text :=
  concat ((λ l, py l ++ [newline]) <$> ls).

Definition show (t : text) : string :=
  string_of_list_ascii ((λ n, ascii_of_N n) <$> t).

Definition question_block (q a b c k : string) : list string :=
  [ "[QUESTION]"; "Question: " +:+ q; "[A] " +:+ a; "[B] " +:+ b;
    "[C] " +:+ c; "[CORRECT: " +:+ k +:+ "]"; "[/QUESTION]" ]%string.

(** A finished attempt of [t] questions with [c] correct answers. *)
Definition finished_attempt (today c t : Z) : session :=
  with_quiz_map_qindex t
    (with_quiz_map_correct c
       (with_quiz_map_total_questions t
          (with_chapter "Motion" (with_subject "Physics" (init_state today))))).

(** ** Auxiliary definitions: what the statements below are written with *)

(** A literal is one of the atoms of a pattern written out as a list. *)
Ltac in_pattern :=
  repeat first [apply list_elem_of_here | apply list_elem_of_further].

(** Five question blocks: the second has no option C, the fourth no
    question line. *)
Definition three_of_five : text :=
  lines (["[QUIZ START]"%string]
         ++ question_block "What is 2+2?" "3" "4" "5" "B"
         ++ ["[QUESTION]"; "Question: Which one is prime?"; "[A] 4"; "[B] 7";
             "[CORRECT: B]"; "[/QUESTION]"]%string
         ++ question_block "Unit of force?" "newton" "joule" "watt" "A"
         ++ ["[QUESTION]"; "[A] left"; "[B] right"; "[C] up"; "[CORRECT: C]";
             "[/QUESTION]"]%string
         ++ question_block "Speed is?" "distance/time" "time/distance" "mass" "A"
         ++ ["[QUIZ END]"%string]).

Definition three_records : list item :=
  [ Item (py "What is 2+2?") [py "3"; py "4"; py "5"] (py "4") [] [] None;
    Item (py "Unit of force?") [py "newton"; py "joule"; py "watt"]
      (py "newton") [] [] None;
    Item (py "Speed is?") [py "distance/time"; py "time/distance"; py "mass"]
      (py "distance/time") [] [] None ].

(** A block whose question line holds the label and nothing more, and one
    whose line for option C does. *)
Definition bare_question_block : list string :=
  [ "[QUESTION]"; "Question:"; "[A] 4"; "[B] 7"; "[C] 9"; "[CORRECT: B]";
    "[/QUESTION]" ]%string.

Definition bare_option_block : list string :=
  [ "[QUESTION]"; "Question: Which way is up?"; "[A] left"; "[B] right"; "[C]";
    "[CORRECT: C]"; "[/QUESTION]" ]%string.

(** Three well-formed question blocks, with the two above as second and
    fourth. *)
Definition bare_label_quiz : text :=
  lines (["[QUIZ START]"%string]
         ++ question_block "What is 2+2?" "3" "4" "5" "B"
         ++ bare_question_block
         ++ question_block "Unit of force?" "newton" "joule" "watt" "A"
         ++ bare_option_block
         ++ question_block "Speed is?" "distance/time" "time/distance" "mass" "A"
         ++ ["[QUIZ END]"%string]).

Definition option_of (key : string) (qb : text) : text :=
  captured (OPTION_LINE (py key)) qb.

Definition no_marker_block : text :=
  lines ["Question: Which one is prime?"; "[A] 7"; "[B] 8"; "[C] 9"]%string.

Definition bad_marker_block : text :=
  lines ["Question: Which one is prime?"; "[A] 7"; "[B] 8"; "[C] 9";
         "[CORRECT: D]"]%string.

(** Five question blocks; in the third the marker comes first and the last
    line is the label of option C followed by blanks only. *)
Definition blank_option_quiz : text :=
  lines (["[QUIZ START]"%string]
         ++ question_block "What is 2+2?" "3" "4" "5" "B"
         ++ question_block "Which one is prime?" "4" "7" "9" "B"
         ++ ["[QUESTION]"; "[CORRECT: A]"; "Question: Unit of force?";
             "[A] newton"; "[B] joule"; "[C]  "; "[/QUESTION]"]%string
         ++ question_block "Unit of work?" "newton" "joule" "watt" "B"
         ++ question_block "Speed is?" "distance/time" "time/distance" "mass" "A"
         ++ ["[QUIZ END]"%string]).

Definition streak_of_4 (last : option Z) : session :=
  with_last_active_date last (with_daily_streak 4 (init_state 10)).

(** What [update_quests] mirrors into the weekly counters. *)
Definition mirrored (progress_key : string) (inc : Z) : Z :=
  if bool_decide (progress_key = "daily_quizzes"%string) then inc else 0.

Definition high_accuracy (progress_key : string) (is_80plus : bool) : Z :=
  if bool_decide (progress_key = "daily_quizzes"%string) && is_80plus then 1 else 0.

(** The XP quoted by a list of announcements. *)
Definition quoted_xp (newly : list (string * Z)) : Z :=
  foldr (λ p acc, p.2 + acc) 0 newly.

(** Rewrites a call of [update_quests] in the goal into the two
    assignments it amounts to, given the lemma that says so. *)
Ltac quests_frame_by frame :=
  match goal with
  | |- context [update_quests ?t ?k ?i ?h ?s] =>
      let d := fresh "d" in let w := fresh "w" in let E := fresh "E" in
      destruct (frame t k i h s) as (d & w & E); rewrite E; clear E
  end.

Definition stale_quests : session :=
  with_quests_weekly_progress (WeeklyProgress 4 2 (Some 95))
    (with_quests_daily_progress
       (DailyProgress (<["daily_quizzes"%string := 3]> (<["daily_correct"%string := 9]> ∅))
          (Some 99))
       (init_state 95)).

(** Answers submitted one after the other, each with its date, verdict and
    question index. *)
Definition submit_all (subs : list (Z * bool * Z)) (s : session) : session :=
  foldl (λ s '(today, is_correct, qidx), apply_answer_and_move today is_correct qidx s)
        s subs.

(** The record a settlement appends to the history. *)
Definition attempt_record (now : clock) (s : session) (xp : Z) : history_entry :=
  {| h_date := local_today now; h_subject := subject s; h_chapter := chapter s;
     h_score := quiz_map_correct s; h_total := quiz_map_total_questions s;
     h_xp := xp |}.

Definition noon : clock := Clock 100 100.

Definition four_of_five : session := finished_attempt 100 4 5.
Definition three_of_five_correct : session := finished_attempt 100 3 5.

Fixpoint gate_times (n : nat) (now : clock) (s : session) : session :=
  match n with
  | O => s
  | S n' => gate_times n' now (after_gate (check_completion_gate now s))
  end.

(** An operation that unlocks nothing and never takes XP away. *)
Definition quiet (s s' : session) : Prop :=
  ach s' = ach s ∧ total_xp s ≤ total_xp s'.

(** An operation that unlocks exactly the achievements it announces, all of
    them locked before, and pays at least what they quote. *)
Definition pays_new (s : session) (r : session * list (string * Z)) : Prop :=
  ach r.1 = ach s ∪ list_to_set r.2.*1
  ∧ NoDup r.2.*1
  ∧ (∀ t, t ∈ r.2.*1 → t ∉ ach s)
  ∧ (∀ p, p ∈ r.2 → ∃ a, a ∈ ACHIEVEMENTS ∧ a_title a = p.1 ∧ a_xp a = p.2)
  ∧ total_xp s + quoted_xp r.2 ≤ total_xp r.1.

(** Achievement evaluation run [n] times in a row. *)
Fixpoint recheck (n : nat) (s : session) : session :=
  match n with
  | O => s
  | S n' => recheck n' (check_achievements s).1
  end.

Definition pass_then_recheck : list (clock * op) :=
  [(noon, CheckCompletionGate); (noon, CheckAchievements);
   (noon, CheckAchievements); (noon, CheckCompletionGate)].

Definition busy_day : list (clock * op) :=
  [(noon, TouchDailyStreak); (noon, StartQuiz three_of_five);
   (noon, AnswerClick 1); (noon, AnswerClick 0); (noon, AnswerClick 0);
   (noon, CheckCompletionGate); (noon, QuestProgressView);
   (noon, SudokuStart); (noon, SudokuCheck true);
   (noon, Buy (ShopItem "credit_pack" 15 (CreditsValue 3)))].

(** The two line patterns, by label: the one the validator checks and the
    one the parser captures with. *)
Definition CHECKED_LINE (label : text) : list atom :=
  [Bol; Star is_space; Lit label; Star is_space; Plus dot].

Definition CAPTURED_LINE (label : text) : list atom :=
  [Bol; Star is_space; Lit label; Star is_space;
   GOpen; Plus dot; GClose; Star is_space; Eol].

Definition LABELS : list text :=
  [py "Question:"; py "[A]"; py "[B]"; py "[C]"].

(** Five well-formed question blocks. *)
Definition five_good : text :=
  lines (["[QUIZ START]"%string]
         ++ question_block "What is 2+2?" "3" "4" "5" "B"
         ++ question_block "Which one is prime?" "4" "7" "9" "B"
         ++ question_block "Unit of force?" "newton" "joule" "watt" "A"
         ++ question_block "Unit of work?" "newton" "joule" "watt" "B"
         ++ question_block "Speed is?" "distance/time" "time/distance" "mass" "A"
         ++ ["[QUIZ END]"%string]).




(** A session with 10 coins, and the owl avatar at 20. *)
Definition ten_coins : session := with_coins 10 (init_state 100).
Definition owl : shop_item := ShopItem "avatar_owl" 20 (AvatarValue "owl").

(** ** More of the app: sessions as the tabs drive them *)

(** The header runs [touch_daily_streak] at every rerun; here the app is
    opened on [n] days in a row, [day] being the first. *)
Fixpoint touch_days (day : Z) (n : nat) (s : session) : session :=
  match n with
  | O => s
  | S n' => touch_days (day + 1) n' (touch_daily_streak day s)
  end.

(** The correct ones among submitted answers. *)
Definition correct_answers (subs : list (Z * bool * Z)) : Z :=
  Z.of_nat (length (filter (λ sub, sub.1.2 = true) subs)).

(** The operations a learner triggers from the tabs; the shop sells the
    items of [SHOP_ITEMS]. The other operations are the helpers the
    handlers call. *)
Definition from_ui (o : op) : Prop :=
  match o with
  | TouchDailyStreak | CheckCompletionGate | StartQuiz _ | AnswerClick _
  | RetryQuiz | QuestProgressView | SudokuStart | SudokuCheck _ => True
  | Buy it => it ∈ SHOP_ITEMS
  | UpdateQuests _ _ _ | GrantQuestRewards _ | CheckAchievements
  | ApplyAnswerAndMove _ _ => False
  end.

(** The counters of the adventure agree with the quiz on display. *)
Definition on_track (s : session) : Prop :=
  quiz_map_total_questions s = Z.of_nat (length (quiz_items s))
  ∧ 0 ≤ quiz_map_position s ≤ quiz_map_correct s
  ∧ quiz_map_correct s ≤ quiz_map_qindex s
  ∧ quiz_map_qindex s ≤ quiz_map_total_questions s.

(** The statistics of the progress tab are those of the recorded
    attempts. *)
Definition sound_stats (s : session) : Prop :=
  0 ≤ quiz_score s ≤ quiz_total s
  ∧ quiz_count s = Z.of_nat (length (history s))
  ∧ Forall (λ h, 0 ≤ h_score h ≤ h_total h) (history s)
  ∧ (∀ subj chapters chap e,
       progress s !! subj = Some chapters → chapters !! chap = Some e →
       0 ≤ score e ≤ total e).

(** Nothing is owed. *)
Definition solvent (s : session) : Prop :=
  0 ≤ coins s ∧ 0 ≤ game_credits s.

(** Every purchase of a session is an item of the shop. *)
Definition stocked (o : op) : Prop :=
  match o with
  | Buy it => it ∈ SHOP_ITEMS
  | _ => True
  end.

(** The operations of the tabs while an attempt is on: those of [from_ui]
    but the two buttons that open another attempt. The app reruns the gate
    and the quests tab after every click. *)
Definition during_attempt (o : op) : Prop :=
  from_ui o ∧ match o with StartQuiz _ | RetryQuiz => False | _ => True end.

Definition is_click (o : op) : bool :=
  match o with AnswerClick _ => true | _ => false end.

(** The XP added along a session by the operations that [sel] selects. *)
Fixpoint xp_paid_by (sel : op → bool) (ops : list (clock * op)) (s : session) : Z :=
  match ops with
  | [] => 0
  | (now, o) :: ops' =>
      let s1 := (step now o s).1 in
      (if sel o then total_xp s1 - total_xp s else 0) + xp_paid_by sel ops' s1
  end.

(** Five right answers to [five_good], the gate rerun after the first, and
    the quests tab opened after the last. *)
Definition five_clicks_and_a_quest : list (clock * op) :=
  [(noon, AnswerClick 1); (noon, CheckCompletionGate); (noon, AnswerClick 1);
   (noon, AnswerClick 0); (noon, AnswerClick 1); (noon, AnswerClick 0);
   (noon, QuestProgressView)].

(** The option the correctness marker of a block names, as an index. *)
Definition key_index (qb : text) : Z :=
  if bool_decide (correct_key_of qb = py "B") then 1
  else if bool_decide (correct_key_of qb = py "C") then 2
  else 0.

(** Options A and B read the same, and the marker names B. *)
Definition twin_options_block : text :=
  lines ["Question: Which one is prime?"; "[A] 7"; "[B] 7"; "[C] 9";
         "[CORRECT: B]"]%string.

(** The quests tab opened on [day], and again the day after. *)
Definition two_mornings (day : Z) (s : session) : session :=
  quest_progress_view (day + 1) (quest_progress_view day s).

(** One quiz completed on day 99, and nothing claimed yet. *)
Definition quiz_done_yesterday : session :=
  with_quests_daily_progress
    (DailyProgress (<["daily_quizzes"%string := 1]> (<["daily_correct"%string := 0]> ∅))
       (Some 99))
    (init_state 99).

(** A learner with four recorded attempts and a streak of five days, who
    already holds "First Steps". *)
Definition seasoned : session :=
  with_ach {["First Steps"%string]}
    (with_daily_streak 5 (with_quiz_count 4 (init_state 100))).

(** ** Badges *)

(** The loop [for threshold, name in ladder: if total >= threshold: return
    name], and what is returned when it ends. *)
Fixpoint first_rung (ladder : list (Z * string)) (total : Z) (none : string)
  : string :=
  match ladder with
  | [] => none
  | (threshold, name) :: rest =>
      if bool_decide (threshold ≤ total) then name else first_rung rest total none
  end.

(** The badges are named here without their glyphs. *)
Definition BADGE_LADDER : list (Z * string) :=
  [(100, "Diamond Master"); (50, "Diamond"); (30, "Gold"); (20, "Silver");
   (10, "Bronze"); (5, "Rising Star")]%string.

Definition compute_badge (total : Z) : string :=
  first_rung BADGE_LADDER total "Novice".

(** The row of a table of thresholds that a value has reached and that no
    other row it has reached exceeds. *)
Definition highest_reached (table : list (Z * string)) (x : Z)
    (row : Z * string) : Prop :=
  row ∈ table ∧ row.1 ≤ x ∧ ∀ other, other ∈ table → other.1 ≤ x → other.1 ≤ row.1.

(** The thresholds of [LEVEL_XP] that an amount of XP has reached. *)
Definition levels_reached (xp : Z) : Z :=
  Z.of_nat (length (filter (λ cxp, cxp ≤ xp) LEVEL_XP)).

(** Rewrites the comparisons of a goal with thresholds into their
    outcomes, where linear arithmetic decides them. *)
Ltac settle_thresholds :=
  repeat match goal with
  | |- context [bool_decide (?a ≤ ?x)] =>
      first [rewrite (bool_decide_eq_true_2 (a ≤ x)) by lia
            |rewrite (bool_decide_eq_false_2 (a ≤ x)) by lia]
  | |- context [decide (?a ≤ ?x)] =>
      first [rewrite (decide_True (P := a ≤ x)) by lia
            |rewrite (decide_False (P := a ≤ x)) by lia]
  end.


(** A row that is not in a table written out. *)
Ltac no_other_row H :=
  repeat (apply elem_of_cons in H as [->|H]; [simpl in *; lia|]);
  by apply elem_of_nil in H.

(** ** tutor_engine.py: the quiz of a part, regenerated until it is valid *)

(** The loop of [run_chapters] around [generate_quiz]. The model's answers
    are given by the number of the call; [left] is [retry_quiz - attempts]
    and [calls] the calls made so far. *)
Fixpoint regenerate (generate : nat → text) (left calls : nat) (quiz : text)
  : text * nat :=
  if validate_quiz_block quiz then (quiz, calls)
  else match left with
       | O => (quiz, calls)
       | S left' => regenerate generate left' (S calls) (generate calls)
       end.

(** The quiz [run_chapters] yields for a part with its records, and the
    calls of [generate_quiz] it took. *)
Definition quiz_of_part (generate : nat → text) (retry_quiz : Z)
  : text * list item * nat :=
  let '(quiz, calls) := regenerate generate (Z.to_nat retry_quiz) 1 (generate 0%nat) in
  (quiz, parse_quiz_block quiz, calls).

(** A model that is down for the first call and answers well from the
    second call on. *)
Definition down_then_up (call : nat) : text :=
  match call with
  | O => py "Error: Ollama not available. Details: connection refused"
  | _ => five_good
  end.

(** A text as [strip] leaves it when something is left, and within one
    line: no line feed, and no white space at either end. *)
Definition trimmed_line (x : text) : Prop :=
  Forall (λ c, is_newline c = false) x
  ∧ (∃ y, head x = Some y ∧ is_space y = false)
  ∧ (∃ z, last x = Some z ∧ is_space z = false).

(** ** Sudoku *)

(** A board is a list of rows; [board[r][c]] raises [IndexError] where
    there is no such cell, which is [None] here. *)
Definition cell (board : list (list Z)) (r c : nat) : option Z :=
  row ← board !! r; row !! c.

(** [[board[r][c] for (r, c) in cells]] *)
Definition read (board : list (list Z)) (cells : list (nat * nat))
  : option (list Z) :=
  mapM (λ rc, cell board rc.1 rc.2) cells.

Definition valid_group (group : list Z) : bool :=
  let group := filter (λ x, x ≠ 0) group in
  bool_decide (length group = size (list_to_set (C := gset Z) group))
  && forallb (λ x, bool_decide (1 ≤ x ≤ 9)) group.

(** The cells of column [c], and of the box [(br, bc)], in the order the
    comprehensions read them. *)
Definition column_cells (c : nat) : list (nat * nat) :=
  (λ r, (r, c)) <$> seq 0 9.

Definition box_cells (br bc : nat) : list (nat * nat) :=
  r ← seq (br * 3) 3; c ← seq (bc * 3) 3; [(r, c)].

(** The groups are checked one after the other: the first invalid one
    returns [False], and one that cannot be read raises. *)
Fixpoint all_valid (groups : list (option (list Z))) : option bool :=
  match groups with
  | [] => Some true
  | None :: _ => None
  | Some group :: rest =>
      if valid_group group then all_valid rest else Some false
  end.

Definition validate_sudoku (board : list (list Z)) : option bool :=
  all_valid ((Some <$> board)
             ++ ((λ c, read board (column_cells c)) <$> seq 0 9)
             ++ (br ← seq 0 3; bc ← seq 0 3; [read board (box_cells br bc)])).

(** [generate_sudoku], given what [random] draws: the order of the bands
    and of the rows within each band, the same for the columns, the order
    of the digits, and the cells to blank. *)
Record draws := Draws {
  band_order : list nat;
  rows_in_band : list (list nat);
  stack_order : list nat;
  cols_in_stack : list (list nat);
  nums : list Z;
  blanks : list (nat * nat)
}.

Definition pattern (r c : nat) : nat := ((3 * (r mod 3) + r / 3 + c) mod 9)%nat.

(** [[g*base+r for g in shuffle(rBase) for r in shuffle(rBase)]]: the inner
    shuffle is drawn once for each [g]. *)
Definition shuffled_lines (order : list nat) (within : list (list nat)) : list nat :=
  concat (zip_with (λ g rs, (λ r, g * 3 + r)%nat <$> rs) order within).

Definition rows_of (d : draws) : list nat :=
  shuffled_lines (band_order d) (rows_in_band d).

Definition cols_of (d : draws) : list nat :=
  shuffled_lines (stack_order d) (cols_in_stack d).

(** The board before any cell is blanked. *)
Definition full_board (d : draws) : list (list Z) :=
  (λ r, (λ c, default 0 (nums d !! pattern r c)) <$> cols_of d) <$> rows_of d.

(** [board[r][c] = 0] *)
Definition blank (board : list (list Z)) (rc : nat * nat) : list (list Z) :=
  alter (<[rc.2 := 0]>) rc.1 board.

Definition empties : nat := (81 * 3 / 5)%nat.

Definition generate_sudoku (d : draws) : list (list Z) :=
  foldl blank (full_board d) (blanks d).

(** What [random.sample] and [random.randint] can return here. *)
Definition drawn (d : draws) : Prop :=
  band_order d ≡ₚ seq 0 3
  ∧ length (rows_in_band d) = 3%nat ∧ Forall (λ p, p ≡ₚ seq 0 3) (rows_in_band d)
  ∧ stack_order d ≡ₚ seq 0 3
  ∧ length (cols_in_stack d) = 3%nat ∧ Forall (λ p, p ≡ₚ seq 0 3) (cols_in_stack d)
  ∧ nums d ≡ₚ [1; 2; 3; 4; 5; 6; 7; 8; 9]
  ∧ length (blanks d) = empties
  ∧ Forall (λ rc, (rc.1 < 9)%nat ∧ (rc.2 < 9)%nat) (blanks d).

(** The button "Check": each cell is the clue, or else the learner's
    entry; the grid must be full and valid. *)
Definition combined (current user : list (list Z)) : option (list (list Z)) :=
  mapM (λ i, mapM (λ j, clue ← cell current i j;
                        if bool_decide (clue ≠ 0) then Some clue
                        else cell user i j)
                  (seq 0 9))
       (seq 0 9).

Definition solved (current user : list (list Z)) : bool :=
  match combined current user with
  | Some grid =>
      negb (existsb (λ row, bool_decide (0 ∈ row)) grid)
      && bool_decide (validate_sudoku grid = Some true)
  | None => false
  end.

(** A full grid that obeys the rules. *)
Definition digits : list Z := [1; 2; 3; 4; 5; 6; 7; 8; 9].

Definition sudoku_solution (grid : list (list Z)) : Prop :=
  length grid = 9%nat
  ∧ Forall (λ row, row ≡ₚ digits) grid
  ∧ (∀ c, (c < 9)%nat → ∃ g, read grid (column_cells c) = Some g ∧ g ≡ₚ digits)
  ∧ (∀ br bc, (br < 3)%nat → (bc < 3)%nat →
       ∃ g, read grid (box_cells br bc) = Some g ∧ g ≡ₚ digits).

(** A grid that is another with some cells set to 0. *)
Definition dimmed (dim lit : list (list Z)) : Prop :=
  Forall2 (Forall2 (λ x' x, x' = x ∨ x' = 0)) dim lit.

(** One outcome of the draws. *)
Definition sample_draws : draws :=
  {| band_order := [2; 0; 1]%nat;
     rows_in_band := [[1; 0; 2]; [0; 2; 1]; [2; 1; 0]]%nat;
     stack_order := [1; 2; 0]%nat;
     cols_in_stack := [[0; 1; 2]; [2; 0; 1]; [1; 2; 0]]%nat;
     nums := [5; 3; 9; 1; 7; 2; 8; 6; 4];
     blanks := (λ i, ((i * 7) mod 9, (i * 5 + i / 9) mod 9)%nat) <$> seq 0 48 |}.

(** The cells of a board that hold no digit. *)
Definition blank_cells (board : list (list Z)) : nat :=
  length (filter (λ x, x = 0) (concat board)).

(** ** app.py: the dashboard without the adventure *)

(** [s.startswith(prefix)] *)
Definition startswith (prefix s : text) : bool :=
  match eat prefix s with Some _ => true | None => false end.

(** [s.replace(old, new, 1)]: the leftmost occurrence only. *)
Fixpoint replace_first (old new s : text) : text :=
  match eat old s with
  | Some rest => new ++ rest
  | None =>
      match s with
      | c :: s' => c :: replace_first old new s'
      | [] => []
      end
  end.

(** [s.rstrip(chars)], the set of characters as a predicate. *)
Fixpoint lstrip_of (chars : N → bool) (s : text) : text :=
  match s with
  | c :: s' => if chars c then lstrip_of chars s' else s
  | [] => []
  end.

Definition rstrip_of (chars : N → bool) (s : text) : text :=
  reverse (lstrip_of chars (reverse s)).

Definition slash (c : N) : bool := (c =? 47)%N.

Module Dashboard.

(** Its ladder has four rungs. *)
Definition BADGE_LADDER : list (Z * string) :=
  [(50, "Diamond"); (30, "Gold"); (20, "Silver"); (10, "Bronze")]%string.

Definition compute_badge (total : Z) : string :=
  first_rung BADGE_LADDER total "No Badge Yet".

(** [ensure_ollama_ready]: the URL it requests, [None] where it returns
    [False] without a request; [get] tells whether the request comes back
    with a JSON body. *)
Definition health_url (base : text) : option text :=
  if negb (nonempty base) then None
  else
    let base := strip base in
    let base :=
      if startswith (py "http://0.0.0.0") base
      then replace_first (py "0.0.0.0") (py "127.0.0.1") base
      else base in
    Some (rstrip_of slash base ++ py "/api/tags").

Definition ensure_ollama_ready (get : text → bool) (base : text) : bool :=
  match health_url base with
  | Some url => get url
  | None => false
  end.

(** What the chat input takes a message for. *)
Inductive intent := Quiz | Next | Explain.

Definition QUIZ_WORDS : list text :=
  [py "continue"; py "quiz"; py "yes"; py "ok"; py "next quiz"].

(** The message is [low], lowered and stripped. *)
Definition intent_of (low : text) : intent :=
  if existsb (λ t, str_in t low) QUIZ_WORDS then Quiz
  else if str_in (py "next") low then Next
  else Explain.

(** The keys of the session state the chat reads and writes; a message
    is kept with whether the learner wrote it. *)
Record state := State {
  subject : string;
  chapter : string;
  part : Z;
  messages : list (bool * text);
  quiz_items : list item
}.

(** The chat input. [lower] is [str.lower]; [ready] is what
    [ensure_ollama_ready] returns and [reply] what the model answers to
    [generate_quiz] or [teach_part]. *)
Definition on_message (lower : text → text) (ready : bool) (reply : text)
    (user_msg : text) (s : state) : state :=
  if nonempty user_msg && negb (String.eqb (subject s) "")
     && negb (String.eqb (chapter s) "")
  then
    let s := State (subject s) (chapter s) (part s)
               (messages s ++ [(true, user_msg)]) (quiz_items s) in
    let low := strip (lower user_msg) in
    match intent_of low with
    | Quiz =>
        if ready then
          let items := parse_quiz_block reply in
          match items with
          | [] => s
          | _ => State (subject s) (chapter s) (part s) (messages s) items
          end
        else s
    | Next =>
        let s := State (subject s) (chapter s) (part s + 1) (messages s)
                   (quiz_items s) in
        if ready
        then State (subject s) (chapter s) (part s)
               (messages s ++ [(false, reply)]) (quiz_items s)
        else s
    | Explain =>
        if ready
        then State (subject s) (chapter s) (part s)
               (messages s ++ [(false, reply)]) (quiz_items s)
        else s
    end
  else s.

End Dashboard.

(** Writes the closed strings of a goal out as their code points. *)
Ltac spell :=
  repeat match goal with
  | |- context [py ?s] =>
      let v := eval vm_compute in (py s) in change (py s) with v
  end.

(** The words that ask for a quiz, the last of [QUIZ_WORDS] left out. *)
Definition short_quiz_words : list text :=
  [py "continue"; py "quiz"; py "yes"; py "ok"].

(** ** Text to speech: what is read aloud *)

(** [re.sub(pattern, '', s)] for a pattern that matches no empty string:
    the matches are passed over, leftmost first, and the other characters
    kept; [skip] counts the characters of the last match still to be
    passed over. *)
Fixpoint delete_from (r : list atom) (prev : option N) (s : text) (skip : nat)
  : text :=
  match skip with
  | S n =>
      match s with
      | x :: s' => delete_from r (Some x) s' n
      | [] => []
      end
  | O =>
      match run r prev s with
      | Some m =>
          match s with
          | x :: s' =>
              delete_from r (Some x) s' (pred (length s - length (m_end m)))
          | [] => []
          end
      | None =>
          match s with
          | x :: s' => x :: delete_from r (Some x) s' 0
          | [] => []
          end
      end
  end.

Definition dollar : N := 36%N.

(** r'\$.*?\$' *)
Definition MATH_RE : list atom := [Lit [dollar]; LazyStar dot; Lit [dollar]].

Definition clean_text (t : text) : text := delete_from MATH_RE None t 0.

(** [generate_tts_bytes], up to the speech engine: the text handed to
    [save_to_file], and [None] where nothing is spoken. *)
Definition spoken_text (t : text) : option text :=
  if negb (nonempty t) || negb (nonempty (strip t)) then None
  else Some (clean_text t).

(** [max(0, min(int(voice_index), len(voices) - 1))], when a voice is asked
    for and there are voices. *)
Definition voice_of (voice_index : option Z) (voices : nat) : option Z :=
  match voice_index, voices with
  | Some i, S _ => Some (Z.max 0 (Z.min i (Z.of_nat voices - 1)))
  | _, _ => None
  end.

(** The rest of a line after its first dollar sign, if it has one. *)
Fixpoint to_dollar (s : text) : option text :=
  match s with
  | x :: s' =>
      if (x =? dollar)%N then Some s'
      else if dot x then to_dollar s' else None
  | [] => None
  end.

(** No line holds two dollar signs; [seen] tells whether the line at hand
    has shown one already. *)
Fixpoint lone_dollars (seen : bool) (s : text) : bool :=
  match s with
  | x :: s' =>
      if is_newline x then lone_dollars false s'
      else if (x =? dollar)%N then negb seen && lone_dollars true s'
      else lone_dollars seen s'
  | [] => true
  end.

(** The daily counter of correct answers as a day's first correct answer
    finds it: zero when the counters are those of another day. *)
Definition correct_so_far (today : Z) (d : daily_progress) : Z :=
  if bool_decide (reset_date d = Some today) then daily_get d "daily_correct" else 0.

(** Six answers on day 100, five of them correct. *)
Definition five_of_six : list (Z * bool * Z) :=
  [(100, true, 0); (100, true, 1); (100, false, 2); (100, true, 3);
   (100, true, 4); (100, true, 5)].

(** * Properties *)

(** ** The matcher reads the literals of its pattern off the subject *)

Section ReFacts.

Import Re.

Lemma eat_Some (l s s' : text) : eat l s = Some s' → s = l ++ s'.
Proof.
  revert s. induction l as [|a l IH]; intros [|b s]; simpl; try congruence.
  destruct (N.eqb_spec a b) as [->|]; [|congruence].
  intros H. by rewrite (IH _ H).
Qed.

Lemma eat_app (l s : text) : eat l (l ++ s) = Some s.
Proof.
  induction l as [|a l IH]; simpl; [done|]. by rewrite N.eqb_refl.
Qed.

Lemma str_in_cons (l : text) (x : N) (s : text) :
  str_in l s = true → str_in l (x :: s) = true.
Proof.
  intros H. change (str_in l (x :: s)) with
    (match eat l (x :: s) with Some _ => true | None => str_in l s end).
  by destruct (eat l (x :: s)).
Qed.

Lemma str_in_skip (l a s : text) :
  str_in l s = true → str_in l (a ++ s) = true.
Proof. induction a; simpl; [done|]. intros. by apply str_in_cons, IHa. Qed.

Lemma str_in_here (l s : text) : str_in l (l ++ s) = true.
Proof. destruct l; simpl; [by destruct s|]. by rewrite N.eqb_refl, eat_app. Qed.

(** [needle in hay] holds exactly when [hay] splits around [needle]. *)
Lemma str_in_spec (l s : text) :
  str_in l s = true ↔ ∃ a b, s = a ++ l ++ b.
Proof.
  split.
  - induction s as [|x s IH].
    + simpl. destruct (eat l []) eqn:E; [|done].
      intros _. exists [], t. simpl. by apply eat_Some.
    + change (str_in l (x :: s)) with
        (match eat l (x :: s) with Some _ => true | None => str_in l s end).
      destruct (eat l (x :: s)) eqn:E.
      * intros _. exists [], t. simpl. by apply eat_Some.
      * intros H. destruct (IH H) as (a & b & ->). by exists (x :: a), b.
  - intros (a & b & ->). apply str_in_skip, str_in_here.
Qed.

(** Where a repetition hands over to the rest of the pattern. *)
Lemma greedy_inv c (k : conts) prev s m :
  greedy c k prev s = Some m →
  ∃ a prev' s', s = a ++ s' ∧ k prev' s' = Some m.
Proof.
  revert prev. induction s as [|x s IH]; intros prev; simpl.
  - intros H. by exists [], prev, [].
  - destruct (c x); [|intros H; by exists [], prev, (x :: s)].
    destruct (greedy c k (Some x) s) eqn:E.
    + intros [= ->]. destruct (IH _ E) as (a & p & s' & -> & Hk).
      by exists (x :: a), p, s'.
    + intros H. by exists [], prev, (x :: s).
Qed.

Lemma lazy_inv c (k : conts) prev s m :
  lazy c k prev s = Some m →
  ∃ a prev' s', s = a ++ s' ∧ k prev' s' = Some m.
Proof.
  revert prev. induction s as [|x s IH]; intros prev; simpl.
  - destruct (k prev []) eqn:E; [|done]. intros [= ->]. by exists [], prev, [].
  - destruct (k prev (x :: s)) eqn:E.
    + intros [= ->]. by exists [], prev, (x :: s).
    + destruct (c x); [|done]. intros H.
      destruct (IH _ H) as (a & p & s' & -> & Hk). by exists (x :: a), p, s'.
Qed.

Lemma run_lit (l : text) r prev s m :
  run r prev s = Some m → Lit l ∈ r → str_in l s = true.
Proof.
  revert prev s m. induction r as [|a r IH]; intros prev s m Hrun Hin.
  { by apply elem_of_nil in Hin. }
  apply elem_of_cons in Hin.
  destruct a as [l0|c|c|c|c| | | |]; simpl in Hrun.
  - destruct (eat l0 s) as [s'|] eqn:E; [|done].
    apply eat_Some in E as ->.
    destruct Hin as [[= ->]|Hin]; [apply str_in_here|].
    eapply str_in_skip, IH; eauto.
  - destruct Hin as [|Hin]; [done|]. destruct s as [|x s]; [done|].
    destruct (c x); [|done]. eapply str_in_cons, IH; eauto.
  - destruct Hin as [|Hin]; [done|].
    apply greedy_inv in Hrun as (a & p & s' & -> & Hk).
    eapply str_in_skip, IH; eauto.
  - destruct Hin as [|Hin]; [done|]. destruct s as [|x s]; [done|].
    destruct (c x); [|done].
    apply greedy_inv in Hrun as (a & p & s' & -> & Hk).
    eapply str_in_cons, str_in_skip, IH; eauto.
  - destruct Hin as [|Hin]; [done|].
    apply lazy_inv in Hrun as (a & p & s' & -> & Hk).
    eapply str_in_skip, IH; eauto.
  - destruct Hin as [|Hin]; [done|]. destruct (at_bol prev); [|done]. eauto.
  - destruct Hin as [|Hin]; [done|]. destruct (at_eol s); [|done]. eauto.
  - destruct Hin as [|Hin]; [done|].
    destruct (run r prev s) eqn:E; [|done]. eauto.
  - destruct Hin as [|Hin]; [done|].
    destruct (run r prev s) eqn:E; [|done]. eauto.
Qed.

Lemma search_from_inv r prev s m :
  search_from r prev s = Some m →
  ∃ a prev' s', s = a ++ s' ∧ run r prev' s' = Some m.
Proof.
  revert prev. induction s as [|x s IH]; intros prev; simpl.
  - destruct (run r prev []) eqn:E; [|done]. intros [= ->]. by exists [], prev, [].
  - destruct (run r prev (x :: s)) eqn:E.
    + intros [= ->]. by exists [], prev, (x :: s).
    + intros H. destruct (IH _ H) as (a & p & s' & -> & Hk).
      by exists (x :: a), p, s'.
Qed.

(** A pattern only matches a subject that holds each of its literals. *)
Lemma search_lit (l : text) r s m :
  search r s = Some m → Lit l ∈ r → str_in l s = true.
Proof.
  intros H Hin. apply search_from_inv in H as (a & p & s' & -> & Hk).
  eapply str_in_skip, run_lit; eauto.
Qed.

Lemma search_without_lit (l : text) r s :
  Lit l ∈ r → str_in l s = false → search r s = None.
Proof.
  intros Hin Hno. destruct (search r s) eqn:E; [|done].
  by rewrite (search_lit _ _ _ _ E Hin) in Hno.
Qed.

End ReFacts.

(** ** The lenient parser *)

Lemma parse_quiz_block_blocks (t : text) (m : mres) :
  search QUIZ_RE t = Some m →
  parse_quiz_block t = omap parse_question (findall QUESTION_RE (group1 m)).
Proof.
  intros H. unfold parse_quiz_block. rewrite H.
  destruct t; [|done]. by vm_compute in H.
Qed.

Lemma parse_quiz_block_no_match (t : text) :
  search QUIZ_RE t = None → parse_quiz_block t = [].
Proof. intros H. unfold parse_quiz_block. rewrite H. by destruct (negb _). Qed.

Lemma parse_question_None (qb : text) :
  parse_question qb = None ↔
  question_of qb = [] ∨ ∃ k, k ∈ KEYS ∧ captured (OPTION_LINE k) qb = [].
Proof.
  unfold parse_question, options_map_of, KEYS. simpl.
  destruct (question_of qb) eqn:Eq; simpl.
  { split; [by left|done]. }
  destruct (captured (OPTION_LINE (py "A")) qb) eqn:Ea; simpl.
  { split; [|done]. intros _. right. exists (py "A"). split; [set_solver|done]. }
  destruct (captured (OPTION_LINE (py "B")) qb) eqn:Eb; simpl.
  { split; [|done]. intros _. right. exists (py "B"). split; [set_solver|done]. }
  destruct (captured (OPTION_LINE (py "C")) qb) eqn:Ec; simpl.
  { split; [|done]. intros _. right. exists (py "C"). split; [set_solver|done]. }
  split; [done|]. intros [|(k & Hk & Hc)]; [done|].
  repeat (apply elem_of_cons in Hk as [->|Hk]; [congruence|]).
  by apply elem_of_nil in Hk.
Qed.

Lemma captured_without_lit (l : text) (r : list atom) (qb : text) :
  Lit l ∈ r → str_in l qb = false → captured r qb = [].
Proof. intros Hin H. unfold captured. by rewrite (search_without_lit l). Qed.

Lemma omap_length_filter {A B} (f : A → option B) (l : list A) :
  length (omap f l) = length (filter (λ x, is_Some (f x)) l).
Proof.
  induction l as [|x l IH]; [done|]. rewrite filter_cons. cbn [omap list_omap].
  destruct (decide (is_Some (f x))) as [[y Hy]|Hn].
  - rewrite Hy. simpl. by rewrite IH.
  - destruct (f x) eqn:E; [|done]. destruct Hn. eauto.
Qed.

(** The leniency the parser has. A text lacking [QUIZ START] or [QUIZ END]
    parses to the empty list (the function is total: nothing is raised).
    Inside the delimiters the result is the sequence of the records of the
    question blocks in which the patterns capture a question text and all
    three options: a block in which "Question:" or the label of an option
    does not occur, or in which the pattern captures no text for it, yields
    no record and leaves the records of the other blocks as they are, so the
    number of records is the number of blocks kept. In [three_of_five] one
    block has no line for option C and one has no line for the question;
    exactly the three others give records. What a pattern captures is not
    always on the line of its label: see the next theorem. *)
Theorem parse_quiz_block_lenient :
  (∀ t : text,
     str_in (py "[QUIZ START]") t = false ∨ str_in (py "[QUIZ END]") t = false →
     parse_quiz_block t = [])
  ∧ (∀ qb : text,
       str_in (py "Question:") qb = false ∨ question_of qb = [] →
       parse_question qb = None)
  ∧ (∀ (qb k : text),
       k ∈ KEYS →
       str_in (py "[" ++ k ++ py "]") qb = false ∨ captured (OPTION_LINE k) qb = [] →
       parse_question qb = None)
  ∧ (∀ (t : text) (m : mres) (before after : list text) (qb : text),
       search QUIZ_RE t = Some m →
       findall QUESTION_RE (group1 m) = before ++ qb :: after →
       parse_question qb = None →
       parse_quiz_block t = omap parse_question before ++ omap parse_question after)
  ∧ (∀ (t : text) (m : mres),
       search QUIZ_RE t = Some m →
       length (parse_quiz_block t) =
       length (filter (λ qb, is_Some (parse_question qb))
                      (findall QUESTION_RE (group1 m))))
  ∧ (∃ m, search QUIZ_RE three_of_five = Some m
          ∧ length (findall QUESTION_RE (group1 m)) = 5%nat)
  ∧ parse_quiz_block three_of_five = three_records
  ∧ length (parse_quiz_block three_of_five) = 3%nat.
Proof.
  split; [|split; [|split; [|split; [|split; [|split; [|split]]]]]].
  - intros t H. apply parse_quiz_block_no_match.
    destruct H as [H|H];
      [apply (search_without_lit (py "[QUIZ START]"))
      |apply (search_without_lit (py "[QUIZ END]"))]; solve [done|in_pattern].
  - intros qb [H|H]; apply parse_question_None; left; [|done].
    apply (captured_without_lit (py "Question:")); [in_pattern|done].
  - intros qb k Hk H. apply parse_question_None. right. exists k. split; [done|].
    destruct H as [H|H]; [|done].
    apply (captured_without_lit (py "[" ++ k ++ py "]")); [in_pattern|done].
  - intros t m before after qb Hm Hb Hq.
    rewrite (parse_quiz_block_blocks t m Hm), Hb, omap_app. simpl. by rewrite Hq.
  - intros t m Hm. rewrite (parse_quiz_block_blocks t m Hm). apply omap_length_filter.
  - eexists. split; [by vm_compute|by vm_compute].
  - by vm_compute.
  - by vm_compute.
Qed.

(** A text without the outer markers, and a block without a question. *)
Lemma parse_quiz_block_lenient_witness :
  parse_quiz_block (py "Error: Ollama not available.") = []
  ∧ parse_question (lines ["[A] left"; "[B] right"; "[C] up"; "[CORRECT: C]"]%string) = None.
Proof.
  split.
  - apply (proj1 parse_quiz_block_lenient). left. by vm_compute.
  - apply (proj1 (proj2 parse_quiz_block_lenient)). left. by vm_compute.
Defined.

(** C4, at a text with three well-formed question blocks and two malformed
    ones: the second block has no question text, its line reads "Question:"
    and nothing more, and the fourth has no text for option C. Neither is
    dropped. In both patterns the [\s*] behind the label runs over the line
    feed, so the group captures the next line: the parser returns five
    records, not three, the second with "[A] 4" for question and the fourth
    with "[CORRECT: C]" for option C and for answer. The strict validator
    accepts the text, so the quiz is played as it is. *)
Theorem parser_keeps_bare_label_blocks :
  (∃ m, search QUIZ_RE bare_label_quiz = Some m
        ∧ length (findall QUESTION_RE (group1 m)) = 5%nat)
  ∧ show (question_of (lines bare_question_block)) = "[A] 4"%string
  ∧ show (option_of "C" (lines bare_option_block)) = "[CORRECT: C]"%string
  ∧ length (parse_quiz_block bare_label_quiz) = 5%nat
  ∧ (show ∘ question <$> parse_quiz_block bare_label_quiz)
    = ["What is 2+2?"; "[A] 4"; "Unit of force?"; "Which way is up?";
       "Speed is?"]%string
  ∧ ((λ it, show <$> options it) <$> parse_quiz_block bare_label_quiz) !! 3%nat
    = Some ["left"; "right"; "[CORRECT: C]"]%string
  ∧ (show ∘ answer <$> parse_quiz_block bare_label_quiz) !! 3%nat
    = Some "[CORRECT: C]"%string
  ∧ validate_quiz_block bare_label_quiz = true.
Proof.
  split; [eexists; split; by vm_compute|]. by vm_compute.
Qed.

(** ** The record of a block that is kept *)

Lemma dict_get_options (qb : text) :
  dict_get (options_map_of qb) (py "A") = option_of "A" qb
  ∧ dict_get (options_map_of qb) (py "B") = option_of "B" qb
  ∧ dict_get (options_map_of qb) (py "C") = option_of "C" qb.
Proof. done. Qed.

Lemma parse_question_Some (qb : text) (it : item) :
  parse_question qb = Some it →
  it = Item (question_of qb)
            [option_of "A" qb; option_of "B" qb; option_of "C" qb]
            (dict_get (options_map_of qb) (correct_key_of qb)) [] [] None
  ∧ question_of qb ≠ []
  ∧ option_of "A" qb ≠ [] ∧ option_of "B" qb ≠ [] ∧ option_of "C" qb ≠ [].
Proof.
  unfold parse_question.
  destruct (question_of qb) eqn:Eq; [done|].
  unfold options_map_of at 1, KEYS. simpl.
  fold (option_of "A" qb) (option_of "B" qb) (option_of "C" qb).
  destruct (option_of "A" qb) eqn:Ea; [done|].
  destruct (option_of "B" qb) eqn:Eb; [done|].
  destruct (option_of "C" qb) eqn:Ec; [done|].
  simpl. intros [= <-]. by repeat split.
Qed.

Lemma index_of_head (j : Z) (a : text) (rest : list text) :
  index_of j (a :: rest) a = j.
Proof. simpl. by rewrite bool_decide_eq_true_2. Qed.

Lemma no_marker_no_match (qb : text) :
  str_in (py "[CORRECT:") qb = false → search CORRECT_LINE qb = None.
Proof. apply search_without_lit. in_pattern. Qed.

(** C5. When the pattern for the correctness marker finds nothing in a
    question block (no marker, or one that names no letter from A to C) and
    the block is kept, the answer of its record is the text of option A, the
    first of its options, and the quiz tab resolves that answer to index 0. *)
Theorem missing_marker_defaults_to_A (qb : text) (it : item) :
  search CORRECT_LINE qb = None →
  parse_question qb = Some it →
  correct_key_of qb = py "A"
  ∧ answer it = option_of "A" qb
  ∧ options it !! 0%nat = Some (answer it)
  ∧ correct_index it = 0.
Proof.
  intros Hc Hp. apply parse_question_Some in Hp as (-> & _).
  assert (Hk : correct_key_of qb = py "A") by (unfold correct_key_of; by rewrite Hc).
  rewrite Hk. destruct (dict_get_options qb) as (Ha & _).
  unfold correct_index. cbn [answer options correct]. rewrite Ha.
  repeat split. apply index_of_head.
Qed.

(** A block with no marker at all. *)
Lemma missing_marker_defaults_to_A_witness :
  ∃ it, parse_question no_marker_block = Some it
        ∧ answer it = py "7" ∧ correct_index it = 0.
Proof.
  eexists. split; [by vm_compute|].
  split; [done|].
  eapply (missing_marker_defaults_to_A no_marker_block).
  - apply no_marker_no_match. by vm_compute.
  - by vm_compute.
Defined.

(** A marker that names no valid letter is as good as none. *)
Example unparseable_marker :
  search CORRECT_LINE bad_marker_block = None
  ∧ (answer <$> parse_question bad_marker_block) = Some (py "7")
  ∧ (correct_index <$> parse_question bad_marker_block) = Some 0.
Proof. by vm_compute. Qed.

(** ** The strict validator against the parser *)

(** C10, at a text the validator accepts: the parser drops the block whose
    option C is blank, leaving four records instead of five. *)
Theorem validator_accepts_blank_option :
  validate_quiz_block blank_option_quiz = true
  ∧ length (parse_quiz_block blank_option_quiz) = 4%nat
  ∧ (show ∘ question <$> parse_quiz_block blank_option_quiz)
    = ["What is 2+2?"; "Which one is prime?"; "Unit of work?"; "Speed is?"]%string.
Proof. by vm_compute. Qed.

(** ** The daily streak *)

(** C6. [touch_daily_streak]: with no last active date the streak becomes 1;
    one day after the last active date it grows by exactly 1; more than one
    day after, it is reset to 1; on the same day it is unchanged; and the
    last active date is today afterwards in every case. *)
Theorem touch_daily_streak_cases (today : Z) (s : session) :
  (last_active_date s = None →
   daily_streak (touch_daily_streak today s) = 1)
  ∧ (∀ last, last_active_date s = Some last → today - last = 1 →
       daily_streak (touch_daily_streak today s) = daily_streak s + 1)
  ∧ (∀ last, last_active_date s = Some last → 1 < today - last →
       daily_streak (touch_daily_streak today s) = 1)
  ∧ (∀ last, last_active_date s = Some last → today - last = 0 →
       daily_streak (touch_daily_streak today s) = daily_streak s)
  ∧ last_active_date (touch_daily_streak today s) = Some today.
Proof.
  unfold touch_daily_streak.
  repeat split.
  - by intros ->.
  - intros last -> Hd. by rewrite bool_decide_eq_true_2.
  - intros last -> Hd.
    rewrite bool_decide_eq_false_2 by lia. by rewrite bool_decide_eq_true_2.
  - intros last -> Hd.
    rewrite bool_decide_eq_false_2 by lia. by rewrite bool_decide_eq_false_2 by lia.
Qed.

(** Yesterday, three days ago, today, and a first activation, for a streak
    of 4. *)
Lemma touch_daily_streak_cases_witness :
  daily_streak (touch_daily_streak 10 (streak_of_4 (Some 9))) = 5
  ∧ daily_streak (touch_daily_streak 10 (streak_of_4 (Some 7))) = 1
  ∧ daily_streak (touch_daily_streak 10 (streak_of_4 (Some 10))) = 4
  ∧ daily_streak (touch_daily_streak 10 (streak_of_4 None)) = 1.
Proof.
  split; [|split; [|split]].
  - apply (proj1 (proj2 (touch_daily_streak_cases 10 (streak_of_4 (Some 9)))) 9);
      [reflexivity|lia].
  - apply (proj1 (proj2 (proj2 (touch_daily_streak_cases 10 (streak_of_4 (Some 7))))) 7);
      [reflexivity|lia].
  - apply (proj1 (proj2 (proj2 (proj2 (touch_daily_streak_cases 10 (streak_of_4 (Some 10)))))) 10);
      [reflexivity|lia].
  - apply (proj1 (touch_daily_streak_cases 10 (streak_of_4 None))). reflexivity.
Defined.

(** ** The quest counters *)

Lemma daily_get_fresh (today : Z) (k : string) : daily_get (fresh_daily today) k = 0.
Proof.
  unfold daily_get, fresh_daily. simpl.
  destruct (decide (k = "daily_quizzes"%string)) as [->|];
    [by rewrite lookup_insert_eq|rewrite lookup_insert_ne by done].
  destruct (decide (k = "daily_correct"%string)) as [->|];
    [by rewrite lookup_insert_eq|by rewrite lookup_insert_ne by done].
Qed.

Lemma update_quests_daily (today : Z) (key : string) (inc : Z) (hi : bool)
    (s : session) :
  quests_daily_progress (update_quests today key inc hi s) =
  let d := if bool_decide (reset_date (quests_daily_progress s) ≠ Some today)
           then fresh_daily today else quests_daily_progress s in
  {| counters := <[key := daily_get d key + inc]> (counters d);
     reset_date := reset_date d |}.
Proof.
  unfold update_quests. repeat case_match; reflexivity.
Qed.

Lemma update_quests_weekly (today : Z) (key : string) (inc : Z) (hi : bool)
    (s : session) :
  quests_weekly_progress (update_quests today key inc hi s) =
  let w := match week_start (quests_weekly_progress s) with
           | None => fresh_weekly today
           | Some ws => if bool_decide (7 ≤ today - ws) then fresh_weekly today
                        else quests_weekly_progress s
           end in
  {| weekly_quizzes := weekly_quizzes w + mirrored key inc;
     weekly_80plus := weekly_80plus w + high_accuracy key hi;
     week_start := week_start w |}.
Proof.
  unfold update_quests, mirrored, high_accuracy.
  set (s1 := if bool_decide (reset_date (quests_daily_progress s) ≠ Some today)
             then _ else _).
  set (s2 := with_quests_daily_progress _ s1).
  assert (Hw : quests_weekly_progress s2 = quests_weekly_progress s)
    by (subst s2 s1; by case_bool_decide).
  clearbody s2. clear s1. rewrite Hw.
  destruct (quests_weekly_progress s) as [wq w8 [ws|]] eqn:Ew; simpl;
    repeat case_bool_decide; destruct hi; simpl; rewrite ?Hw; simpl;
    f_equal; lia.
Qed.

(** ** Achievements *)

Lemma quoted_xp_app (l1 l2 : list (string * Z)) :
  quoted_xp (l1 ++ l2) = quoted_xp l1 + quoted_xp l2.
Proof. induction l1 as [|p l1 IH]; simpl; [done|]. rewrite IH. lia. Qed.

Lemma session_eta (s : session) :
  with_total_xp (total_xp s) (with_ach (ach s) s) = s.
Proof. by destruct s. Qed.

Lemma check_achievement_cons (s : session) (n : list (string * Z))
    (a : achievement) (cat : list achievement) :
  foldl check_achievement (s, n) (a :: cat) =
  foldl check_achievement
    (if negb (bool_decide (a_title a ∈ ach s)) && a_cond a s
     then (with_total_xp (total_xp s + a_xp a) (with_ach ({[a_title a]} ∪ ach s) s),
           n ++ [(a_title a, a_xp a)])
     else (s, n)) cat.
Proof. done. Qed.

Section Catalog.

Variable catalog : list achievement.

(** What a pass over a catalog does, whatever its conditions are: only the
    XP and the unlocked set change; the XP grows by what the announcements
    quote; the announced titles are new, distinct, rows of the catalog, and
    exactly what the unlocked set gains. *)
Lemma check_achievements_in_spec (s : session) :
  ∃ newly,
    check_achievements_in catalog s =
      (with_total_xp (total_xp s + quoted_xp newly)
         (with_ach (ach s ∪ list_to_set newly.*1) s), newly)
    ∧ NoDup newly.*1
    ∧ (∀ t, t ∈ newly.*1 → t ∉ ach s)
    ∧ (∀ p, p ∈ newly → ∃ a, a ∈ catalog ∧ a_title a = p.1 ∧ a_xp a = p.2).
Proof.
  unfold check_achievements_in.
  cut (∀ (s0 : session) (n0 : list (string * Z)),
         ∃ more,
           foldl check_achievement (s0, n0) catalog =
             (with_total_xp (total_xp s0 + quoted_xp more)
                (with_ach (ach s0 ∪ list_to_set more.*1) s0), n0 ++ more)
           ∧ NoDup more.*1
           ∧ (∀ t, t ∈ more.*1 → t ∉ ach s0)
           ∧ (∀ p, p ∈ more → ∃ a, a ∈ catalog ∧ a_title a = p.1 ∧ a_xp a = p.2)).
  { intros H. destruct (H s []) as (more & ? & ?). by exists more. }
  induction catalog as [|a cat IH]; intros s0 n0.
  - exists []. simpl. rewrite Z.add_0_r, union_empty_r_L, session_eta, app_nil_r.
    split; [done|]. split; [constructor|].
    split; [intros t Ht|intros p Hp]; by apply elem_of_nil in Ht || apply elem_of_nil in Hp.
  - rewrite check_achievement_cons.
    destruct (negb (bool_decide (a_title a ∈ ach s0)) && a_cond a s0) eqn:E.
    + apply andb_prop in E as [Hnew _].
      apply negb_true_iff, bool_decide_eq_false in Hnew.
      destruct (IH (with_total_xp (total_xp s0 + a_xp a)
                      (with_ach ({[a_title a]} ∪ ach s0) s0)) (n0 ++ [(a_title a, a_xp a)]))
        as (more & -> & Hnd & Hfresh & Hrows).
      exists ((a_title a, a_xp a) :: more). simpl in *.
      split; [|split; [|split]].
      * rewrite <- app_assoc. simpl. f_equal.
        replace (total_xp s0 + a_xp a + quoted_xp more)
          with (total_xp s0 + (a_xp a + quoted_xp more)) by lia.
        replace ({[a_title a]} ∪ ach s0 ∪ list_to_set more.*1)
          with (ach s0 ∪ ({[a_title a]} ∪ list_to_set more.*1))
          by (by rewrite (assoc_L (∪)), (comm_L (∪) (ach s0))).
        done.
      * constructor; [|done]. intros Hin. apply Hfresh in Hin. set_solver.
      * intros t [->|Hin]%elem_of_cons; [done|]. apply Hfresh in Hin. set_solver.
      * intros p [->|Hin]%elem_of_cons.
        -- exists a. split; [apply list_elem_of_here|done].
        -- destruct (Hrows p Hin) as (a' & ? & ?). exists a'.
           split; [by apply list_elem_of_further|done].
    + destruct (IH s0 n0) as (more & -> & Hnd & Hfresh & Hrows).
      exists more. split; [done|]. split; [done|]. split; [done|].
      intros p Hin. destruct (Hrows p Hin) as (a' & ? & ?). exists a'.
      split; [by apply list_elem_of_further|done].
Qed.

(** A catalog whose conditions read neither the XP nor the unlocked set. *)
Hypothesis conditions_ignore_rewards :
  ∀ a x u s, a ∈ catalog → a_cond a (with_total_xp x (with_ach u s)) = a_cond a s.

Lemma check_achievements_in_settled (s : session) :
  (∀ a, a ∈ catalog → a_title a ∈ ach s ∨ a_cond a s = false) →
  check_achievements_in catalog s = (s, []).
Proof.
  unfold check_achievements_in. generalize (@nil (string * Z)).
  clear conditions_ignore_rewards.
  induction catalog as [|a cat IH]; intros n0 H; [done|].
  rewrite check_achievement_cons.
  destruct (H a (list_elem_of_here _ _)) as [Hin|Hc].
  - rewrite (bool_decide_eq_true_2 _ Hin). simpl.
    apply IH. intros a' Ha'. apply H. by apply list_elem_of_further.
  - rewrite Hc, andb_false_r.
    apply IH. intros a' Ha'. apply H. by apply list_elem_of_further.
Qed.

Lemma check_achievements_in_settles (s : session) (a : achievement) :
  a ∈ catalog →
  a_title a ∈ ach (check_achievements_in catalog s).1
  ∨ a_cond a (check_achievements_in catalog s).1 = false.
Proof.
  unfold check_achievements_in. generalize (@nil (string * Z)).
  revert s conditions_ignore_rewards.
  induction catalog as [|b cat IH]; intros s Hign n0 Ha.
  { by apply elem_of_nil in Ha. }
  change (foldl check_achievement (s, n0) (b :: cat))
    with (foldl check_achievement (check_achievement (s, n0) b) cat).
  assert (Hcat : ∀ a x u s, a ∈ cat →
            a_cond a (with_total_xp x (with_ach u s)) = a_cond a s).
  { intros. apply Hign. by apply list_elem_of_further. }
  set (acc := check_achievement (s, n0) b).
  assert (Hb : a_title b ∈ ach acc.1 ∨ a_cond b acc.1 = false).
  { subst acc. unfold check_achievement.
    destruct (bool_decide (a_title b ∈ ach s)) eqn:E1; simpl.
    - left. by apply bool_decide_eq_true in E1.
    - destruct (a_cond b s) eqn:E2; simpl; [left|by right].
      by apply elem_of_union_l, elem_of_singleton. }
  destruct acc as [s1 n1]. simpl in Hb.
  apply elem_of_cons in Ha as [->|Ha]; [|by apply IH].
  clear IH.
  assert (Hrest : ∃ x u, (foldl check_achievement (s1, n1) cat).1
                         = with_total_xp x (with_ach u s1) ∧ ach s1 ⊆ u).
  { clear -cat. revert s1 n1. induction cat as [|c cat IH]; intros s1 n1.
    - exists (total_xp s1), (ach s1). simpl. by rewrite session_eta.
    - rewrite check_achievement_cons.
      destruct (negb (bool_decide (a_title c ∈ ach s1)) && a_cond c s1).
      + destruct (IH (with_total_xp (total_xp s1 + a_xp c)
                        (with_ach ({[a_title c]} ∪ ach s1) s1))
                     (n1 ++ [(a_title c, a_xp c)])) as (x & u & -> & Hu).
        exists x, u. split; [done|]. simpl in Hu. set_solver.
      + apply IH. }
  destruct Hrest as (x & u & -> & Hu).
  destruct Hb as [Hb|Hb].
  - left. simpl. set_solver.
  - right. rewrite Hign by apply list_elem_of_here. done.
Qed.

(** A second pass right after a pass changes nothing and announces
    nothing. *)
Lemma check_achievements_in_idempotent (s : session) :
  check_achievements_in catalog (check_achievements_in catalog s).1
  = ((check_achievements_in catalog s).1, []).
Proof.
  apply check_achievements_in_settled. intros a Ha.
  by apply check_achievements_in_settles.
Qed.

End Catalog.

Lemma ACHIEVEMENTS_ignore_rewards (a : achievement) (x : Z) (u : gset string)
    (s : session) :
  a ∈ ACHIEVEMENTS → a_cond a (with_total_xp x (with_ach u s)) = a_cond a s.
Proof.
  unfold ACHIEVEMENTS. intros H.
  repeat (apply elem_of_cons in H as [->|H]; [reflexivity|]).
  by apply elem_of_nil in H.
Qed.

Lemma check_achievements_spec (s : session) :
  ∃ newly,
    check_achievements s =
      (with_total_xp (total_xp s + quoted_xp newly)
         (with_ach (ach s ∪ list_to_set newly.*1) s), newly)
    ∧ NoDup newly.*1
    ∧ (∀ t, t ∈ newly.*1 → t ∉ ach s)
    ∧ (∀ p, p ∈ newly → ∃ a, a ∈ ACHIEVEMENTS ∧ a_title a = p.1 ∧ a_xp a = p.2).
Proof. apply check_achievements_in_spec. Qed.

Lemma check_achievements_idempotent (s : session) :
  check_achievements (check_achievements s).1 = ((check_achievements s).1, []).
Proof.
  apply check_achievements_in_idempotent. intros. by apply ACHIEVEMENTS_ignore_rewards.
Qed.

Lemma quoted_xp_nonneg (newly : list (string * Z)) :
  (∀ p, p ∈ newly → ∃ a, a ∈ ACHIEVEMENTS ∧ a_title a = p.1 ∧ a_xp a = p.2) →
  0 ≤ quoted_xp newly.
Proof.
  induction newly as [|p l IH]; intros H; simpl; [done|].
  assert (0 ≤ p.2).
  { destruct (H p (list_elem_of_here _ _)) as (a & Ha & _ & <-).
    unfold ACHIEVEMENTS in Ha.
    repeat (apply elem_of_cons in Ha as [->|Ha]; [simpl; lia|]).
    by apply elem_of_nil in Ha. }
  assert (0 ≤ quoted_xp l); [|lia].
  apply IH. intros q Hq. apply H. by apply list_elem_of_further.
Qed.

(** ** What the operations leave alone *)

Lemma update_quests_frame (today : Z) (key : string) (inc : Z) (hi : bool)
    (s : session) :
  ∃ d w, update_quests today key inc hi s
         = with_quests_weekly_progress w (with_quests_daily_progress d s).
Proof.
  exists (quests_daily_progress (update_quests today key inc hi s)),
         (quests_weekly_progress (update_quests today key inc hi s)).
  destruct s. unfold update_quests. simpl. repeat case_match; reflexivity.
Qed.

(** C7. An increment of a quest counter. When the stored daily reset date
    is not today, the daily counters are zeroed and today is stamped before
    the increment is applied: the named counter ends at the increment, every
    other daily counter at zero; otherwise the named counter grows by the
    increment and the others keep their value. The weekly counters are
    zeroed, and the week restarted today, when 7 days or more have passed
    since the stored week start, and only then: with fewer days they keep
    their values and their start. The key of the quiz completion event
    ("daily_quizzes") is mirrored into the weekly quiz counter, and also
    adds one to the weekly 80%+ counter when the high-accuracy flag is set;
    no other key touches the weekly counters. The gate passes that flag as
    the accuracy being 80 or more. *)
Theorem update_quests_windows (today : Z) (key : string) (inc : Z)
    (is_80plus : bool) (s : session) :
  let d := quests_daily_progress s in
  let w := quests_weekly_progress s in
  let d' := quests_daily_progress (update_quests today key inc is_80plus s) in
  let w' := quests_weekly_progress (update_quests today key inc is_80plus s) in
  (reset_date d ≠ Some today →
     reset_date d' = Some today
     ∧ daily_get d' key = inc
     ∧ ∀ k, k ≠ key → daily_get d' k = 0)
  ∧ (reset_date d = Some today →
     reset_date d' = Some today
     ∧ daily_get d' key = daily_get d key + inc
     ∧ ∀ k, k ≠ key → counters d' !! k = counters d !! k)
  ∧ (∀ ws, week_start w = Some ws → 7 ≤ today - ws →
       week_start w' = Some today
       ∧ weekly_quizzes w' = mirrored key inc
       ∧ weekly_80plus w' = high_accuracy key is_80plus)
  ∧ (∀ ws, week_start w = Some ws → today - ws < 7 →
       week_start w' = Some ws
       ∧ weekly_quizzes w' = weekly_quizzes w + mirrored key inc
       ∧ weekly_80plus w' = weekly_80plus w + high_accuracy key is_80plus)
  ∧ (mirrored "daily_quizzes" inc = inc
     ∧ high_accuracy "daily_quizzes" is_80plus = (if is_80plus then 1 else 0)
     ∧ (key ≠ "daily_quizzes"%string →
        mirrored key inc = 0 ∧ high_accuracy key is_80plus = 0))
  ∧ (∀ now s0,
       quiz_map_total_questions s0 ≤ quiz_map_qindex s0 →
       quiz_map_done s0 = false →
       let flag := Qle_bool 80 (accuracy_of (quiz_map_correct s0)
                                  (quiz_map_total_questions s0)) in
       let s1 := after_gate (check_completion_gate now s0) in
       let s2 := update_quests (utc_today now) "daily_quizzes" 1 flag s0 in
       quests_daily_progress s1 = quests_daily_progress s2
       ∧ quests_weekly_progress s1 = quests_weekly_progress s2).
Proof.
  intros d w d' w'. subst d' w'.
  rewrite update_quests_daily, update_quests_weekly. fold d w.
  split; [|split; [|split; [|split; [|split]]]].
  - intros Hne. rewrite bool_decide_eq_true_2 by done. cbn zeta.
    split; [done|]. unfold daily_get at 1. cbn [counters].
    split.
    + rewrite lookup_insert_eq. simpl. rewrite daily_get_fresh. lia.
    + intros k Hk. unfold daily_get. cbn [counters].
      rewrite lookup_insert_ne by done. apply daily_get_fresh.
  - intros He. rewrite bool_decide_eq_false_2 by (by intros ?). cbn zeta.
    split; [done|]. unfold daily_get at 1. cbn [counters].
    split.
    + by rewrite lookup_insert_eq.
    + intros k Hk. by rewrite lookup_insert_ne.
  - intros ws -> Hd. rewrite bool_decide_eq_true_2 by done. simpl.
    repeat split; lia.
  - intros ws Hw Hd. rewrite Hw, bool_decide_eq_false_2 by lia. simpl.
    by rewrite Hw.
  - unfold mirrored, high_accuracy. split; [done|]. split; [by destruct is_80plus|].
    intros Hk. by rewrite bool_decide_eq_false_2.
  - clear. intros now s0 Hq Hd flag s1 s2. subst s1 s2.
    unfold check_completion_gate.
    rewrite bool_decide_eq_true_2, Hd by done. cbn [andb negb].
    fold flag.
    set (q := with_last_quiz_pct _ s0).
    assert (Hq1 : quests_daily_progress (update_quests (utc_today now) "daily_quizzes" 1 flag q)
                  = quests_daily_progress (update_quests (utc_today now) "daily_quizzes" 1 flag s0)).
    { by rewrite !update_quests_daily. }
    assert (Hq2 : quests_weekly_progress (update_quests (utc_today now) "daily_quizzes" 1 flag q)
                  = quests_weekly_progress (update_quests (utc_today now) "daily_quizzes" 1 flag s0)).
    { by rewrite !update_quests_weekly. }
    rewrite <- Hq1, <- Hq2. clear Hq1 Hq2.
    generalize (update_quests (utc_today now) "daily_quizzes" 1 flag q). intros u.
    destruct flag.
    + match goal with |- context [check_achievements ?x] =>
        destruct (check_achievements_spec x) as (newly & -> & _) end.
      done.
    + match goal with |- context [check_achievements ?x] =>
        destruct (check_achievements_spec x) as (newly & -> & _) end.
      done.
Qed.

(** A quiz completed on day 100 with 80%+: the daily counters were last
    reset on day 99, the week started on day 95. *)
Lemma update_quests_windows_witness :
  let d' := quests_daily_progress (update_quests 100 "daily_quizzes" 1 true stale_quests) in
  let w' := quests_weekly_progress (update_quests 100 "daily_quizzes" 1 true stale_quests) in
  (reset_date d' = Some 100 ∧ daily_get d' "daily_quizzes" = 1
   ∧ ∀ k, k ≠ "daily_quizzes"%string → daily_get d' k = 0)
  ∧ (week_start w' = Some 95 ∧ weekly_quizzes w' = 4 + 1 ∧ weekly_80plus w' = 2 + 1).
Proof.
  split.
  - apply (proj1 (update_quests_windows 100 "daily_quizzes" 1 true stale_quests)).
    by vm_compute.
  - apply (proj1 (proj2 (proj2 (proj2
             (update_quests_windows 100 "daily_quizzes" 1 true stale_quests)))) 95);
      [reflexivity|lia].
Defined.

(** ** The adventure track *)

Lemma apply_answer_and_move_track (today : Z) (is_correct : bool) (qidx : Z)
    (s : session) :
  quiz_map_position (apply_answer_and_move today is_correct qidx s)
  = (if is_correct
     then Z.min (quiz_map_position s + 1) (quiz_map_total_questions s + 1)
     else Z.max (quiz_map_position s - 1) 0)
  ∧ quiz_map_total_questions (apply_answer_and_move today is_correct qidx s)
    = quiz_map_total_questions s.
Proof.
  unfold apply_answer_and_move. destruct is_correct.
  - quests_frame_by update_quests_frame. simpl. done.
  - simpl. split; [lia|done].
Qed.

(** C3. On a track of [T] questions, from any position on the track, every
    sequence of answers keeps the position between 0 and the finish tile
    [T + 1] after each submission: a correct answer moves it to
    [min (position + 1) (T + 1)], an incorrect one to
    [max (position - 1) 0]. *)
Theorem position_stays_on_track (T : Z) (s : session)
    (subs : list (Z * bool * Z)) :
  0 ≤ T →
  quiz_map_total_questions s = T →
  0 ≤ quiz_map_position s ≤ T + 1 →
  (∀ n : nat, 0 ≤ quiz_map_position (submit_all (take n subs) s) ≤ T + 1)
  ∧ (∀ today qidx,
       quiz_map_position (apply_answer_and_move today true qidx s)
       = Z.min (quiz_map_position s + 1) (T + 1)
       ∧ quiz_map_position (apply_answer_and_move today false qidx s)
         = Z.max (quiz_map_position s - 1) 0).
Proof.
  intros HT Htot Hpos. split.
  - intros n. generalize (take n subs). clear subs n. intros subs.
    revert s Htot Hpos. induction subs as [|[[today ok] qidx] subs IH];
      intros s Htot Hpos; [done|].
    change (submit_all ((today, ok, qidx) :: subs) s)
      with (submit_all subs (apply_answer_and_move today ok qidx s)).
    destruct (apply_answer_and_move_track today ok qidx s) as [Hp Ht].
    apply IH; [congruence|]. rewrite Hp, Htot. destruct ok; lia.
  - intros today qidx. subst T.
    split; apply apply_answer_and_move_track.
Qed.

(** Seven correct answers in a row on a track of three questions, then five
    wrong ones. *)
Lemma position_stays_on_track_witness :
  let s := start_quiz three_of_five (init_state 10) in
  let wins := replicate 7 (10, true, 0) in
  let losses := replicate 5 (10, false, 0) in
  (∀ n : nat, 0 ≤ quiz_map_position (submit_all (take n (wins ++ losses)) s) ≤ 3 + 1)
  ∧ quiz_map_position (submit_all wins s) = 4
  ∧ quiz_map_position (submit_all (wins ++ losses) s) = 0.
Proof.
  split; [|by vm_compute].
  apply (position_stays_on_track 3 (start_quiz three_of_five (init_state 10))).
  - lia.
  - by vm_compute.
  - by vm_compute.
Defined.

(** ** The 80% gate *)

Lemma accuracy_of_eq (c t : Z) :
  (accuracy_of c t == (100 * c) # Z.to_pos (Z.max 1 t))%Q.
Proof.
  unfold accuracy_of, Qdiv.
  destruct (Z.max 1 t) as [|p|p] eqn:E; [lia| |lia].
  unfold Qeq. simpl. lia.
Qed.

Lemma gate_threshold (c t : Z) :
  Qle_bool 80 (accuracy_of c t) = true ↔ 80 * Z.max 1 t ≤ 100 * c.
Proof.
  rewrite Qle_bool_iff, accuracy_of_eq. unfold Qle. simpl.
  rewrite Z2Pos.id by lia. lia.
Qed.

(** C1. For a finished attempt that is not settled yet, with [T] questions
    and [C] correct answers, the gate computes the accuracy
    [100 * C / max 1 T] (the denominator is at least 1, also for [T = 0])
    and passes exactly when it is 80 or more, that is when
    [80 * max 1 T <= 100 * C]. On a pass it marks the attempt complete, adds
    1 credit and 5 coins, and adds 25 XP (on top of the XP quoted by the
    achievements this very settlement announces) and a history record. On a
    failure the attempt stays incomplete, no credit, coin or completion XP is
    given, and a history record is appended all the same. So 4 of 5 passes
    and 3 of 5 fails. *)
Theorem check_completion_gate_settles (now : clock) (s : session) :
  quiz_map_total_questions s ≤ quiz_map_qindex s →
  quiz_map_done s = false →
  let T := quiz_map_total_questions s in
  let C := quiz_map_correct s in
  let r := check_completion_gate now s in
  let s' := after_gate r in
  (last_quiz_pct s' == (100 * C) # Z.to_pos (Z.max 1 T))%Q
  ∧ (Z.pos (Z.to_pos (Z.max 1 T)) = Z.max 1 T ∧ 1 ≤ Z.max 1 T)
  ∧ (T ≤ 0 → (last_quiz_pct s' == 100 * C # 1)%Q)
  ∧ ((verdict r).1 = true ↔ (80 <= last_quiz_pct s')%Q)
  ∧ ((verdict r).1 = true ↔ 80 * Z.max 1 T ≤ 100 * C)
  ∧ ((verdict r).1 = true →
       (verdict r).2 = GreatJob (last_quiz_pct s')
       ∧ quiz_map_done s' = true
       ∧ quiz_map_anim s' = celebrate
       ∧ total_xp s' = total_xp s + 25 + quoted_xp (announced r)
       ∧ game_credits s' = game_credits s + 1
       ∧ coins s' = coins s + 5
       ∧ history s' = history s ++ [attempt_record now s (25 + 5 * C)])
  ∧ ((verdict r).1 = false →
       (verdict r).2 = NeedAtLeast80 (last_quiz_pct s')
       ∧ quiz_map_done s' = false
       ∧ total_xp s' = total_xp s + quoted_xp (announced r)
       ∧ game_credits s' = game_credits s
       ∧ coins s' = coins s
       ∧ history s' = history s ++ [attempt_record now s (5 * C)])
  ∧ (T = 5 → C = 4 → (verdict r).1 = true)
  ∧ (T = 5 → C = 3 → (verdict r).1 = false).
Proof.
  intros Hq Hd T C r s'.
  assert (Hth := gate_threshold C T).
  assert (Hacc := accuracy_of_eq C T).
  subst s' r. unfold check_completion_gate.
  rewrite bool_decide_eq_true_2, Hd by done. cbn [andb negb].
  fold T C. set (acc := accuracy_of C T) in *.
  quests_frame_by update_quests_frame.
  destruct (Qle_bool 80 acc) eqn:Hpass;
    match goal with |- context [check_achievements ?x] =>
      destruct (check_achievements_spec x) as (newly & -> & _) end;
    cbn -[Z.mul Z.add Z.max Z.to_pos Qle Qeq].
  - split; [done|]. split; [lia|].
    split; [intros HT; rewrite Hacc; by replace (Z.max 1 T) with 1 by lia|].
    split; [by rewrite <- Qle_bool_iff|].
    split; [split; [intros _; by apply Hth|done]|].
    split; [intros _; repeat split; solve [done|lia]|].
    split; [done|].
    split; [done|]. intros -> ->. exfalso.
    assert (80 * Z.max 1 5 ≤ 100 * 3) by (by apply Hth). lia.
  - split; [done|]. split; [lia|].
    split; [intros HT; rewrite Hacc; by replace (Z.max 1 T) with 1 by lia|].
    split; [rewrite <- Qle_bool_iff, Hpass; done|].
    split; [split; [done|intros H; apply Hth in H; congruence]|].
    split; [done|].
    split; [intros _; repeat split; solve [done|lia]|].
    split; [|done]. intros -> ->. exfalso.
    assert (false = true) by (apply Hth; lia). done.
Qed.

(** 4 of 5 and 3 of 5, in a session opened the same day. *)
Lemma check_completion_gate_settles_witness :
  ((verdict (check_completion_gate noon four_of_five)).1 = true
   ∧ quiz_map_done (after_gate (check_completion_gate noon four_of_five)) = true
   ∧ total_xp (after_gate (check_completion_gate noon four_of_five))
     = total_xp four_of_five + 25
       + quoted_xp (announced (check_completion_gate noon four_of_five))
   ∧ game_credits (after_gate (check_completion_gate noon four_of_five))
     = game_credits four_of_five + 1
   ∧ coins (after_gate (check_completion_gate noon four_of_five))
     = coins four_of_five + 5)
  ∧ ((verdict (check_completion_gate noon three_of_five_correct)).1 = false
     ∧ quiz_map_done (after_gate (check_completion_gate noon three_of_five_correct)) = false
     ∧ history (after_gate (check_completion_gate noon three_of_five_correct))
       = history three_of_five_correct
         ++ [attempt_record noon three_of_five_correct
               (5 * quiz_map_correct three_of_five_correct)]).
Proof.
  split.
  - destruct (check_completion_gate_settles noon four_of_five)
      as (_ & _ & _ & _ & _ & Hpass & _ & H45 & _); [by vm_compute|by vm_compute|].
    assert (Hv := H45 ltac:(by vm_compute) ltac:(by vm_compute)).
    destruct (Hpass Hv) as (_ & Hdone & _ & Hxp & Hcred & Hcoins & _).
    exact (conj Hv (conj Hdone (conj Hxp (conj Hcred Hcoins)))).
  - destruct (check_completion_gate_settles noon three_of_five_correct)
      as (_ & _ & _ & _ & _ & _ & Hfail & _ & H35); [by vm_compute|by vm_compute|].
    assert (Hv := H35 ltac:(by vm_compute) ltac:(by vm_compute)).
    destruct (Hfail Hv) as (_ & Hdone & _ & _ & _ & Hhist).
    exact (conj Hv (conj Hdone Hhist)).
Defined.

(** ** Settling twice *)

(** X4. After a pass the gate is closed: a second call returns [(False, "")]
    and changes nothing. *)
Lemma gate_closed_after_pass (now later : clock) (s : session) :
  (verdict (check_completion_gate now s)).1 = true →
  check_completion_gate later (after_gate (check_completion_gate now s))
  = GateOutcome (after_gate (check_completion_gate now s)) [] (false, NoMessage).
Proof.
  unfold check_completion_gate at 1 3 4.
  destruct (bool_decide (quiz_map_total_questions s ≤ quiz_map_qindex s)
            && negb (quiz_map_done s)); [|done].
  quests_frame_by update_quests_frame.
  destruct (Qle_bool 80 _);
    match goal with |- context [check_achievements ?x] =>
      destruct (check_achievements_spec x) as (newly & -> & _) end;
    [|done].
  intros _. unfold check_completion_gate. cbn [after_gate].
  by rewrite andb_false_r.
Qed.

(** C2, at a failed attempt (3 of 5): the attempt stays open, so the second
    call settles it again. It appends the same history record once more,
    counts one more quiz in the lifetime count, the progress table and the
    daily and weekly quest counters; the fifth call even unlocks
    "Warming Up" and pays its 50 XP. *)
Theorem gate_settles_failed_attempt_again :
  let s0 := three_of_five_correct in
  let s1 := gate_times 1 noon s0 in
  let s2 := gate_times 2 noon s0 in
  let s5 := gate_times 5 noon s0 in
  (verdict (check_completion_gate noon s0)).1 = false
  ∧ quiz_map_done s1 = false
  ∧ history s1 = [attempt_record noon s0 15]
  ∧ history s2 = [attempt_record noon s0 15; attempt_record noon s0 15]
  ∧ (quiz_count s1 = 1 ∧ quiz_count s2 = 2)
  ∧ (daily_get (quests_daily_progress s1) "daily_quizzes" = 1
     ∧ daily_get (quests_daily_progress s2) "daily_quizzes" = 2)
  ∧ (weekly_quizzes (quests_weekly_progress s1) = 1
     ∧ weekly_quizzes (quests_weekly_progress s2) = 2)
  ∧ (progress s1 !! "Physics"%string ≫= (.!! "Motion"%string) = Some (Tally 3 5)
     ∧ progress s2 !! "Physics"%string ≫= (.!! "Motion"%string) = Some (Tally 6 10))
  ∧ (total_xp s1 = 25 ∧ total_xp s5 = 75 ∧ quiz_count s5 = 5).
Proof. by vm_compute. Qed.

(** ** XP and unlocked achievements along a session *)

Lemma quiet_refl (s : session) : quiet s s.
Proof. by split. Qed.

Lemma quiet_trans (s1 s2 s3 : session) : quiet s1 s2 → quiet s2 s3 → quiet s1 s3.
Proof. intros [? ?] [? ?]. split; [congruence|lia]. Qed.

Lemma touch_daily_streak_quiet (today : Z) (s : session) :
  quiet s (touch_daily_streak today s).
Proof.
  unfold touch_daily_streak.
  destruct (last_active_date s); repeat case_bool_decide; by split.
Qed.

Lemma update_quests_quiet (today : Z) (key : string) (inc : Z) (hi : bool)
    (s : session) :
  quiet s (update_quests today key inc hi s).
Proof. quests_frame_by update_quests_frame. by split. Qed.

Lemma grant_quest_rewards_quiet (ids : list string) (s : session) :
  quiet s (grant_quest_rewards ids s).
Proof.
  unfold grant_quest_rewards, DAILY_QUESTS, WEEKLY_QUESTS. simpl.
  repeat case_bool_decide; split; simpl; solve [done|lia].
Qed.

Lemma apply_answer_and_move_quiet (today : Z) (ok : bool) (qidx : Z)
    (s : session) :
  quiet s (apply_answer_and_move today ok qidx s).
Proof.
  unfold apply_answer_and_move. destruct ok.
  - quests_frame_by update_quests_frame. split; simpl; [done|lia].
  - by split.
Qed.

Lemma start_quiz_quiet (t : text) (s : session) : quiet s (start_quiz t s).
Proof. by split. Qed.

Lemma retry_quiz_quiet (s : session) : quiet s (retry_quiz s).
Proof. by split. Qed.

Lemma answer_click_quiet (today i : Z) (s : session) :
  quiet s (answer_click today i s).
Proof.
  unfold answer_click. case_bool_decide; [|apply quiet_refl].
  destruct (quiz_items s !! _); [|apply quiet_refl].
  case_bool_decide; [|apply quiet_refl].
  eapply quiet_trans; [|apply apply_answer_and_move_quiet]. by split.
Qed.

Lemma claim_quests_quiet (cur : string → Z) (mark : Z) (quests : list quest)
    (s : session) :
  quiet s (claim_quests cur mark quests s).1.
Proof.
  unfold claim_quests. generalize (@nil string).
  revert s. induction quests as [|q quests IH]; intros s l; [apply quiet_refl|].
  change (foldl (claim_quest cur mark) (s, l) (q :: quests))
    with (foldl (claim_quest cur mark) (claim_quest cur mark (s, l) q) quests).
  unfold claim_quest at 2.
  destruct (bool_decide (q_target q ≤ cur (q_key q))
            && negb (bool_decide ((q_id q, mark) ∈ quest_done s))).
  - eapply quiet_trans; [|apply IH]. by split.
  - apply IH.
Qed.

Lemma quest_progress_view_quiet (today : Z) (s : session) :
  quiet s (quest_progress_view today s).
Proof.
  unfold quest_progress_view.
  pose proof (claim_quests_quiet (daily_get (quests_daily_progress s)) today
                DAILY_QUESTS s) as H1.
  destruct (claim_quests _ today DAILY_QUESTS s) as [s1 c1]. simpl in H1.
  set (s2 := if bool_decide (c1 ≠ []) then grant_quest_rewards c1 s1 else s1).
  assert (H2 : quiet s s2).
  { subst s2. case_bool_decide; [|done].
    eapply quiet_trans; [done|apply grant_quest_rewards_quiet]. }
  pose proof (claim_quests_quiet (weekly_get (quests_weekly_progress s))
                (default today (week_start (quests_weekly_progress s)))
                WEEKLY_QUESTS s2) as H3.
  destruct (claim_quests _ _ WEEKLY_QUESTS s2) as [s3 c3]. simpl in H3.
  case_bool_decide.
  - eapply quiet_trans; [|apply grant_quest_rewards_quiet].
    by eapply quiet_trans.
  - by eapply quiet_trans.
Qed.

Lemma sudoku_start_quiet (s : session) : quiet s (sudoku_start s).
Proof. unfold sudoku_start. by destruct (_ && _). Qed.

Lemma sudoku_check_quiet (solved : bool) (s : session) :
  quiet s (sudoku_check solved s).
Proof.
  unfold sudoku_check. destruct (_ && _); split; simpl; solve [done|lia].
Qed.

Lemma buy_quiet (it : shop_item) (s : session) : quiet s (buy it s).
Proof.
  unfold buy. case_bool_decide; [|apply quiet_refl]. by destruct (i_value it).
Qed.

Lemma quiet_pays_new (s s' : session) : quiet s s' → pays_new s (s', []).
Proof.
  intros [Ha Hx]. split; [simpl; by rewrite Ha, union_empty_r_L|].
  split; [constructor|].
  split; [intros t Ht; by apply elem_of_nil in Ht|].
  split; [intros p Hp; by apply elem_of_nil in Hp|simpl; lia].
Qed.

Lemma check_achievements_pays_new (s : session) :
  pays_new s (check_achievements s).
Proof.
  destruct (check_achievements_spec s) as (newly & -> & Hnd & Hfresh & Hrows).
  split; [done|]. split; [done|]. split; [done|]. split; [done|]. simpl. lia.
Qed.

Lemma check_completion_gate_pays_new (now : clock) (s : session) :
  pays_new s (after_gate (check_completion_gate now s),
              announced (check_completion_gate now s)).
Proof.
  unfold check_completion_gate.
  destruct (bool_decide (quiz_map_total_questions s ≤ quiz_map_qindex s)
            && negb (quiz_map_done s)); [|apply quiet_pays_new, quiet_refl].
  quests_frame_by update_quests_frame.
  destruct (Qle_bool 80 _);
    match goal with |- context [check_achievements ?x] =>
      destruct (check_achievements_spec x) as (newly & -> & Hnd & Hfresh & Hrows) end;
    repeat split; try done; simpl; lia.
Qed.

Lemma step_pays_new (now : clock) (o : op) (s : session) :
  pays_new s (step now o s).
Proof.
  destruct o; unfold step.
  - apply quiet_pays_new, touch_daily_streak_quiet.
  - apply quiet_pays_new, update_quests_quiet.
  - apply quiet_pays_new, grant_quest_rewards_quiet.
  - apply check_achievements_pays_new.
  - apply quiet_pays_new, apply_answer_and_move_quiet.
  - apply check_completion_gate_pays_new.
  - apply quiet_pays_new, start_quiz_quiet.
  - apply quiet_pays_new, answer_click_quiet.
  - apply quiet_pays_new, retry_quiz_quiet.
  - apply quiet_pays_new, quest_progress_view_quiet.
  - apply quiet_pays_new, sudoku_start_quiet.
  - apply quiet_pays_new, sudoku_check_quiet.
  - apply quiet_pays_new, buy_quiet.
Qed.

Lemma run_session_pays_new (ops : list (clock * op)) (s : session) :
  pays_new s (run_session ops s).
Proof.
  revert s. induction ops as [|[now o] ops IH]; intros s.
  { apply quiet_pays_new, quiet_refl. }
  cbn [run_session]. pose proof (step_pays_new now o s) as H1.
  destruct (step now o s) as [s1 n1].
  pose proof (IH s1) as H2. destruct (run_session ops s1) as [s2 n2].
  destruct H1 as (Ha1 & Hd1 & Hf1 & Hr1 & Hx1).
  destruct H2 as (Ha2 & Hd2 & Hf2 & Hr2 & Hx2). simpl in *.
  split; [|split; [|split; [|split]]]; simpl.
  - rewrite Ha2, Ha1, fmap_app, list_to_set_app_L. by rewrite (assoc_L (∪)).
  - rewrite fmap_app. apply NoDup_app. split; [done|]. split; [|done].
    intros t Ht1 Ht2. apply Hf2 in Ht2. apply Ht2. rewrite Ha1.
    apply elem_of_union_r. by apply elem_of_list_to_set.
  - intros t. rewrite fmap_app. intros [Ht|Ht]%elem_of_app; [by apply Hf1|].
    apply Hf2 in Ht. intros Hin. apply Ht. rewrite Ha1. by apply elem_of_union_l.
  - intros p [Hp|Hp]%elem_of_app; [by apply Hr1|by apply Hr2].
  - rewrite quoted_xp_app. lia.
Qed.

Lemma recheck_settled (n : nat) (s : session) :
  recheck n (check_achievements s).1 = (check_achievements s).1.
Proof.
  induction n as [|n IH]; [done|].
  cbn [recheck]. by rewrite check_achievements_idempotent.
Qed.

(** C8. Along any session, whatever the operations and their order: the
    set of unlocked achievements only grows; an achievement is announced
    (and paid) only when it passes from locked to unlocked, so none is
    announced twice in the session. One evaluation pays exactly the XP its
    announcements quote, each the reward of a row of the catalog, and
    unlocks exactly the announced titles; an achievement that is already
    unlocked is not announced; and evaluating again, any number of times,
    right after an evaluation changes nothing and announces nothing. *)
Theorem achievements_pay_once :
  (∀ (ops : list (clock * op)) (s : session),
     ach s ⊆ ach (run_session ops s).1
     ∧ NoDup (run_session ops s).2.*1
     ∧ (∀ t, t ∈ (run_session ops s).2.*1 →
             (t ∉ ach s) ∧ (t ∈ ach (run_session ops s).1)))
  ∧ (∀ s : session,
       total_xp (check_achievements s).1
       = total_xp s + quoted_xp (check_achievements s).2
       ∧ ach (check_achievements s).1
         = ach s ∪ list_to_set (check_achievements s).2.*1
       ∧ NoDup (check_achievements s).2.*1
       ∧ (∀ p, p ∈ (check_achievements s).2 →
               ∃ a, a ∈ ACHIEVEMENTS ∧ a_title a = p.1 ∧ a_xp a = p.2))
  ∧ (∀ (s : session) (t : string),
       t ∈ ach s → t ∉ (check_achievements s).2.*1)
  ∧ (∀ s : session,
       check_achievements (check_achievements s).1
       = ((check_achievements s).1, []))
  ∧ (∀ (s : session) (n : nat),
       recheck n (check_achievements s).1 = (check_achievements s).1).
Proof.
  split; [|split; [|split; [|split]]].
  - intros ops s.
    destruct (run_session_pays_new ops s) as (Ha & Hd & Hf & _ & _).
    split; [rewrite Ha; apply union_subseteq_l|]. split; [done|].
    intros t Ht. split; [by apply Hf|].
    rewrite Ha. apply elem_of_union_r. by apply elem_of_list_to_set.
  - intros s.
    destruct (check_achievements_spec s) as (newly & -> & Hnd & Hfresh & Hrows).
    by repeat split.
  - intros s t Ht Hin.
    destruct (check_achievements_spec s) as (newly & E & _ & Hfresh & _).
    rewrite E in Hin. by apply Hfresh in Hin.
  - apply check_achievements_idempotent.
  - intros s n. apply recheck_settled.
Qed.

(** A pass of the gate followed by two more evaluations and a second call
    of the gate: "First Steps" is announced once. *)
Lemma achievements_pay_once_witness :
  (run_session pass_then_recheck four_of_five).2 = [("First Steps"%string, 25)]
  ∧ NoDup (run_session pass_then_recheck four_of_five).2.*1.
Proof.
  split; [by vm_compute|].
  apply (proj1 achievements_pay_once pass_then_recheck four_of_five).
Defined.

(** C9. No operation of the engine lowers [total_xp], so it never decreases
    along a session; and the level and rank shown are computed from
    [total_xp] alone each time they are needed (the session state has no
    field for them): sessions with the same XP show the same rank and
    level. *)
Theorem total_xp_never_decreases :
  (∀ (now : clock) (o : op) (s : session),
     total_xp s ≤ total_xp (step now o s).1)
  ∧ (∀ (ops : list (clock * op)) (s : session),
       total_xp s ≤ total_xp (run_session ops s).1)
  ∧ (∀ s : session,
       format_rank_level s = (compute_rank (total_xp s), compute_level (total_xp s)))
  ∧ (∀ s1 s2 : session,
       total_xp s1 = total_xp s2 → format_rank_level s1 = format_rank_level s2).
Proof.
  assert (Hnn : ∀ s r, pays_new s r → total_xp s ≤ total_xp r.1).
  { intros s r (_ & _ & _ & Hrows & Hx).
    pose proof (quoted_xp_nonneg _ Hrows). lia. }
  split; [|split; [|split]].
  - intros now o s. apply Hnn, step_pays_new.
  - intros ops s. apply Hnn, run_session_pays_new.
  - done.
  - intros s1 s2 H. unfold format_rank_level. by rewrite H.
Qed.

(** A day of use: three correct answers, a pass, the daily quest, a Sudoku
    win and a purchase. *)
Lemma total_xp_never_decreases_witness :
  total_xp (init_state 100) ≤ total_xp (run_session busy_day (init_state 100)).1
  ∧ format_rank_level (run_session busy_day (init_state 100)).1
    = format_rank_level (with_total_xp 145 (init_state 100)).
Proof.
  split.
  - apply (proj1 (proj2 total_xp_never_decreases) busy_day (init_state 100)).
  - apply (proj2 (proj2 (proj2 total_xp_never_decreases))). by vm_compute.
Defined.

(** ** Every record of the parser is playable *)

Lemma fmap_Some_inv {A B} (f : A → B) (o : option A) (y : B) :
  f <$> o = Some y → ∃ x, o = Some x ∧ y = f x.
Proof. destruct o as [x|]; [|done]. intros [= <-]. by exists x. Qed.

(** The group of the correctness marker is one letter from A to C. *)
Lemma CORRECT_LINE_group (qb : text) (m : mres) :
  search CORRECT_LINE qb = Some m → ∃ c, group1 m = [c] ∧ A_to_C c = true.
Proof.
  intros H. apply search_from_inv in H as (a0 & p0 & s0 & _ & H).
  unfold CORRECT_LINE in H. cbn [run] in H.
  destruct (at_bol p0); [|done].
  apply greedy_inv in H as (a1 & p1 & s1 & _ & H). cbn [run] in H.
  destruct (eat _ s1) as [s2|]; [|done].
  apply greedy_inv in H as (a3 & p3 & s3 & _ & H). cbn [run] in H.
  apply fmap_Some_inv in H as (m1 & H & ->).
  destruct s3 as [|c s4]; [done|].
  destruct (A_to_C c) eqn:Ec; [|done].
  apply fmap_Some_inv in H as (m2 & H & ->).
  exists c. split; [|done].
  unfold group1. cbn [g_start g_end set_start set_end length].
  by replace (S (length s4) - length s4)%nat with 1%nat by lia.
Qed.

Lemma correct_key_letter (qb : text) :
  correct_key_of qb = py "A" ∨ correct_key_of qb = py "B"
  ∨ correct_key_of qb = py "C".
Proof.
  unfold correct_key_of. destruct (search CORRECT_LINE qb) as [m|] eqn:E; [|by left].
  destruct (CORRECT_LINE_group qb m E) as (c & -> & Hc).
  unfold A_to_C in Hc. apply andb_prop in Hc as [H1 H2].
  apply N.leb_le in H1, H2.
  assert (c = 65 ∨ c = 66 ∨ c = 67)%N as [->| [->| ->]] by lia; auto.
Qed.

Lemma parse_question_well_formed (qb : text) (it : item) :
  parse_question qb = Some it →
  question it ≠ []
  ∧ ∃ a b c, options it = [a; b; c] ∧ a ≠ [] ∧ b ≠ [] ∧ c ≠ []
             ∧ answer it ∈ [a; b; c].
Proof.
  intros H. apply parse_question_Some in H as (-> & Hq & Ha & Hb & Hc).
  split; [done|].
  exists (option_of "A" qb), (option_of "B" qb), (option_of "C" qb).
  repeat (split; [done|]). cbn [answer].
  destruct (dict_get_options qb) as (Ea & Eb & Ec).
  destruct (correct_key_letter qb) as [->| [->| ->]].
  - rewrite Ea. apply list_elem_of_here.
  - rewrite Eb. apply list_elem_of_further, list_elem_of_here.
  - rewrite Ec. do 2 apply list_elem_of_further. apply list_elem_of_here.
Qed.

(** X1. Whatever the text, each record the parser returns has a non-empty
    question, exactly three non-empty options, and for answer one of the
    three. *)
Theorem parsed_records_playable (t : text) (it : item) :
  it ∈ parse_quiz_block t →
  question it ≠ []
  ∧ ∃ a b c, options it = [a; b; c] ∧ a ≠ [] ∧ b ≠ [] ∧ c ≠ []
             ∧ answer it ∈ [a; b; c].
Proof.
  unfold parse_quiz_block. destruct (negb (nonempty t)).
  { intros H. by apply elem_of_nil in H. }
  destruct (search QUIZ_RE t) as [m|].
  - intros (qb & _ & H)%list_elem_of_omap. by apply parse_question_well_formed in H.
  - intros H. by apply elem_of_nil in H.
Qed.

Lemma parsed_records_playable_witness :
  ∃ a b c, options (Item (py "Speed is?")
                      [py "distance/time"; py "time/distance"; py "mass"]
                      (py "distance/time") [] [] None) = [a; b; c]
           ∧ a ≠ [] ∧ b ≠ [] ∧ c ≠ []
           ∧ py "distance/time" ∈ [a; b; c].
Proof.
  apply (parsed_records_playable three_of_five
           (Item (py "Speed is?")
              [py "distance/time"; py "time/distance"; py "mass"]
              (py "distance/time") [] [] None)).
  replace (parse_quiz_block three_of_five) with three_records by (by vm_compute).
  do 2 apply list_elem_of_further. apply list_elem_of_here.
Defined.

Lemma omap_length_le {A B} (f : A → option B) (l : list A) :
  (length (omap f l) ≤ length l)%nat.
Proof.
  rewrite omap_length_filter. apply length_filter.
Qed.

Lemma validate_quiz_block_inv (t : text) :
  validate_quiz_block t = true →
  ∃ m, search QUIZ_RE t = Some m
       ∧ length (findall QUESTION_RE (group1 m)) = 5%nat
       ∧ Forall (λ qb, valid_block qb = true) (findall QUESTION_RE (group1 m)).
Proof.
  unfold validate_quiz_block.
  destruct (negb (nonempty t) || _ || _); [done|].
  destruct (search QUIZ_RE t) as [m|] eqn:E; [|done]. cbn zeta.
  destruct (length (findall QUESTION_RE (group1 m)) =? 5)%nat eqn:E5; [|done].
  apply Nat.eqb_eq in E5. simpl. intros Hall.
  exists m. split; [done|]. split; [done|].
  apply Forall_forall. intros qb Hqb. rewrite forallb_forall in Hall.
  apply Hall. by apply list_elem_of_In.
Qed.

(** X2. A text the strict validator accepts has exactly five question blocks,
    each passing the three checks, so the parser returns at most five
    records for it. *)
Theorem validated_quiz_has_five_blocks (t : text) :
  validate_quiz_block t = true →
  (∃ m, search QUIZ_RE t = Some m
        ∧ length (findall QUESTION_RE (group1 m)) = 5%nat
        ∧ Forall (λ qb, valid_block qb = true) (findall QUESTION_RE (group1 m)))
  ∧ (length (parse_quiz_block t) ≤ 5)%nat.
Proof.
  intros Hv. destruct (validate_quiz_block_inv t Hv) as (m & E & E5 & Hall).
  split; [by exists m|].
  rewrite (parse_quiz_block_blocks t m E), <- E5. apply omap_length_le.
Qed.

Lemma validated_quiz_has_five_blocks_witness :
  (length (parse_quiz_block blank_option_quiz) ≤ 5)%nat.
Proof.
  apply (validated_quiz_has_five_blocks blank_option_quiz). by vm_compute.
Defined.

(** ** When the validator and the parser agree *)

Section Lines.

Import Re.

(** [run], one atom at a time. *)
Lemma run_Bol r prev s :
  run (Bol :: r) prev s = if at_bol prev then run r prev s else None.
Proof. done. Qed.

Lemma run_Star c r prev s : run (Star c :: r) prev s = greedy c (run r) prev s.
Proof. done. Qed.

Lemma run_Lit l r prev s :
  run (Lit l :: r) prev s
  = match eat l s with Some s' => run r (after l prev) s' | None => None end.
Proof. done. Qed.

Lemma run_GOpen r prev s : run (GOpen :: r) prev s = set_start s <$> run r prev s.
Proof. done. Qed.

Lemma run_GClose r prev s : run (GClose :: r) prev s = set_end s <$> run r prev s.
Proof. done. Qed.

Lemma run_Plus c r prev x s :
  run (Plus c :: r) prev (x :: s)
  = if c x then greedy c (run r) (Some x) s else None.
Proof. done. Qed.

Lemma greedy_fallback c (k : conts) prev s :
  is_Some (k prev s) → is_Some (greedy c k prev s).
Proof.
  intros H. destruct s as [|x s]; simpl; [done|].
  destruct (c x); [|done]. by destruct (greedy c k (Some x) s).
Qed.

Lemma greedy_mono c (k1 k2 : conts) :
  (∀ prev s, is_Some (k1 prev s) → is_Some (k2 prev s)) →
  ∀ prev s, is_Some (greedy c k1 prev s) → is_Some (greedy c k2 prev s).
Proof.
  intros Hk prev s. revert prev. induction s as [|x s IH]; intros prev; simpl.
  { apply Hk. }
  destruct (c x); [|apply Hk].
  destruct (greedy c k1 (Some x) s) eqn:E1.
  - intros _. destruct (IH (Some x)) as [m2 ->]; [by rewrite E1|]. done.
  - intros H. destruct (greedy c k2 (Some x) s); [done|]. by apply Hk.
Qed.

Lemma after_cons (x : N) (l : text) (prev : option N) :
  after (x :: l) prev = after l (Some x).
Proof. unfold after. rewrite last_cons. by destruct (last l). Qed.

(** A greedy repetition gives the floor to the rest of the pattern after
    the longest run of its class, when the rest matches there. *)
Lemma greedy_at_max c (k : conts) (run_ rest : text) prev :
  Forall (λ x, c x = true) run_ →
  match rest with [] => True | y :: _ => c y = false end →
  is_Some (k (after run_ prev) rest) →
  greedy c k prev (run_ ++ rest) = k (after run_ prev) rest.
Proof.
  intros Hrun Hrest. revert prev.
  induction Hrun as [|x l Hx Hl IH]; intros prev Hk.
  - change (after [] prev) with prev in *. simpl.
    destruct rest as [|y rest]; simpl; [done|]. by rewrite Hrest.
  - rewrite after_cons in *. simpl. rewrite Hx.
    rewrite (IH (Some x) Hk). by destruct Hk as [m ->].
Qed.

(** The longest run of a class at the start of a text. *)
Lemma span_class (c : N → bool) (s : text) :
  ∃ run_ rest, s = run_ ++ rest ∧ Forall (λ x, c x = true) run_
               ∧ match rest with [] => True | y :: _ => c y = false end.
Proof.
  induction s as [|x s (r & rest & -> & Hr & Hrest)].
  - by exists [], [].
  - destruct (c x) eqn:E.
    + exists (x :: r), rest. by repeat split; [constructor|].
    + exists [], (x :: r ++ rest). by repeat split.
Qed.

Lemma not_space_dot (c : N) : is_space c = false → dot c = true.
Proof.
  unfold dot, is_newline, newline. destruct (N.eqb_spec c 10) as [->|]; [|done].
  by vm_compute.
Qed.

(** After one character that is no newline, the capturing tail of a line
    pattern always finds its end of line. *)
Lemma capture_tail_matches (prev : option N) (x : N) (s : text) :
  dot x = true →
  is_Some (run [GOpen; Plus dot; GClose; Star is_space; Eol] prev (x :: s)).
Proof.
  intros Hx. cbn [run]. rewrite Hx.
  destruct (span_class dot s) as (r & rest & -> & Hr & Hrest).
  rewrite greedy_at_max; [| done | done |].
  - apply fmap_is_Some, fmap_is_Some, greedy_fallback. cbn [run].
    replace (at_eol rest) with true; [done|].
    destruct rest as [|y rest]; [done|]. simpl. unfold dot in Hrest.
    by apply negb_false_iff in Hrest.
  - apply fmap_is_Some, greedy_fallback. cbn [run].
    replace (at_eol rest) with true; [done|].
    destruct rest as [|y rest]; [done|]. simpl. unfold dot in Hrest.
    by apply negb_false_iff in Hrest.
Qed.

Lemma checked_then_captured_here (label : text) (prev : option N) (s : text) :
  is_Some (run (CHECKED_LINE label) prev s) →
  is_Some (run (CAPTURED_LINE label) prev s).
Proof.
  unfold CHECKED_LINE, CAPTURED_LINE. cbn [run].
  destruct (at_bol prev); [|done].
  apply greedy_mono. clear prev s. intros prev s.
  destruct (eat label s) as [s'|]; [|done].
  apply greedy_mono. clear. intros prev s.
  destruct s as [|x s]; [done|]. intros H.
  assert (Hx : dot x = true) by (destruct (dot x); [done|by destruct H]).
  exact (capture_tail_matches prev x s Hx).
Qed.

Lemma checked_then_captured (label qb : text) :
  is_Some (search (CHECKED_LINE label) qb) →
  is_Some (search (CAPTURED_LINE label) qb).
Proof.
  unfold search. generalize (@None N).
  induction qb as [|x qb IH]; intros prev; cbn [search_from].
  - pose proof (checked_then_captured_here label prev []) as H.
    destruct (run (CHECKED_LINE label) prev []); [|by intros [? ?]].
    destruct H as [m2 ->]; done.
  - pose proof (checked_then_captured_here label prev (x :: qb)) as H.
    destruct (run (CHECKED_LINE label) prev (x :: qb)).
    + destruct H as [m2 ->]; done.
    + intros H'. destruct (run (CAPTURED_LINE label) prev (x :: qb)); [done|].
      by apply IH.
Qed.

(** [strip] keeps a text that holds a character that is no space. *)
Lemma lstrip_nil (s : text) : lstrip s = [] → Forall (λ x, is_space x = true) s.
Proof.
  induction s as [|x s IH]; simpl; [constructor|].
  destruct (is_space x) eqn:E; [|done]. intros H. constructor; auto.
Qed.

Lemma strip_nonblank (y : N) (s : text) :
  is_space y = false → strip (y :: s) ≠ [].
Proof.
  intros Hy. unfold strip, rstrip. simpl. rewrite Hy.
  intros H. apply (f_equal reverse) in H. rewrite reverse_involutive in H.
  change (reverse []) with (@nil N) in H.
  apply lstrip_nil in H. rewrite Forall_forall in H.
  rewrite (H y) in Hy; [done|]. apply elem_of_reverse, list_elem_of_here.
Qed.

Lemma lstrip_spaces (ws s : text) :
  Forall (λ x, is_space x = true) ws → lstrip (ws ++ s) = lstrip s.
Proof. induction 1 as [|x ws Hx _ IH]; simpl; [done|]. by rewrite Hx. Qed.

(** A text that is blank after a label ends, once stripped on the right,
    with that label. *)
Lemma rstrip_blank_after_label (pre label ws : text) (c : N) :
  last label = Some c → is_space c = false →
  Forall (λ x, is_space x = true) ws →
  rstrip (pre ++ label ++ ws) = pre ++ label.
Proof.
  intros Hlast Hc Hws. unfold rstrip.
  rewrite !reverse_app, <- !(assoc_L (++)).
  rewrite lstrip_spaces by (by apply Forall_reverse).
  apply last_Some in Hlast as (l' & ->).
  rewrite reverse_app. simpl. rewrite Hc.
  rewrite reverse_cons, reverse_app, !reverse_involutive.
  by rewrite <- (assoc_L (++)).
Qed.

(** What the parser's line pattern captures holds a character that is no
    space, unless the text is blank from the matched label to its end. *)
Lemma captured_nonblank (label qb : text) (c : N) :
  last label = Some c → is_space c = false →
  ¬ label `suffix_of` rstrip qb →
  is_Some (search (CAPTURED_LINE label) qb) →
  captured (CAPTURED_LINE label) qb ≠ [].
Proof.
  intros Hlast Hc Hsuf [m Hm]. unfold captured. rewrite Hm.
  apply search_from_inv in Hm as (a0 & p0 & s0 & -> & H).
  unfold CAPTURED_LINE in H. rewrite run_Bol in H.
  destruct (at_bol p0); [|done]. rewrite run_Star in H.
  apply greedy_inv in H as (a1 & p1 & s1 & -> & H). rewrite run_Lit in H.
  destruct (eat label s1) as [s2|] eqn:E; [|done].
  apply eat_Some in E as ->. rewrite run_Star in H.
  destruct (span_class is_space s2) as (ws & rest & -> & Hws & Hrest).
  destruct rest as [|y rest].
  { destruct Hsuf. exists (a0 ++ a1). rewrite app_nil_r.
    rewrite (assoc_L (++) a0 a1).
    by rewrite (rstrip_blank_after_label (a0 ++ a1) label ws c). }
  assert (Hy : dot y = true) by by apply not_space_dot.
  rewrite greedy_at_max in H; [| done | done | by apply capture_tail_matches].
  rewrite run_GOpen, run_Plus, Hy in H.
  apply fmap_Some_inv in H as (m1 & H & ->).
  apply greedy_inv in H as (a & p5 & s5 & -> & H). rewrite run_GClose in H.
  apply fmap_Some_inv in H as (m2 & H & ->).
  unfold group1. cbn [g_start g_end set_start set_end].
  replace (length (y :: a ++ s5) - length s5)%nat with (length (y :: a))
    by (simpl; rewrite length_app; lia).
  change (y :: a ++ s5) with ((y :: a) ++ s5). rewrite take_app_length.
  by apply strip_nonblank.
Qed.

End Lines.

Lemma LABELS_end_in_ink (label : text) :
  label ∈ LABELS → ∃ c, last label = Some c ∧ is_space c = false.
Proof.
  unfold LABELS. intros H.
  repeat (apply elem_of_cons in H as [->|H]; [eexists; by vm_compute|]).
  by apply elem_of_nil in H.
Qed.

Lemma valid_block_checked (qb label : text) :
  valid_block qb = true → label ∈ LABELS →
  is_Some (search (CHECKED_LINE label) qb).
Proof.
  unfold valid_block, KEYS, LABELS. cbn [forallb]. intros H Hl.
  apply andb_prop in H as [H _]. apply andb_prop in H as [Hq H].
  apply andb_prop in H as [Ha H]. apply andb_prop in H as [Hb H].
  apply andb_prop in H as [Hc _].
  apply bool_decide_eq_true in Hq, Ha, Hb, Hc.
  apply elem_of_cons in Hl as [->|Hl]; [exact Hq|].
  apply elem_of_cons in Hl as [->|Hl]; [exact Ha|].
  apply elem_of_cons in Hl as [->|Hl]; [exact Hb|].
  apply elem_of_cons in Hl as [->|Hl]; [exact Hc|].
  by apply elem_of_nil in Hl.
Qed.

(** A block the validator accepts is kept by the parser, unless it ends,
    blanks apart, with one of the labels. *)
Lemma valid_block_kept (qb : text) :
  valid_block qb = true →
  (∀ label, label ∈ LABELS → ¬ label `suffix_of` rstrip qb) →
  is_Some (parse_question qb).
Proof.
  intros Hv Hends.
  assert (Hcap : ∀ label, label ∈ LABELS → captured (CAPTURED_LINE label) qb ≠ []).
  { intros label Hl. destruct (LABELS_end_in_ink label Hl) as (c & Hlast & Hc).
    apply (captured_nonblank label qb c); auto.
    by apply checked_then_captured, valid_block_checked. }
  destruct (parse_question qb) eqn:E; [done|]. exfalso.
  apply parse_question_None in E as [E|(k & Hk & E)].
  - apply (Hcap (py "Question:")); [unfold LABELS; in_pattern|exact E].
  - unfold KEYS in Hk.
    apply elem_of_cons in Hk as [->|Hk];
      [apply (Hcap (py "[A]")); [unfold LABELS; in_pattern|exact E]|].
    apply elem_of_cons in Hk as [->|Hk];
      [apply (Hcap (py "[B]")); [unfold LABELS; in_pattern|exact E]|].
    apply elem_of_cons in Hk as [->|Hk];
      [apply (Hcap (py "[C]")); [unfold LABELS; in_pattern|exact E]|].
    by apply elem_of_nil in Hk.
Qed.

Lemma filter_all {A} (P : A → Prop) `{∀ x, Decision (P x)} (l : list A) :
  Forall P l → filter P l = l.
Proof.
  induction 1 as [|x l Hx _ IH]; [done|].
  rewrite filter_cons, decide_True by done. by rewrite IH.
Qed.

(** X3. A text the validator accepts parses to exactly five records when none
    of its question blocks ends, blanks apart, with a bare label
    ("Question:", "[A]", "[B]" or "[C]"). *)
Theorem validated_quiz_parses_to_five (t : text) (m : mres) :
  validate_quiz_block t = true →
  search QUIZ_RE t = Some m →
  (∀ qb label, qb ∈ findall QUESTION_RE (group1 m) → label ∈ LABELS →
               ¬ label `suffix_of` rstrip qb) →
  length (parse_quiz_block t) = 5%nat.
Proof.
  intros Hv Hm Hends.
  destruct (validate_quiz_block_inv t Hv) as (m' & Hm' & H5 & Hall).
  rewrite Hm in Hm'. injection Hm' as <-.
  rewrite (parse_quiz_block_blocks t m Hm), omap_length_filter, <- H5.
  f_equal. apply filter_all. rewrite Forall_forall in *.
  intros qb Hqb. apply valid_block_kept; [by apply Hall|].
  intros label. by apply Hends.
Qed.

Lemma validated_quiz_parses_to_five_witness :
  length (parse_quiz_block five_good) = 5%nat.
Proof.
  destruct (search QUIZ_RE five_good) as [m|] eqn:E;
    [|exfalso; revert E; by vm_compute].
  apply (validated_quiz_parses_to_five five_good m); [by vm_compute|done|].
  assert (H : Forall (λ qb, Forall (λ label, ¬ label `suffix_of` rstrip qb) LABELS)
                (findall QUESTION_RE (group1 m))).
  { vm_compute in E. injection E as <-. apply (bool_decide_unpack _). by vm_compute. }
  intros qb label Hqb Hl. rewrite Forall_forall in H.
  specialize (H qb Hqb). rewrite Forall_forall in H. by apply H.
Defined.

Lemma gate_closed_after_pass_witness :
  check_completion_gate noon (after_gate (check_completion_gate noon four_of_five))
  = GateOutcome (after_gate (check_completion_gate noon four_of_five)) []
      (false, NoMessage).
Proof. apply (gate_closed_after_pass noon noon four_of_five). by vm_compute. Defined.

(** ** The scenario of a four-question adventure *)


(** ** Ranks, levels, shop and quests *)

Example ranks_and_levels :
  (compute_rank <$> [0; 99; 100; 699; 700; 2500])
  = ["Rookie"; "Rookie"; "Apprentice"; "Scholar"; "Mentor"; "Grandmaster"]%string
  ∧ (compute_level <$> [0; 99; 100; 449; 450; 4200; 99999]) = [1; 1; 2; 3; 4; 12; 12].
Proof. by vm_compute. Qed.

(** X6. A purchase the coins do not cover changes nothing. *)
Theorem buy_needs_coins (it : shop_item) (s : session) :
  coins s < i_cost it → buy it s = s.
Proof. intros H. unfold buy. by rewrite bool_decide_eq_false_2 by lia. Qed.

Lemma buy_needs_coins_witness : buy owl ten_coins = ten_coins.
Proof. apply (buy_needs_coins owl ten_coins). by vm_compute. Defined.

(** X8. A purchase that is covered takes its cost off the coins and nothing off
    the XP. *)
Theorem buy_pays_cost (it : shop_item) (s : session) :
  i_cost it ≤ coins s →
  coins (buy it s) = coins s - i_cost it ∧ total_xp (buy it s) = total_xp s.
Proof.
  intros H. unfold buy. rewrite bool_decide_eq_true_2 by done.
  by destruct (i_value it).
Qed.

Lemma buy_pays_cost_witness :
  coins (buy owl (with_coins 25 ten_coins)) = coins (with_coins 25 ten_coins) - i_cost owl
  ∧ total_xp (buy owl (with_coins 25 ten_coins)) = total_xp (with_coins 25 ten_coins).
Proof. apply (buy_pays_cost owl (with_coins 25 ten_coins)). by vm_compute. Defined.

Lemma quest_done_eta (s : session) : with_quest_done (quest_done s) s = s.
Proof. by destruct s. Qed.

Lemma claim_quest_cons (cur : string → Z) (mark : Z) (s : session)
    (l : list string) (q : quest) (quests : list quest) :
  foldl (claim_quest cur mark) (s, l) (q :: quests) =
  foldl (claim_quest cur mark)
    (if bool_decide (q_target q ≤ cur (q_key q))
        && negb (bool_decide ((q_id q, mark) ∈ quest_done s))
     then (with_quest_done ({[(q_id q, mark)]} ∪ quest_done s) s, l ++ [q_id q])
     else (s, l)) quests.
Proof. done. Qed.

(** A pass over the quests only marks quests, and leaves every quest either
    short of its target or marked. *)
Lemma claim_quests_spec (cur : string → Z) (mark : Z) (quests : list quest)
    (s : session) :
  ∃ u, (claim_quests cur mark quests s).1 = with_quest_done u s
       ∧ quest_done s ⊆ u
       ∧ ∀ q, q ∈ quests → cur (q_key q) < q_target q ∨ (q_id q, mark) ∈ u.
Proof.
  unfold claim_quests. generalize (@nil string). revert s.
  induction quests as [|q quests IH]; intros s l.
  - exists (quest_done s). simpl. rewrite quest_done_eta.
    split; [done|]. split; [done|]. intros q Hq. by apply elem_of_nil in Hq.
  - rewrite claim_quest_cons.
    destruct (bool_decide (q_target q ≤ cur (q_key q))) eqn:E1; cbn [andb].
    + destruct (bool_decide ((q_id q, mark) ∈ quest_done s)) eqn:E2; cbn [negb].
      * apply bool_decide_eq_true in E2.
        destruct (IH s l) as (u & -> & Hsub & Hall). exists u.
        split; [done|]. split; [done|].
        intros q' [->|Hq']%elem_of_cons; [right; by apply Hsub|by apply Hall].
      * destruct (IH (with_quest_done ({[(q_id q, mark)]} ∪ quest_done s) s)
                    (l ++ [q_id q])) as (u & -> & Hsub & Hall).
        simpl in Hsub. exists u. split; [done|].
        split; [by etrans; [apply union_subseteq_r|]|].
        intros q' [->|Hq']%elem_of_cons; [|by apply Hall].
        right. apply Hsub. by apply elem_of_union_l, elem_of_singleton.
    + apply bool_decide_eq_false in E1.
      destruct (IH s l) as (u & -> & Hsub & Hall). exists u.
      split; [done|]. split; [done|].
      intros q' [->|Hq']%elem_of_cons; [left; lia|by apply Hall].
Qed.

Lemma claim_quests_settled (cur : string → Z) (mark : Z) (quests : list quest)
    (s : session) :
  (∀ q, q ∈ quests → cur (q_key q) < q_target q ∨ (q_id q, mark) ∈ quest_done s) →
  claim_quests cur mark quests s = (s, []).
Proof.
  unfold claim_quests. generalize (@nil string).
  induction quests as [|q quests IH]; intros l H; [done|].
  rewrite claim_quest_cons.
  destruct (H q (list_elem_of_here _ _)) as [Hlt|Hin].
  - rewrite bool_decide_eq_false_2 by lia. cbn [andb].
    apply IH. intros q' Hq'. apply H. by apply list_elem_of_further.
  - rewrite (bool_decide_eq_true_2 _ Hin), andb_false_r.
    apply IH. intros q' Hq'. apply H. by apply list_elem_of_further.
Qed.

Lemma grant_quest_rewards_frame (ids : list string) (s : session) :
  ∃ x c, grant_quest_rewards ids s = with_coins c (with_total_xp x s).
Proof.
  exists (total_xp (grant_quest_rewards ids s)), (coins (grant_quest_rewards ids s)).
  destruct s. unfold grant_quest_rewards, DAILY_QUESTS, WEEKLY_QUESTS.
  cbn [app foldl]. by repeat case_bool_decide.
Qed.

(** X7. Opening the quests tab a second time the same day claims nothing and
    pays nothing more: each quest pays once per window. *)
Theorem quest_progress_view_idempotent (today : Z) (s : session) :
  quest_progress_view today (quest_progress_view today s)
  = quest_progress_view today s.
Proof.
  set (daily := quests_daily_progress s).
  set (weekly := quests_weekly_progress s).
  set (wk := default today (week_start weekly)).
  (* the first view *)
  destruct (claim_quests_spec (daily_get daily) today DAILY_QUESTS s)
    as (u1 & E1 & _ & Hd).
  destruct (claim_quests (daily_get daily) today DAILY_QUESTS s) as [s1 c1] eqn:C1.
  simpl in E1. subst s1.
  set (s2 := if bool_decide (c1 ≠ [])
             then grant_quest_rewards c1 (with_quest_done u1 s)
             else with_quest_done u1 s).
  assert (F2 : ∃ x c, s2 = with_coins c (with_total_xp x (with_quest_done u1 s))).
  { subst s2. case_bool_decide; [apply grant_quest_rewards_frame|].
    exists (total_xp s), (coins s). by destruct s. }
  destruct F2 as (x2 & k2 & F2).
  destruct (claim_quests_spec (weekly_get weekly) wk WEEKLY_QUESTS s2)
    as (u3 & E3 & Hsub3 & Hw).
  destruct (claim_quests (weekly_get weekly) wk WEEKLY_QUESTS s2) as [s3 c3] eqn:C3.
  simpl in E3. subst s3.
  set (s4 := if bool_decide (c3 ≠ [])
             then grant_quest_rewards c3 (with_quest_done u3 s2)
             else with_quest_done u3 s2).
  assert (F4 : ∃ x c, s4 = with_coins c (with_total_xp x (with_quest_done u3 s2))).
  { subst s4. case_bool_decide; [apply grant_quest_rewards_frame|].
    exists (total_xp s2), (coins s2). rewrite F2. by destruct s. }
  destruct F4 as (x4 & k4 & F4).
  assert (V1 : quest_progress_view today s = s4).
  { unfold quest_progress_view. fold daily weekly. rewrite C1. fold s2.
    fold wk. by rewrite C3. }
  rewrite V1.
  (* the second view, on [s4] *)
  assert (Hdaily : quests_daily_progress s4 = daily) by (by rewrite F4, F2).
  assert (Hweekly : quests_weekly_progress s4 = weekly) by (by rewrite F4, F2).
  assert (Hdone : quest_done s4 = u3) by (by rewrite F4).
  assert (Hu13 : u1 ⊆ u3) by (by rewrite F2 in Hsub3).
  unfold quest_progress_view. rewrite Hdaily, Hweekly. fold wk.
  rewrite (claim_quests_settled (daily_get daily) today DAILY_QUESTS s4).
  2:{ intros q Hq. destruct (Hd q Hq) as [?|Hin]; [by left|right].
      rewrite Hdone. by apply Hu13. }
  rewrite bool_decide_eq_false_2 by (by intros ?).
  rewrite (claim_quests_settled (weekly_get weekly) wk WEEKLY_QUESTS s4).
  2:{ intros q Hq. destruct (Hw q Hq) as [?|Hin]; [by left|right].
      by rewrite Hdone. }
  by rewrite bool_decide_eq_false_2 by (by intros ?).
Qed.

(** ** The daily streak over several days *)

Lemma touch_daily_streak_last (today : Z) (s : session) :
  last_active_date (touch_daily_streak today s) = Some today.
Proof. done. Qed.

(** X9. The header calls [touch_daily_streak] at every rerun of the script:
    a second call on the same day changes nothing, so the streak counts
    days, not reruns. *)
Theorem touch_daily_streak_idempotent (today : Z) (s : session) :
  touch_daily_streak today (touch_daily_streak today s)
  = touch_daily_streak today s.
Proof.
  unfold touch_daily_streak at 1. rewrite touch_daily_streak_last.
  rewrite Z.sub_diag, !bool_decide_eq_false_2 by lia.
  unfold touch_daily_streak. destruct s; simpl. repeat case_match; reflexivity.
Qed.

Lemma touch_days_resume (n : nat) (day : Z) (s : session) :
  last_active_date s = Some (day - 1) →
  daily_streak (touch_days day n s) = daily_streak s + Z.of_nat n
  ∧ last_active_date (touch_days day n s) = Some (day - 1 + Z.of_nat n).
Proof.
  revert day s. induction n as [|n IH]; intros day s Hl.
  { simpl. rewrite !Z.add_0_r. done. }
  cbn [touch_days].
  destruct (IH (day + 1) (touch_daily_streak day s)) as [H1 H2].
  { rewrite touch_daily_streak_last. f_equal. lia. }
  rewrite H1, H2. split; [|f_equal; lia].
  unfold touch_daily_streak. rewrite Hl.
  rewrite bool_decide_eq_true_2 by lia. simpl. lia.
Qed.

(** X10. The app opened on [n] days in a row, [n] at least 1: a learner
    never seen before ends with a streak of [n]; one last seen the day
    before the first of them has [n] more than before; one last seen
    earlier than that starts again and ends with [n]. *)
Theorem streak_counts_consecutive_days (day : Z) (n : nat) (s : session) :
  (0 < n)%nat →
  (last_active_date s = None →
   daily_streak (touch_days day n s) = Z.of_nat n)
  ∧ (last_active_date s = Some (day - 1) →
     daily_streak (touch_days day n s) = daily_streak s + Z.of_nat n)
  ∧ (∀ last, last_active_date s = Some last → last < day - 1 →
     daily_streak (touch_days day n s) = Z.of_nat n).
Proof.
  intros Hn. destruct n as [|n]; [lia|]. cbn [touch_days].
  split; [|split].
  - intros Hl.
    destruct (touch_days_resume n (day + 1) (touch_daily_streak day s)) as [-> _].
    { rewrite touch_daily_streak_last. f_equal. lia. }
    unfold touch_daily_streak. rewrite Hl. simpl. lia.
  - intros Hl. exact (proj1 (touch_days_resume (S n) day s Hl)).
  - intros last Hl Hlt.
    destruct (touch_days_resume n (day + 1) (touch_daily_streak day s)) as [-> _].
    { rewrite touch_daily_streak_last. f_equal. lia. }
    unfold touch_daily_streak. rewrite Hl.
    rewrite bool_decide_eq_false_2, bool_decide_eq_true_2 by lia. simpl. lia.
Qed.

Lemma streak_counts_consecutive_days_witness :
  daily_streak (touch_days 100 5 (init_state 100)) = 5
  ∧ daily_streak (touch_days 11 3 (streak_of_4 (Some 10))) = 4 + 3
  ∧ daily_streak (touch_days 20 3 (streak_of_4 (Some 10))) = 3.
Proof.
  split; [|split].
  - apply (proj1 (streak_counts_consecutive_days 100 5 (init_state 100) ltac:(lia))).
    reflexivity.
  - apply (proj1 (proj2 (streak_counts_consecutive_days 11 3 (streak_of_4 (Some 10))
                           ltac:(lia)))).
    reflexivity.
  - apply (proj2 (proj2 (streak_counts_consecutive_days 20 3 (streak_of_4 (Some 10))
                           ltac:(lia))) 10); [reflexivity|lia].
Defined.
(** ** Invariants of a session driven from the tabs *)

Lemma coins_xp_eta (s : session) : with_coins (coins s) (with_total_xp (total_xp s) s) = s.
Proof. by destruct s. Qed.

Lemma grant_quest_rewards_grows (ids : list string) (s : session) :
  ∃ x c, grant_quest_rewards ids s = with_coins c (with_total_xp x s)
         ∧ total_xp s ≤ x ∧ coins s ≤ c.
Proof.
  unfold grant_quest_rewards.
  assert (Hpos : Forall (λ q, 0 ≤ q_reward_xp q ∧ 0 ≤ q_reward_coins q)
                   (DAILY_QUESTS ++ WEEKLY_QUESTS)).
  { repeat constructor; simpl; lia. }
  revert s. induction Hpos as [|q qs [Hx Hc] _ IH]; intros s.
  { exists (total_xp s), (coins s). simpl. rewrite coins_xp_eta. split; [done|lia]. }
  cbn [foldl]. case_bool_decide.
  - destruct (IH (with_coins (coins s + q_reward_coins q)
                    (with_total_xp (total_xp s + q_reward_xp q) s)))
      as (x & c & -> & Hx' & Hc').
    simpl in Hx', Hc'. exists x, c. split; [done|lia].
  - apply IH.
Qed.

(** The quests tab only marks quests and pays XP and coins. *)
Lemma quest_progress_view_frame (today : Z) (s : session) :
  ∃ x c u, quest_progress_view today s
           = with_coins c (with_total_xp x (with_quest_done u s))
           ∧ total_xp s ≤ x ∧ coins s ≤ c ∧ quest_done s ⊆ u.
Proof.
  unfold quest_progress_view.
  destruct (claim_quests_spec (daily_get (quests_daily_progress s)) today
              DAILY_QUESTS s) as (u1 & E1 & Hu1 & _).
  destruct (claim_quests _ today DAILY_QUESTS s) as [s1 c1]. simpl in E1. subst s1.
  set (s2 := if bool_decide (c1 ≠ [])
             then grant_quest_rewards c1 (with_quest_done u1 s)
             else with_quest_done u1 s).
  assert (F2 : ∃ x c, s2 = with_coins c (with_total_xp x (with_quest_done u1 s))
                      ∧ total_xp s ≤ x ∧ coins s ≤ c).
  { subst s2. case_bool_decide.
    - destruct (grant_quest_rewards_grows c1 (with_quest_done u1 s))
        as (x & c & -> & ? & ?).
      by exists x, c.
    - exists (total_xp s), (coins s). split; [by destruct s|lia]. }
  destruct F2 as (x2 & k2 & F2 & Hx2 & Hk2).
  destruct (claim_quests_spec (weekly_get (quests_weekly_progress s))
              (default today (week_start (quests_weekly_progress s)))
              WEEKLY_QUESTS s2) as (u3 & E3 & Hu3 & _).
  destruct (claim_quests _ _ WEEKLY_QUESTS s2) as [s3 c3]. simpl in E3. subst s3.
  rewrite F2 in Hu3. simpl in Hu3.
  case_bool_decide.
  - destruct (grant_quest_rewards_grows c3 (with_quest_done u3 s2))
      as (x & c & -> & Hx & Hc).
    rewrite F2 in Hx, Hc |- *. simpl in Hx, Hc.
    exists x, c, u3. split; [done|]. split; [lia|]. split; [lia|]. by etrans.
  - exists x2, k2, u3. rewrite F2. split; [done|]. split; [done|]. split; [done|].
    by etrans.
Qed.

Lemma answer_click_on_track (today i : Z) (s : session) :
  on_track s → on_track (answer_click today i s).
Proof.
  intros H. unfold answer_click. case_bool_decide as Hq; [|done].
  destruct (quiz_items s !! Z.to_nat (quiz_map_qindex s)) as [q|] eqn:E; [|done].
  case_bool_decide; [|done].
  apply lookup_lt_Some in E.
  destruct H as (HT & Hp & Hc & Hi).
  unfold apply_answer_and_move. destruct (bool_decide (i = correct_index q)).
  - quests_frame_by update_quests_frame. unfold on_track. simpl. lia.
  - unfold on_track. simpl. lia.
Qed.

Lemma check_completion_gate_on_track (now : clock) (s : session) :
  on_track s → on_track (after_gate (check_completion_gate now s)).
Proof.
  intros H. unfold check_completion_gate.
  destruct (bool_decide (quiz_map_total_questions s ≤ quiz_map_qindex s)
            && negb (quiz_map_done s)); [|done].
  quests_frame_by update_quests_frame.
  destruct (Qle_bool 80 _);
    match goal with |- context [check_achievements ?x] =>
      destruct (check_achievements_spec x) as (newly & -> & _) end;
    exact H.
Qed.

Lemma step_on_track (now : clock) (o : op) (s : session) :
  from_ui o → on_track s → on_track (step now o s).1.
Proof.
  intros Ho H. destruct o; unfold step; cbn [fst]; try done.
  - unfold touch_daily_streak.
    destruct (last_active_date s); repeat case_bool_decide; exact H.
  - by apply check_completion_gate_on_track.
  - unfold on_track. simpl. lia.
  - by apply answer_click_on_track.
  - destruct (quest_progress_view_frame (utc_today now) s) as (x & c & u & -> & _).
    exact H.
  - unfold sudoku_start. by destruct (_ && _).
  - unfold sudoku_check. by destruct (_ && _).
  - unfold buy. case_bool_decide; [|done]. by destruct (i_value it).
Qed.

Lemma add_progress_sound (subj chap : string) (sc tot : Z)
    (p : gmap string (gmap string tally)) :
  0 ≤ sc ≤ tot →
  (∀ sj chapters ch e, p !! sj = Some chapters → chapters !! ch = Some e →
     0 ≤ score e ≤ total e) →
  ∀ sj chapters ch e,
    add_progress subj chap sc tot p !! sj = Some chapters →
    chapters !! ch = Some e → 0 ≤ score e ≤ total e.
Proof.
  intros Hsc Hp sj chapters ch e. unfold add_progress.
  destruct (decide (sj = subj)) as [->|Hne].
  - rewrite lookup_insert_eq. intros [= <-].
    destruct (decide (ch = chap)) as [->|Hne].
    + rewrite lookup_insert_eq. intros [= <-]. simpl.
      destruct (p !! subj) as [m|] eqn:E1; simpl.
      * destruct (m !! chap) as [e0|] eqn:E2; simpl; [|lia].
        pose proof (Hp _ _ _ _ E1 E2). lia.
      * rewrite lookup_empty. simpl. lia.
    + rewrite lookup_insert_ne by done.
      destruct (p !! subj) as [m|] eqn:E1; simpl; [by apply (Hp subj m)|].
      by rewrite lookup_empty.
  - rewrite lookup_insert_ne by done. apply Hp.
Qed.

Lemma record_attempt_sound (now : clock) (xp : Z) (s : session) :
  0 ≤ quiz_map_correct s ≤ quiz_map_total_questions s →
  sound_stats s → sound_stats (record_attempt now xp s).
Proof.
  intros Hc (Hs & Hn & Hh & Hp). unfold sound_stats, record_attempt. simpl.
  split; [lia|]. split; [rewrite length_app; simpl; lia|].
  split.
  - apply Forall_app. split; [done|]. constructor; [simpl; lia|constructor].
  - by apply add_progress_sound.
Qed.

Lemma sound_stats_rewards (x : Z) (u : gset string) (s : session) :
  sound_stats s → sound_stats (with_total_xp x (with_ach u s)).
Proof. intros H. exact H. Qed.

Lemma check_completion_gate_sound (now : clock) (s : session) :
  on_track s → sound_stats s →
  sound_stats (after_gate (check_completion_gate now s)).
Proof.
  intros (_ & Hp & Hc & Hi) H. unfold check_completion_gate.
  destruct (bool_decide (quiz_map_total_questions s ≤ quiz_map_qindex s)
            && negb (quiz_map_done s)); [|done].
  quests_frame_by update_quests_frame.
  destruct (Qle_bool 80 _);
    match goal with |- context [check_achievements ?x] =>
      destruct (check_achievements_spec x) as (newly & -> & _) end;
    cbn [after_gate];
    apply sound_stats_rewards, record_attempt_sound; solve [simpl; lia|exact H].
Qed.

Lemma answer_click_stats (today i : Z) (s : session) :
  sound_stats s → sound_stats (answer_click today i s).
Proof.
  intros H. unfold answer_click. case_bool_decide; [|done].
  destruct (quiz_items s !! _); [|done]. case_bool_decide; [|done].
  unfold apply_answer_and_move. destruct (bool_decide _); [|exact H].
  quests_frame_by update_quests_frame. exact H.
Qed.

Lemma step_sound_stats (now : clock) (o : op) (s : session) :
  from_ui o → on_track s → sound_stats s → sound_stats (step now o s).1.
Proof.
  intros Ho Ht H. destruct o; unfold step; cbn [fst]; try done.
  - unfold touch_daily_streak.
    destruct (last_active_date s); repeat case_bool_decide; exact H.
  - by apply check_completion_gate_sound.
  - by apply answer_click_stats.
  - destruct (quest_progress_view_frame (utc_today now) s) as (x & c & u & -> & _).
    exact H.
  - unfold sudoku_start. by destruct (_ && _).
  - unfold sudoku_check. by destruct (_ && _).
  - unfold buy. case_bool_decide; [|done]. by destruct (i_value it).
Qed.

Lemma ui_session_invariant (ops : list (clock * op)) (s : session) :
  Forall (λ e, from_ui e.2) ops → on_track s → sound_stats s →
  on_track (run_session ops s).1 ∧ sound_stats (run_session ops s).1.
Proof.
  revert s. induction ops as [|[now o] ops IH]; intros s Hops Ht Hs; [done|].
  apply Forall_cons in Hops as [Ho Hops]. simpl in Ho.
  cbn [run_session].
  pose proof (step_on_track now o s Ho Ht) as Ht1.
  pose proof (step_sound_stats now o s Ho Ht Hs) as Hs1.
  destruct (step now o s) as [s1 n1]. simpl in Ht1, Hs1.
  pose proof (IH s1 Hops Ht1 Hs1) as H2.
  by destruct (run_session ops s1) as [s2 n2].
Qed.

Lemma init_state_on_track (today : Z) : on_track (init_state today).
Proof. unfold on_track. simpl. lia. Qed.

Lemma init_state_sound (today : Z) : sound_stats (init_state today).
Proof.
  unfold sound_stats. simpl. split; [lia|]. split; [done|]. split; [constructor|].
  intros sj chapters ch e. by rewrite lookup_empty.
Qed.

(** X11. From a fresh session, whatever the learner does in the tabs: the
    adventure has as many questions as the quiz on display, the correct
    answers never exceed the questions answered, which never exceed the
    questions there are, and the rocket is never ahead of the correct
    answers. So it never stands on the last tile of the map, the trophy at
    [total + 1]: the upper clamp of [apply_answer_and_move] is never
    reached. *)
Theorem rocket_stays_behind_the_questions (today : Z) (ops : list (clock * op)) :
  Forall (λ e, from_ui e.2) ops →
  let s := (run_session ops (init_state today)).1 in
  quiz_map_total_questions s = Z.of_nat (length (quiz_items s))
  ∧ 0 ≤ quiz_map_position s ≤ quiz_map_correct s
  ∧ quiz_map_correct s ≤ quiz_map_qindex s ≤ quiz_map_total_questions s
  ∧ quiz_map_position s < quiz_map_total_questions s + 1.
Proof.
  intros Hops s.
  destruct (ui_session_invariant ops (init_state today) Hops
              (init_state_on_track today) (init_state_sound today))
    as [(HT & Hp & Hc & Hi) _].
  fold s in HT, Hp, Hc, Hi. repeat split; lia.
Qed.

Lemma rocket_stays_behind_the_questions_witness :
  let s := (run_session busy_day (init_state 100)).1 in
  quiz_map_total_questions s = Z.of_nat (length (quiz_items s))
  ∧ 0 ≤ quiz_map_position s ≤ quiz_map_correct s
  ∧ quiz_map_correct s ≤ quiz_map_qindex s ≤ quiz_map_total_questions s
  ∧ quiz_map_position s < quiz_map_total_questions s + 1.
Proof.
  apply (rocket_stays_behind_the_questions 100 busy_day).
  unfold busy_day. repeat (apply Forall_cons; split; [simpl; try exact I; in_pattern|]).
  apply Forall_nil_2.
Defined.

(** X12. From a fresh session, whatever the learner does in the tabs: the
    lifetime score never exceeds the lifetime total, the number of quizzes
    is the number of history records, and every history record and every
    chapter of the progress table has a score between 0 and its total. *)
Theorem statistics_match_history (today : Z) (ops : list (clock * op)) :
  Forall (λ e, from_ui e.2) ops →
  let s := (run_session ops (init_state today)).1 in
  0 ≤ quiz_score s ≤ quiz_total s
  ∧ quiz_count s = Z.of_nat (length (history s))
  ∧ Forall (λ h, 0 ≤ h_score h ≤ h_total h) (history s)
  ∧ (∀ subj chapters chap e,
       progress s !! subj = Some chapters → chapters !! chap = Some e →
       0 ≤ score e ≤ total e).
Proof.
  intros Hops s.
  by destruct (ui_session_invariant ops (init_state today) Hops
                 (init_state_on_track today) (init_state_sound today)) as [_ H].
Qed.

Lemma statistics_match_history_witness :
  let s := (run_session busy_day (init_state 100)).1 in
  0 ≤ quiz_score s ≤ quiz_total s
  ∧ quiz_count s = Z.of_nat (length (history s))
  ∧ Forall (λ h, 0 ≤ h_score h ≤ h_total h) (history s)
  ∧ (∀ subj chapters chap e,
       progress s !! subj = Some chapters → chapters !! chap = Some e →
       0 ≤ score e ≤ total e).
Proof.
  apply (statistics_match_history 100 busy_day).
  unfold busy_day. repeat (apply Forall_cons; split; [simpl; try exact I; in_pattern|]).
  apply Forall_nil_2.
Defined.
(** ** What the answers of an attempt add up to *)

Lemma apply_answer_and_move_ledger (today : Z) (ok : bool) (qidx : Z) (s : session) :
  let s' := apply_answer_and_move today ok qidx s in
  let k := if ok then 1 else 0 in
  total_xp s' = total_xp s + 5 * k
  ∧ quiz_map_correct s' = quiz_map_correct s + k
  ∧ correct_total s' = correct_total s + k
  ∧ coins s' = coins s
  ∧ game_credits s' = game_credits s
  ∧ quiz_map_total_questions s' = quiz_map_total_questions s.
Proof.
  unfold apply_answer_and_move. destruct ok.
  - quests_frame_by update_quests_frame. simpl. repeat split; lia.
  - simpl. repeat split; lia.
Qed.

(** X13. Answers submitted one after the other pay 5 XP for each correct
    one and nothing else: the correct count of the attempt and the lifetime
    count of correct answers grow by the number of correct answers, a wrong
    answer costs no XP, and coins and credits are left alone. *)
Theorem answers_pay_five_each (subs : list (Z * bool * Z)) (s : session) :
  total_xp (submit_all subs s) = total_xp s + 5 * correct_answers subs
  ∧ quiz_map_correct (submit_all subs s) = quiz_map_correct s + correct_answers subs
  ∧ correct_total (submit_all subs s) = correct_total s + correct_answers subs
  ∧ coins (submit_all subs s) = coins s
  ∧ game_credits (submit_all subs s) = game_credits s.
Proof.
  unfold submit_all, correct_answers. revert s.
  induction subs as [|[[today ok] qidx] subs IH]; intros s.
  { simpl. repeat split; lia. }
  cbn [foldl].
  destruct (IH (apply_answer_and_move today ok qidx s)) as (-> & -> & -> & -> & ->).
  destruct (apply_answer_and_move_ledger today ok qidx s) as (-> & -> & -> & -> & -> & _).
  rewrite filter_cons. cbn [fst snd].
  destruct ok.
  - rewrite decide_True by done. cbn [length]. repeat split; lia.
  - rewrite decide_False by done. repeat split; lia.
Qed.

Lemma run_session_cons_state (now : clock) (o : op) (ops : list (clock * op))
    (s : session) :
  (run_session ((now, o) :: ops) s).1 = (run_session ops (step now o s).1).1.
Proof.
  cbn [run_session]. destruct (step now o s) as [s1 n1]. cbn [fst].
  by destruct (run_session ops s1) as [s2 n2].
Qed.

Lemma step_during_attempt (now : clock) (o : op) (s : session) :
  during_attempt o →
  let s' := (step now o s).1 in
  quiz_map_total_questions s' = quiz_map_total_questions s
  ∧ 5 * quiz_map_correct s'
    = 5 * quiz_map_correct s + (if is_click o then total_xp s' - total_xp s else 0).
Proof.
  intros [Hui Hno]. destruct o; try done; unfold step; cbn [fst is_click].
  - unfold touch_daily_streak.
    destruct (last_active_date s); repeat case_bool_decide; simpl; lia.
  - unfold check_completion_gate.
    destruct (bool_decide (quiz_map_total_questions s ≤ quiz_map_qindex s)
              && negb (quiz_map_done s)); [|simpl; lia].
    quests_frame_by update_quests_frame.
    destruct (Qle_bool 80 _);
      match goal with |- context [check_achievements ?x] =>
        destruct (check_achievements_spec x) as (newly & -> & _) end;
      cbn -[Z.mul Z.add]; lia.
  - unfold answer_click. case_bool_decide; [|lia].
    destruct (quiz_items s !! _) as [q|]; [|lia].
    case_bool_decide; [|lia].
    match goal with |- context [apply_answer_and_move ?t ?ok ?i ?x] =>
      destruct (apply_answer_and_move_ledger t ok i x) as (-> & -> & _ & _ & _ & ->) end.
    cbn -[Z.mul Z.add]. lia.
  - destruct (quest_progress_view_frame (utc_today now) s) as (x & c & u & -> & _).
    cbn -[Z.mul Z.add]. lia.
  - unfold sudoku_start. destruct (_ && _); simpl; lia.
  - unfold sudoku_check. destruct (_ && _); simpl; lia.
  - unfold buy. case_bool_decide; [|lia]. destruct (i_value it); simpl; lia.
Qed.

Lemma attempt_clicks_pay (mid : list (clock * op)) (s : session) :
  Forall (λ e, during_attempt e.2) mid →
  quiz_map_total_questions (run_session mid s).1 = quiz_map_total_questions s
  ∧ 5 * quiz_map_correct (run_session mid s).1
    = 5 * quiz_map_correct s + xp_paid_by is_click mid s.
Proof.
  revert s. induction mid as [|[now o] mid IH]; intros s Hmid.
  { simpl. lia. }
  apply Forall_cons in Hmid as [Ho Hmid]. simpl in Ho.
  rewrite run_session_cons_state. cbn [xp_paid_by].
  destruct (step_during_attempt now o s Ho) as [HT HC].
  destruct (IH (step now o s).1 Hmid) as [HT' HC']. lia.
Qed.

Lemma xp_paid_by_split (sel : op → bool) (ops : list (clock * op)) (s : session) :
  total_xp (run_session ops s).1
  = total_xp s + xp_paid_by sel ops s + xp_paid_by (negb ∘ sel) ops s.
Proof.
  revert s. induction ops as [|[now o] ops IH]; intros s.
  { simpl. lia. }
  rewrite run_session_cons_state, IH. cbn [xp_paid_by compose].
  destruct (sel o); simpl; lia.
Qed.

Lemma xp_paid_by_nonneg (sel : op → bool) (ops : list (clock * op)) (s : session) :
  0 ≤ xp_paid_by sel ops s.
Proof.
  revert s. induction ops as [|[now o] ops IH]; intros s; [done|].
  cbn [xp_paid_by]. specialize (IH (step now o s).1).
  destruct (step_pays_new now o s) as (_ & _ & _ & Hrows & Hxp).
  pose proof (quoted_xp_nonneg (step now o s).2 Hrows).
  destruct (sel o); lia.
Qed.

Lemma clicks_only (ops : list (clock * op)) (s : session) :
  Forall (λ e, is_click e.2 = true) ops →
  history (run_session ops s).1 = history s
  ∧ xp_paid_by (negb ∘ is_click) ops s = 0.
Proof.
  revert s. induction ops as [|[now o] ops IH]; intros s Hops; [done|].
  apply Forall_cons in Hops as [Ho Hops]. simpl in Ho.
  rewrite run_session_cons_state. cbn [xp_paid_by compose]. rewrite Ho.
  destruct (IH (step now o s).1 Hops) as [-> ->].
  split; [|done]. destruct o; try done. unfold step. cbn [fst].
  unfold answer_click. case_bool_decide; [|done].
  destruct (quiz_items s !! _) as [q|]; [|done].
  case_bool_decide; [|done].
  unfold apply_answer_and_move. destruct (bool_decide _).
  - quests_frame_by update_quests_frame. done.
  - done.
Qed.

(** X14. An attempt started from the button, then whatever the tabs do
    before the gate settles it (clicks on options, the quests tab, the
    streak, Sudoku, purchases, reruns of the gate; no new start and no
    retry): the gate appends one record to the history, whose score is the
    number of correct answers, whose total is the number of records the
    parser returned, and whose [xp] is exactly the XP the clicks on options
    have paid since the start, 5 for each correct answer, plus 25 on a pass.
    The XP of quests, Sudoku and achievements is not in that field: the XP
    gained since the start is the field, plus what the other operations
    paid, which is never negative, plus what the achievements announced by
    the settling call quote. With clicks only, the history is the one before
    the start plus that record, and the XP gained is the field plus the
    announced achievements. *)
Theorem history_xp_is_what_the_attempt_paid (now : clock) (quiz_text : text)
    (mid : list (clock * op)) (s : session) :
  let s0 := start_quiz quiz_text s in
  let s1 := (run_session mid s0).1 in
  let r := check_completion_gate now s1 in
  Forall (λ e, during_attempt e.2) mid →
  quiz_map_total_questions s1 ≤ quiz_map_qindex s1 →
  quiz_map_done s1 = false →
  ∃ rec, history (after_gate r) = history s1 ++ [rec]
         ∧ h_score rec = quiz_map_correct s1
         ∧ h_total rec = Z.of_nat (length (parse_quiz_block quiz_text))
         ∧ xp_paid_by is_click mid s0 = 5 * quiz_map_correct s1
         ∧ h_xp rec = xp_paid_by is_click mid s0 + (if (verdict r).1 then 25 else 0)
         ∧ 0 ≤ xp_paid_by (negb ∘ is_click) mid s0
         ∧ total_xp (after_gate r)
           = total_xp s + h_xp rec + xp_paid_by (negb ∘ is_click) mid s0
             + quoted_xp (announced r)
         ∧ (Forall (λ e, is_click e.2 = true) mid →
            history s1 = history s
            ∧ total_xp (after_gate r)
              = total_xp s + h_xp rec + quoted_xp (announced r)).
Proof.
  intros s0 s1 r Hmid Hfin Hd.
  destruct (attempt_clicks_pay mid s0 Hmid) as [HT HC]. fold s1 in HT, HC.
  pose proof (xp_paid_by_split is_click mid s0) as Hx. fold s1 in Hx.
  pose proof (xp_paid_by_nonneg (negb ∘ is_click) mid s0) as Hother.
  assert (H0 : quiz_map_total_questions s0
               = Z.of_nat (length (parse_quiz_block quiz_text))
               ∧ quiz_map_correct s0 = 0 ∧ total_xp s0 = total_xp s) by done.
  destruct H0 as (HT0 & HC0 & Hx0).
  assert (Honly : Forall (λ e, is_click e.2 = true) mid →
                  history s1 = history s
                  ∧ xp_paid_by (negb ∘ is_click) mid s0 = 0).
  { intros H. exact (clicks_only mid s0 H). }
  revert Honly Hother Hx HC. generalize (xp_paid_by (negb ∘ is_click) mid s0).
  generalize (xp_paid_by is_click mid s0). intros paid other Honly Hother Hx HC.
  subst r. unfold check_completion_gate.
  rewrite bool_decide_eq_true_2, Hd by done. cbn [andb negb].
  quests_frame_by update_quests_frame.
  destruct (Qle_bool 80 _);
    match goal with |- context [check_achievements ?x] =>
      destruct (check_achievements_spec x) as (newly & -> & _) end;
    cbn -[Z.mul Z.add Z.max Z.of_nat quoted_xp];
    eexists; (split; [done|]); cbn -[Z.mul Z.add Z.max Z.of_nat quoted_xp];
    (split; [done|]); (split; [lia|]); (split; [lia|]); (split; [lia|]);
    (split; [done|]); (split; [lia|]);
    intros H; destruct (Honly H) as [Hh Ho]; (split; [done|lia]).
Qed.

(** The session of [five_clicks_and_a_quest], which passes. *)
Lemma history_xp_is_what_the_attempt_paid_witness :
  let s0 := start_quiz five_good (init_state 100) in
  let s1 := (run_session five_clicks_and_a_quest s0).1 in
  let r := check_completion_gate noon s1 in
  ∃ rec, history (after_gate r) = history s1 ++ [rec]
         ∧ h_score rec = quiz_map_correct s1
         ∧ h_total rec = Z.of_nat (length (parse_quiz_block five_good))
         ∧ xp_paid_by is_click five_clicks_and_a_quest s0 = 5 * quiz_map_correct s1
         ∧ h_xp rec = xp_paid_by is_click five_clicks_and_a_quest s0
                      + (if (verdict r).1 then 25 else 0)
         ∧ 0 ≤ xp_paid_by (negb ∘ is_click) five_clicks_and_a_quest s0
         ∧ total_xp (after_gate r)
           = total_xp (init_state 100) + h_xp rec
             + xp_paid_by (negb ∘ is_click) five_clicks_and_a_quest s0
             + quoted_xp (announced r)
         ∧ (Forall (λ e, is_click e.2 = true) five_clicks_and_a_quest →
            history s1 = history (init_state 100)
            ∧ total_xp (after_gate r)
              = total_xp (init_state 100) + h_xp rec + quoted_xp (announced r)).
Proof.
  apply (history_xp_is_what_the_attempt_paid noon five_good
           five_clicks_and_a_quest (init_state 100)).
  - unfold five_clicks_and_a_quest. repeat constructor.
  - by vm_compute.
  - by vm_compute.
Defined.

(** There the clicks pay 25 XP and the quests tab 20: the record says 50,
    the achievements quote 75, and the session has gained 145. *)
Example quest_xp_is_not_in_the_record :
  let s0 := start_quiz five_good (init_state 100) in
  let s1 := (run_session five_clicks_and_a_quest s0).1 in
  let r := check_completion_gate noon s1 in
  (h_xp <$> last (history (after_gate r))) = Some 50
  ∧ xp_paid_by is_click five_clicks_and_a_quest s0 = 25
  ∧ xp_paid_by (negb ∘ is_click) five_clicks_and_a_quest s0 = 20
  ∧ quoted_xp (announced r) = 75
  ∧ total_xp (after_gate r) = 145.
Proof. by vm_compute. Qed.

(** ** The index the quiz tab takes for the right answer *)

Lemma index_of_three (a b c ans : text) :
  ans ∈ [a; b; c] →
  0 ≤ index_of 0 [a; b; c] ans ≤ 2
  ∧ [a; b; c] !! Z.to_nat (index_of 0 [a; b; c] ans) = Some ans
  ∧ ∀ j, (j < Z.to_nat (index_of 0 [a; b; c] ans))%nat → [a; b; c] !! j ≠ Some ans.
Proof.
  intros Hin. cbn [index_of].
  case_bool_decide as Ea.
  { subst. split; [lia|]. split; [done|]. intros j Hj. simpl in Hj. lia. }
  case_bool_decide as Eb.
  { subst. split; [lia|]. split; [done|]. intros j Hj.
    destruct j as [|[|j]]; [|simpl in Hj; lia..]. simpl. congruence. }
  case_bool_decide as Ec.
  { subst. split; [lia|]. split; [done|]. intros j Hj.
    destruct j as [|[|[|j]]]; [| |simpl in Hj; lia..]; simpl; congruence. }
  exfalso. repeat (apply elem_of_cons in Hin as [->|Hin]; [done|]).
  by apply elem_of_nil in Hin.
Qed.

(** X15. For the record of a block the parser keeps, the quiz tab finds the
    right answer by its text: the index it takes is 0, 1 or 2, is the first
    option that reads like the answer, and is never after the option the
    marker names. The two agree when the three options differ; when the
    option the marker names reads like an earlier one, the earlier one
    counts as right and a click on the marked one as wrong. *)
Theorem answer_key_resolved_by_text (qb : text) (it : item) :
  parse_question qb = Some it →
  0 ≤ correct_index it ≤ 2
  ∧ options it !! Z.to_nat (correct_index it) = Some (answer it)
  ∧ (∀ j, (j < Z.to_nat (correct_index it))%nat → options it !! j ≠ Some (answer it))
  ∧ options it !! Z.to_nat (key_index qb) = Some (answer it)
  ∧ correct_index it ≤ key_index qb
  ∧ (NoDup (options it) → correct_index it = key_index qb).
Proof.
  intros Hp. pose proof Hp as Hw. apply parse_question_well_formed in Hw.
  destruct Hw as (_ & a & b & c & Ho & _ & _ & _ & Hin).
  apply parse_question_Some in Hp as (E & _).
  assert (Hc : correct it = None) by (by rewrite E).
  unfold correct_index. rewrite Hc, Ho.
  destruct (index_of_three a b c (answer it) Hin) as (Hr & Hl & Hfirst).
  split; [done|]. split; [done|]. split; [done|].
  assert (Hk : [a; b; c] !! Z.to_nat (key_index qb) = Some (answer it)).
  { rewrite <- Ho, E. cbn [options answer]. unfold key_index.
    destruct (dict_get_options qb) as (Ea & Eb & Ec).
    destruct (correct_key_letter qb) as [K| [K| K]]; rewrite K.
    - rewrite !bool_decide_eq_false_2 by (by vm_compute). by rewrite Ea.
    - rewrite bool_decide_eq_true_2 by done. by rewrite Eb.
    - rewrite bool_decide_eq_false_2 by (by vm_compute).
      rewrite bool_decide_eq_true_2 by done. by rewrite Ec. }
  split; [done|].
  assert (Hkr : 0 ≤ key_index qb ≤ 2).
  { unfold key_index. repeat case_bool_decide; lia. }
  assert (Hle : index_of 0 [a; b; c] (answer it) ≤ key_index qb).
  { destruct (Z.le_gt_cases (index_of 0 [a; b; c] (answer it)) (key_index qb)); [done|].
    exfalso. apply (Hfirst (Z.to_nat (key_index qb))); [lia|done]. }
  split; [done|].
  intros Hnd.
  assert (Z.to_nat (index_of 0 [a; b; c] (answer it)) = Z.to_nat (key_index qb)); [|lia].
  by eapply NoDup_lookup.
Qed.

Lemma answer_key_resolved_by_text_witness :
  ∃ it, parse_question twin_options_block = Some it
        ∧ options it !! Z.to_nat (key_index twin_options_block) = Some (answer it)
        ∧ key_index twin_options_block = 1
        ∧ correct_index it = 0.
Proof.
  eexists. split; [by vm_compute|].
  split; [|by vm_compute].
  eapply (proj1 (proj2 (proj2 (proj2
            (answer_key_resolved_by_text twin_options_block _ _))))).
  Unshelve. by vm_compute.
Defined.
(** ** Which achievements a pass unlocks *)

Lemma check_achievements_in_other_titles (catalog : list achievement)
    (t : string) (s : session) (n0 : list (string * Z)) :
  t ∉ a_title <$> catalog →
  (t ∈ ach (foldl check_achievement (s, n0) catalog).1 ↔ t ∈ ach s).
Proof.
  revert s n0. induction catalog as [|b cat IH]; intros s n0 Ht; [done|].
  rewrite check_achievement_cons.
  rewrite fmap_cons, not_elem_of_cons in Ht. destruct Ht as [Hb Ht].
  destruct (negb (bool_decide (a_title b ∈ ach s)) && a_cond b s).
  - rewrite IH by done. simpl. rewrite elem_of_union, elem_of_singleton.
    split; [intros [?|?]; [done|done]|by right].
  - by apply IH.
Qed.

Section Unlocks.

Variable catalog : list achievement.

Hypothesis conditions_ignore_rewards :
  ∀ a x u s, a ∈ catalog → a_cond a (with_total_xp x (with_ach u s)) = a_cond a s.

Hypothesis titles_differ : NoDup (a_title <$> catalog).

Lemma check_achievements_in_unlocks (s : session) (a : achievement) :
  a ∈ catalog →
  (a_title a ∈ ach (check_achievements_in catalog s).1
   ↔ a_title a ∈ ach s ∨ a_cond a s = true).
Proof.
  unfold check_achievements_in. generalize (@nil (string * Z)).
  revert s conditions_ignore_rewards titles_differ.
  induction catalog as [|b cat IH]; intros s Hign Hnd n0 Ha.
  { by apply elem_of_nil in Ha. }
  rewrite fmap_cons in Hnd. apply NoDup_cons in Hnd as [Hb Hnd].
  assert (Hcat : ∀ a x u s, a ∈ cat →
            a_cond a (with_total_xp x (with_ach u s)) = a_cond a s).
  { intros. apply Hign. by apply list_elem_of_further. }
  rewrite check_achievement_cons.
  apply elem_of_cons in Ha as [->|Ha].
  - (* the row at hand: the rest of the pass leaves its title alone *)
    destruct (bool_decide (a_title b ∈ ach s)) eqn:E1; cbn [negb andb].
    + apply bool_decide_eq_true in E1.
      rewrite check_achievements_in_other_titles by done. by split; [left|].
    + apply bool_decide_eq_false in E1.
      destruct (a_cond b s) eqn:E2.
      * rewrite check_achievements_in_other_titles by done. simpl.
        split; [by right|]. intros _. by apply elem_of_union_l, elem_of_singleton.
      * rewrite check_achievements_in_other_titles by done.
        split; [by left|]. by intros [?|?].
  - (* a later row: this turn changes neither its title nor its condition *)
    assert (Hne : a_title a ≠ a_title b).
    { intros E. apply Hb. rewrite <- E. by apply list_elem_of_fmap_2. }
    destruct (negb (bool_decide (a_title b ∈ ach s)) && a_cond b s).
    + rewrite (IH _ Hcat Hnd _ Ha). rewrite Hcat by done. simpl.
      rewrite elem_of_union, elem_of_singleton.
      split; [intros [[?|?]|?]; [done|by left|by right]
             |intros [?|?]; [left; by right|by right]].
    + by apply IH.
Qed.

End Unlocks.

Lemma ACHIEVEMENTS_titles_differ : NoDup (a_title <$> ACHIEVEMENTS).
Proof. by apply (bool_decide_unpack _). Qed.

(** X16. After [check_achievements], an achievement of the table is unlocked
    exactly when it was unlocked before or its condition holds in the state
    the function was called on; and it is announced, with its XP, exactly
    when it was locked and its condition holds. *)
Theorem check_achievements_unlocks_exactly (s : session) (a : achievement) :
  a ∈ ACHIEVEMENTS →
  (a_title a ∈ ach (check_achievements s).1
   ↔ a_title a ∈ ach s ∨ a_cond a s = true)
  ∧ ((a_title a, a_xp a) ∈ (check_achievements s).2
     ↔ (a_title a ∉ ach s) ∧ a_cond a s = true).
Proof.
  intros Ha.
  assert (Hu : a_title a ∈ ach (check_achievements s).1
               ↔ a_title a ∈ ach s ∨ a_cond a s = true).
  { apply check_achievements_in_unlocks; [|apply ACHIEVEMENTS_titles_differ|done].
    intros. by apply ACHIEVEMENTS_ignore_rewards. }
  split; [done|].
  destruct (check_achievements_spec s) as (newly & E & Hnd & Hfresh & Hrows).
  rewrite E in Hu |- *. cbn [fst snd] in *. simpl in Hu.
  rewrite elem_of_union, elem_of_list_to_set in Hu.
  split.
  - intros Hin.
    assert (Ht : a_title a ∈ newly.*1).
    { apply list_elem_of_fmap. by exists (a_title a, a_xp a). }
    pose proof (Hfresh _ Ht) as Hnew. split; [done|].
    destruct Hu as [Hu _]. destruct Hu as [?|?]; [by right|done|done].
  - intros [Hnew Hc].
    destruct Hu as [_ Hu]. destruct (Hu (or_intror Hc)) as [?|Ht]; [done|].
    apply list_elem_of_fmap in Ht as ([t x] & Et & Hp). simpl in Et. subst t.
    destruct (Hrows _ Hp) as (a' & Ha' & Ht' & Hx'). simpl in Ht', Hx'.
    assert (a' = a); [|by subst].
    clear -Ha Ha' Ht'. unfold ACHIEVEMENTS in Ha, Ha'.
    repeat (apply elem_of_cons in Ha as [->|Ha]);
      repeat (apply elem_of_cons in Ha' as [->|Ha']);
      try done; by apply elem_of_nil in Ha || apply elem_of_nil in Ha'.
Qed.

Lemma check_achievements_unlocks_exactly_witness :
  let hot := Achievement "Hot Streak" "Daily streak 5+"
               (λ ss, bool_decide (5 ≤ daily_streak ss)) 50 in
  (a_title hot ∈ ach (check_achievements seasoned).1
   ↔ a_title hot ∈ ach seasoned ∨ a_cond hot seasoned = true)
  ∧ ((a_title hot, a_xp hot) ∈ (check_achievements seasoned).2
     ↔ (a_title hot ∉ ach seasoned) ∧ a_cond hot seasoned = true).
Proof.
  apply (check_achievements_unlocks_exactly seasoned). unfold ACHIEVEMENTS. in_pattern.
Defined.
(** ** A failed attempt, call after call *)

Lemma gate_records_failure (now : clock) (s : session) :
  quiz_map_total_questions s ≤ quiz_map_qindex s →
  quiz_map_done s = false →
  Qle_bool 80 (accuracy_of (quiz_map_correct s) (quiz_map_total_questions s)) = false →
  let s' := after_gate (check_completion_gate now s) in
  history s' = history s ++ [attempt_record now s (5 * quiz_map_correct s)]
  ∧ quiz_count s' = quiz_count s + 1
  ∧ quiz_score s' = quiz_score s + quiz_map_correct s
  ∧ quiz_total s' = quiz_total s + quiz_map_total_questions s
  ∧ (quiz_map_total_questions s' = quiz_map_total_questions s
     ∧ quiz_map_qindex s' = quiz_map_qindex s
     ∧ quiz_map_correct s' = quiz_map_correct s
     ∧ quiz_map_done s' = false)
  ∧ (subject s' = subject s ∧ chapter s' = chapter s)
  ∧ coins s' = coins s ∧ game_credits s' = game_credits s.
Proof.
  intros Hq Hd Hf. unfold check_completion_gate.
  rewrite bool_decide_eq_true_2, Hd by done. cbn [andb negb]. rewrite Hf.
  quests_frame_by update_quests_frame.
  match goal with |- context [check_achievements ?x] =>
    destruct (check_achievements_spec x) as (newly & -> & _) end.
  cbn -[Z.mul Z.add]. by rewrite Hd.
Qed.

(** X17. An attempt that is finished with less than 80% stays open: [n] calls
    of the gate in a row append [n] copies of its record to the history and
    count [n] quizzes, [n] times its score and [n] times its total in the
    lifetime statistics; no coin and no credit is paid. *)
Theorem failed_attempt_recorded_at_every_call (now : clock) (n : nat) (s : session) :
  quiz_map_total_questions s ≤ quiz_map_qindex s →
  quiz_map_done s = false →
  100 * quiz_map_correct s < 80 * Z.max 1 (quiz_map_total_questions s) →
  let s' := gate_times n now s in
  history s' = history s ++ replicate n (attempt_record now s (5 * quiz_map_correct s))
  ∧ quiz_count s' = quiz_count s + Z.of_nat n
  ∧ quiz_score s' = quiz_score s + Z.of_nat n * quiz_map_correct s
  ∧ quiz_total s' = quiz_total s + Z.of_nat n * quiz_map_total_questions s
  ∧ quiz_map_done s' = false
  ∧ coins s' = coins s ∧ game_credits s' = game_credits s.
Proof.
  intros Hq Hd Hlow. cbn zeta.
  assert (Hf : Qle_bool 80 (accuracy_of (quiz_map_correct s) (quiz_map_total_questions s))
               = false).
  { destruct (Qle_bool 80 _) eqn:E; [|done]. apply gate_threshold in E. lia. }
  revert s Hq Hd Hlow Hf. induction n as [|n IH]; intros s Hq Hd Hlow Hf.
  { simpl. rewrite app_nil_r. repeat split; solve [done|lia]. }
  cbn [gate_times].
  destruct (gate_records_failure now s Hq Hd Hf)
    as (Hh & Hc & Hs & Ht & (HT & Hi & HC & Hd') & (Hsub & Hch) & Hco & Hcr).
  set (s1 := after_gate (check_completion_gate now s)) in *.
  assert (Hrec : ∀ xp, attempt_record now s1 xp = attempt_record now s xp).
  { intros xp. unfold attempt_record. by rewrite Hsub, Hch, HT, HC. }
  destruct (IH s1) as (-> & -> & -> & -> & -> & -> & ->).
  { by rewrite HT, Hi. } { done. } { by rewrite HT, HC. } { by rewrite HT, HC. }
  rewrite Hh, Hc, Hs, Ht, HT, HC, Hrec, Hco, Hcr, <- app_assoc.
  repeat split; solve [done|lia].
Qed.

Lemma failed_attempt_recorded_at_every_call_witness :
  let s' := gate_times 3 noon three_of_five_correct in
  history s' = history three_of_five_correct
               ++ replicate 3 (attempt_record noon three_of_five_correct
                                 (5 * quiz_map_correct three_of_five_correct))
  ∧ quiz_count s' = quiz_count three_of_five_correct + Z.of_nat 3
  ∧ quiz_score s' = quiz_score three_of_five_correct
                    + Z.of_nat 3 * quiz_map_correct three_of_five_correct
  ∧ quiz_total s' = quiz_total three_of_five_correct
                    + Z.of_nat 3 * quiz_map_total_questions three_of_five_correct
  ∧ quiz_map_done s' = false
  ∧ coins s' = coins three_of_five_correct
  ∧ game_credits s' = game_credits three_of_five_correct.
Proof.
  apply (failed_attempt_recorded_at_every_call noon 3 three_of_five_correct);
    by vm_compute.
Defined.
(** ** Coins and credits never run below zero *)

Lemma check_completion_gate_solvent (now : clock) (s : session) :
  solvent s → solvent (after_gate (check_completion_gate now s)).
Proof.
  intros [Hc Hg]. unfold check_completion_gate.
  destruct (bool_decide (quiz_map_total_questions s ≤ quiz_map_qindex s)
            && negb (quiz_map_done s)); [|done].
  quests_frame_by update_quests_frame.
  destruct (Qle_bool 80 _);
    match goal with |- context [check_achievements ?x] =>
      destruct (check_achievements_spec x) as (newly & -> & _) end;
    unfold solvent; simpl; lia.
Qed.

Lemma step_solvent (now : clock) (o : op) (s : session) :
  stocked o → solvent s → solvent (step now o s).1.
Proof.
  intros Ho H. destruct o; unfold step; cbn [fst].
  - unfold touch_daily_streak.
    destruct (last_active_date s); repeat case_bool_decide; exact H.
  - quests_frame_by update_quests_frame. exact H.
  - destruct (grant_quest_rewards_grows completed_ids s) as (x & c & -> & _ & Hc).
    destruct H as [H1 H2]. split; simpl; [lia|done].
  - destruct (check_achievements_spec s) as (newly & -> & _). exact H.
  - unfold apply_answer_and_move. destruct is_correct; [|exact H].
    quests_frame_by update_quests_frame. exact H.
  - by apply check_completion_gate_solvent.
  - exact H.
  - unfold answer_click. case_bool_decide; [|done].
    destruct (quiz_items s !! _); [|done]. case_bool_decide; [|done].
    unfold apply_answer_and_move. destruct (bool_decide _); [|exact H].
    quests_frame_by update_quests_frame. exact H.
  - exact H.
  - destruct (quest_progress_view_frame (utc_today now) s)
      as (x & c & u & -> & _ & Hc & _).
    destruct H as [H1 H2]. split; simpl; [lia|done].
  - unfold sudoku_start. destruct (negb (sudoku_started s)); [|done]. cbn [andb].
    case_bool_decide; [|done]. destruct H as [H1 H2]. split; simpl; [done|lia].
  - unfold sudoku_check. destruct (_ && _); [|done].
    destruct H as [H1 H2]. split; simpl; [done|lia].
  - simpl in Ho. destruct H as [H1 H2]. unfold buy. case_bool_decide; [|done].
    unfold SHOP_ITEMS in Ho.
    repeat (apply elem_of_cons in Ho as [->|Ho]; [split; simpl in *; lia|]).
    by apply elem_of_nil in Ho.
Qed.

(** X18. Along any session in which every purchase is an item of the shop,
    coins and credits that start at zero or above stay there: the shop
    sells only what the coins cover, and Sudoku starts only on a credit. *)
Theorem balances_never_negative (ops : list (clock * op)) (s : session) :
  Forall (λ e, stocked e.2) ops →
  0 ≤ coins s → 0 ≤ game_credits s →
  0 ≤ coins (run_session ops s).1 ∧ 0 ≤ game_credits (run_session ops s).1.
Proof.
  intros Hops Hc Hg. assert (H : solvent s) by done. clear Hc Hg.
  revert s H. induction ops as [|[now o] ops IH]; intros s H; [done|].
  apply Forall_cons in Hops as [Ho Hops]. simpl in Ho.
  cbn [run_session]. pose proof (step_solvent now o s Ho H) as H1.
  destruct (step now o s) as [s1 n1]. simpl in H1.
  pose proof (IH Hops s1 H1) as H2.
  by destruct (run_session ops s1) as [s2 n2].
Qed.

Lemma balances_never_negative_witness :
  0 ≤ coins (run_session busy_day (init_state 100)).1
  ∧ 0 ≤ game_credits (run_session busy_day (init_state 100)).1.
Proof.
  apply (balances_never_negative busy_day (init_state 100)).
  - unfold busy_day. repeat (apply Forall_cons; split; [simpl; try exact I; in_pattern|]).
    apply Forall_nil_2.
  - by vm_compute.
  - by vm_compute.
Defined.
(** ** The quests tab on the morning after *)

Lemma claim_quests_completed (cur : string → Z) (mark : Z) (quests : list quest)
    (s : session) (q : quest) :
  q ∈ quests → q_target q ≤ cur (q_key q) → (q_id q, mark) ∉ quest_done s →
  q_id q ∈ (claim_quests cur mark quests s).2.
Proof.
  unfold claim_quests. intros Hq Hr Hm.
  cut (∀ (s0 : session) (l : list string),
         (q_id q ∈ l ∨ (q_id q, mark) ∉ quest_done s0) →
         q_id q ∈ (foldl (claim_quest cur mark) (s0, l) quests).2).
  { intros H. apply H. by right. }
  assert (Hkeep : ∀ qs (s0 : session) (l : list string),
            q_id q ∈ l → q_id q ∈ (foldl (claim_quest cur mark) (s0, l) qs).2).
  { induction qs as [|p qs IH]; intros s0 l Hl; [done|].
    rewrite claim_quest_cons. destruct (_ && _); apply IH; [|done].
    apply elem_of_app. by left. }
  clear Hm s. induction quests as [|p quests IH]; intros s0 l H.
  { by apply elem_of_nil in Hq. }
  rewrite claim_quest_cons.
  destruct H as [Hl|Hm].
  { destruct (_ && _); apply Hkeep; [|done]. apply elem_of_app. by left. }
  apply elem_of_cons in Hq as [<-|Hq].
  - rewrite bool_decide_eq_true_2, (bool_decide_eq_false_2 _ Hm) by done.
    cbn [andb negb]. apply Hkeep, elem_of_app. right. apply list_elem_of_here.
  - destruct (bool_decide (q_target p ≤ cur (q_key p))
              && negb (bool_decide ((q_id p, mark) ∈ quest_done s0))).
    + destruct (decide (q_id p = q_id q)) as [E|E].
      * apply Hkeep, elem_of_app. right. rewrite E. apply list_elem_of_here.
      * apply IH; [done|]. right. simpl.
        rewrite elem_of_union, elem_of_singleton. intros [[= ?]|?]; done.
    + apply IH; [done|by right].
Qed.

Lemma grant_quest_rewards_pays (ids : list string) (s : session) (q : quest) :
  q ∈ DAILY_QUESTS ++ WEEKLY_QUESTS → q_id q ∈ ids →
  total_xp s + q_reward_xp q ≤ total_xp (grant_quest_rewards ids s)
  ∧ coins s + q_reward_coins q ≤ coins (grant_quest_rewards ids s).
Proof.
  unfold grant_quest_rewards. intros Hq Hid.
  assert (Hpos : Forall (λ q, 0 ≤ q_reward_xp q ∧ 0 ≤ q_reward_coins q)
                   (DAILY_QUESTS ++ WEEKLY_QUESTS)).
  { repeat constructor; simpl; lia. }
  set (f := λ (s : session) (q : quest),
              if bool_decide (q_id q ∈ ids)
              then with_coins (coins s + q_reward_coins q)
                     (with_total_xp (total_xp s + q_reward_xp q) s)
              else s).
  assert (Hmono : ∀ qs, Forall (λ q, 0 ≤ q_reward_xp q ∧ 0 ≤ q_reward_coins q) qs →
            ∀ s0, total_xp s0 ≤ total_xp (foldl f s0 qs)
                  ∧ coins s0 ≤ coins (foldl f s0 qs)).
  { induction 1 as [|p qs [Hx Hc] _ IH]; intros s0; [done|].
    cbn [foldl]. destruct (IH (f s0 p)) as [H1 H2].
    unfold f in H1 at 1, H2 at 1. case_bool_decide; simpl in H1, H2; lia. }
  revert s Hq. induction Hpos as [|p qs [Hx Hc] Hqs IH]; intros s Hq.
  { by apply elem_of_nil in Hq. }
  cbn [foldl]. apply elem_of_cons in Hq as [<-|Hq].
  - destruct (Hmono qs Hqs (f s q)) as [H1 H2].
    unfold f in H1 at 1, H2 at 1. rewrite bool_decide_eq_true_2 in H1, H2 by done.
    simpl in H1, H2. done.
  - destruct (IH (f s p) Hq) as [H1 H2].
    unfold f in H1 at 1, H2 at 1. case_bool_decide; simpl in H1, H2; lia.
Qed.

Lemma quest_progress_view_pays_daily (today : Z) (s : session) (q : quest) :
  q ∈ DAILY_QUESTS →
  q_target q ≤ daily_get (quests_daily_progress s) (q_key q) →
  (q_id q, today) ∉ quest_done s →
  total_xp s + q_reward_xp q ≤ total_xp (quest_progress_view today s)
  ∧ coins s + q_reward_coins q ≤ coins (quest_progress_view today s).
Proof.
  intros Hq Hr Hm. unfold quest_progress_view.
  pose proof (claim_quests_completed _ today DAILY_QUESTS s q Hq Hr Hm) as Hin.
  destruct (claim_quests_spec (daily_get (quests_daily_progress s)) today
              DAILY_QUESTS s) as (u1 & E1 & _).
  destruct (claim_quests _ today DAILY_QUESTS s) as [s1 c1]. simpl in E1, Hin. subst s1.
  rewrite bool_decide_eq_true_2 by (intros ->; by apply elem_of_nil in Hin).
  destruct (grant_quest_rewards_pays c1 (with_quest_done u1 s) q) as [Hx Hc];
    [apply elem_of_app; by left|done|].
  simpl in Hx, Hc.
  set (s2 := grant_quest_rewards c1 (with_quest_done u1 s)) in *.
  destruct (claim_quests_spec (weekly_get (quests_weekly_progress s))
              (default today (week_start (quests_weekly_progress s)))
              WEEKLY_QUESTS s2) as (u3 & E3 & _).
  destruct (claim_quests _ _ WEEKLY_QUESTS s2) as [s3 c3]. simpl in E3. subst s3.
  case_bool_decide.
  - destruct (grant_quest_rewards_grows c3 (with_quest_done u3 s2))
      as (x & c & -> & Hx' & Hc'). simpl in *. lia.
  - simpl. lia.
Qed.

Lemma claim_quests_marks (cur : string → Z) (mark : Z) (quests : list quest)
    (s : session) (k : string * Z) :
  k ∈ quest_done (claim_quests cur mark quests s).1 →
  k ∈ quest_done s ∨ ∃ p, p ∈ quests ∧ k = (q_id p, mark).
Proof.
  unfold claim_quests. generalize (@nil string). revert s.
  induction quests as [|p quests IH]; intros s l; [by left|].
  rewrite claim_quest_cons. destruct (_ && _).
  - intros [Hk|(p' & Hp' & ->)]%IH.
    + simpl in Hk. apply elem_of_union in Hk as [->%elem_of_singleton|Hk]; [|by left].
      right. exists p. split; [apply list_elem_of_here|done].
    + right. exists p'. split; [by apply list_elem_of_further|done].
  - intros [Hk|(p' & Hp' & ->)]%IH; [by left|].
    right. exists p'. split; [by apply list_elem_of_further|done].
Qed.

Lemma quest_progress_view_marks (today : Z) (s : session) (k : string * Z) :
  k ∈ quest_done (quest_progress_view today s) →
  k ∈ quest_done s
  ∨ (∃ p, p ∈ DAILY_QUESTS ∧ k = (q_id p, today))
  ∨ (∃ p, p ∈ WEEKLY_QUESTS ∧ k.1 = q_id p).
Proof.
  unfold quest_progress_view.
  pose proof (claim_quests_marks (daily_get (quests_daily_progress s)) today
                DAILY_QUESTS s k) as H1.
  destruct (claim_quests _ today DAILY_QUESTS s) as [s1 c1]. simpl in H1.
  set (s2 := if bool_decide (c1 ≠ []) then grant_quest_rewards c1 s1 else s1).
  assert (E2 : quest_done s2 = quest_done s1).
  { subst s2. case_bool_decide; [|done].
    by destruct (grant_quest_rewards_grows c1 s1) as (x & c & -> & _). }
  pose proof (claim_quests_marks (weekly_get (quests_weekly_progress s))
                (default today (week_start (quests_weekly_progress s)))
                WEEKLY_QUESTS s2 k) as H3.
  destruct (claim_quests _ _ WEEKLY_QUESTS s2) as [s3 c3]. simpl in H3.
  rewrite E2 in H3.
  assert (E4 : quest_done (if bool_decide (c3 ≠ [])
                           then grant_quest_rewards c3 s3 else s3) = quest_done s3).
  { case_bool_decide; [|done].
    by destruct (grant_quest_rewards_grows c3 s3) as (x & c & -> & _). }
  rewrite E4. intros [Hk|(p & Hp & ->)]%H3.
  - apply H1 in Hk as [?|?]; [by left|right; by left].
  - right. right. by exists p.
Qed.

(** X19. The quests tab reads the daily counters without looking at their
    reset date, which only [update_quests] refreshes. A daily quest whose
    counter has reached its target is therefore paid on the day the tab is
    opened and paid again when the tab is opened the next day, the counters
    being what they were. *)
Theorem daily_quest_paid_again_next_morning (day : Z) (s : session) (q : quest) :
  q ∈ DAILY_QUESTS →
  q_target q ≤ daily_get (quests_daily_progress s) (q_key q) →
  (q_id q, day) ∉ quest_done s →
  (q_id q, day + 1) ∉ quest_done s →
  total_xp s + 2 * q_reward_xp q ≤ total_xp (two_mornings day s)
  ∧ coins s + 2 * q_reward_coins q ≤ coins (two_mornings day s)
  ∧ quests_daily_progress (two_mornings day s) = quests_daily_progress s.
Proof.
  intros Hq Hr Hm1 Hm2. unfold two_mornings.
  destruct (quest_progress_view_pays_daily day s q Hq Hr Hm1) as [Hx1 Hc1].
  assert (Hd1 : quests_daily_progress (quest_progress_view day s)
                = quests_daily_progress s).
  { by destruct (quest_progress_view_frame day s) as (x & c & u & -> & _). }
  destruct (quest_progress_view_pays_daily (day + 1) (quest_progress_view day s) q)
    as [Hx2 Hc2]; [done|by rewrite Hd1| |].
  { intros [Hk|[(p & Hp & [= _ ?])|(p & Hp & E)]]%quest_progress_view_marks;
      [done|lia|].
    simpl in E. clear -Hq Hp E. unfold DAILY_QUESTS in Hq. unfold WEEKLY_QUESTS in Hp.
    repeat (apply elem_of_cons in Hq as [->|Hq]);
      repeat (apply elem_of_cons in Hp as [->|Hp]);
      try done; by apply elem_of_nil in Hq || apply elem_of_nil in Hp. }
  split; [lia|]. split; [lia|].
  by destruct (quest_progress_view_frame (day + 1) (quest_progress_view day s))
    as (x & c & u & -> & _).
Qed.

Lemma daily_quest_paid_again_next_morning_witness :
  let q := Quest "q_daily_quiz" "Daily Quizzer" 1 "daily_quizzes" 20 5 in
  total_xp quiz_done_yesterday + 2 * q_reward_xp q
  ≤ total_xp (two_mornings 99 quiz_done_yesterday)
  ∧ coins quiz_done_yesterday + 2 * q_reward_coins q
    ≤ coins (two_mornings 99 quiz_done_yesterday)
  ∧ quests_daily_progress (two_mornings 99 quiz_done_yesterday)
    = quests_daily_progress quiz_done_yesterday.
Proof.
  apply (daily_quest_paid_again_next_morning 99 quiz_done_yesterday).
  - unfold DAILY_QUESTS. in_pattern.
  - by vm_compute.
  - by vm_compute.
  - by vm_compute.
Defined.

(** ** Badges, ranks and levels *)

(** X20. Both badge ladders are read from the top and stop at the first rung
    the number of quizzes has reached; as their thresholds go down, the
    badge is that of the highest threshold reached, and the name for no
    badge is returned below the lowest one: below 5 quizzes in the
    adventure, below 10 in the dashboard. *)
Theorem compute_badge_highest_rung (total : Z) :
  (total < 5 ∧ compute_badge total = "Novice"%string
   ∨ ∃ threshold, highest_reached BADGE_LADDER total (threshold, compute_badge total))
  ∧ (total < 10 ∧ Dashboard.compute_badge total = "No Badge Yet"%string
     ∨ ∃ threshold, highest_reached Dashboard.BADGE_LADDER total
                      (threshold, Dashboard.compute_badge total)).
Proof.
  split.
  - unfold compute_badge, BADGE_LADDER, highest_reached. cbn [first_rung].
    assert (total < 5 ∨ 5 ≤ total < 10 ∨ 10 ≤ total < 20 ∨ 20 ≤ total < 30
            ∨ 30 ≤ total < 50 ∨ 50 ≤ total < 100 ∨ 100 ≤ total)
      as [H|[H|[H|[H|[H|[H|H]]]]]] by lia;
      settle_thresholds; [by left|right..].
    + exists 5. split; [in_pattern|]. split; [simpl; lia|]. intros o Ho Hle. no_other_row Ho.
    + exists 10. split; [in_pattern|]. split; [simpl; lia|]. intros o Ho Hle. no_other_row Ho.
    + exists 20. split; [in_pattern|]. split; [simpl; lia|]. intros o Ho Hle. no_other_row Ho.
    + exists 30. split; [in_pattern|]. split; [simpl; lia|]. intros o Ho Hle. no_other_row Ho.
    + exists 50. split; [in_pattern|]. split; [simpl; lia|]. intros o Ho Hle. no_other_row Ho.
    + exists 100. split; [in_pattern|]. split; [simpl; lia|]. intros o Ho Hle. no_other_row Ho.
  - unfold Dashboard.compute_badge, Dashboard.BADGE_LADDER, highest_reached.
    cbn [first_rung].
    assert (total < 10 ∨ 10 ≤ total < 20 ∨ 20 ≤ total < 30
            ∨ 30 ≤ total < 50 ∨ 50 ≤ total)
      as [H|[H|[H|[H|H]]]] by lia;
      settle_thresholds; [by left|right..].
    + exists 10. split; [in_pattern|]. split; [simpl; lia|]. intros o Ho Hle. no_other_row Ho.
    + exists 20. split; [in_pattern|]. split; [simpl; lia|]. intros o Ho Hle. no_other_row Ho.
    + exists 30. split; [in_pattern|]. split; [simpl; lia|]. intros o Ho Hle. no_other_row Ho.
    + exists 50. split; [in_pattern|]. split; [simpl; lia|]. intros o Ho Hle. no_other_row Ho.
Qed.

Lemma levels_reached_mono (xp1 xp2 : Z) :
  xp1 ≤ xp2 → levels_reached xp1 ≤ levels_reached xp2.
Proof.
  intros H. unfold levels_reached. generalize LEVEL_XP. intros l.
  induction l as [|c l IH]; [done|]. rewrite !filter_cons.
  destruct (decide (c ≤ xp1)), (decide (c ≤ xp2)); cbn [length]; lia.
Qed.

Lemma compute_level_count (xp : Z) :
  compute_level xp = Z.max 1 (levels_reached xp).
Proof.
  unfold compute_level, levels_reached.
  let l := eval vm_compute in (enumerate LEVEL_XP) in
  change (enumerate LEVEL_XP) with l.
  change (Z.of_nat (length LEVEL_XP)) with 12.
  unfold LEVEL_XP. cbn [foldl].
  assert (xp < 0 ∨ 0 ≤ xp < 100 ∨ 100 ≤ xp < 250 ∨ 250 ≤ xp < 450
          ∨ 450 ≤ xp < 700 ∨ 700 ≤ xp < 1000 ∨ 1000 ≤ xp < 1400
          ∨ 1400 ≤ xp < 1850 ∨ 1850 ≤ xp < 2350 ∨ 2350 ≤ xp < 2900
          ∨ 2900 ≤ xp < 3500 ∨ 3500 ≤ xp < 4200 ∨ 4200 ≤ xp)
    as [H|[H|[H|[H|[H|[H|[H|[H|[H|[H|[H|[H|H]]]]]]]]]]]] by lia;
    repeat (rewrite filter_cons;
            first [rewrite decide_True by lia|rewrite decide_False by lia]);
    rewrite filter_nil; settle_thresholds; reflexivity.
Qed.

(** X21. The rank is that of the highest threshold of [RANKS] the XP has
    reached, and "Rookie" below zero. The level is the number of thresholds
    of [LEVEL_XP] the XP has reached, and 1 when it has reached none; it lies
    between 1 and 12 and never goes down when the XP goes up. *)
Theorem rank_and_level_follow_xp (xp : Z) :
  (xp < 0 ∧ compute_rank xp = "Rookie"%string
   ∨ ∃ threshold, highest_reached RANKS xp (threshold, compute_rank xp))
  ∧ compute_level xp = Z.max 1 (levels_reached xp)
  ∧ 1 ≤ compute_level xp ≤ 12
  ∧ (∀ more, xp ≤ more → compute_level xp ≤ compute_level more).
Proof.
  split; [|split; [|split]].
  - unfold compute_rank, RANKS, highest_reached. cbn [foldl].
    assert (xp < 0 ∨ 0 ≤ xp < 100 ∨ 100 ≤ xp < 300 ∨ 300 ≤ xp < 700
            ∨ 700 ≤ xp < 1200 ∨ 1200 ≤ xp < 2000 ∨ 2000 ≤ xp)
      as [H|[H|[H|[H|[H|[H|H]]]]]] by lia;
      settle_thresholds; [by left|right..].
    + exists 0. split; [in_pattern|]. split; [simpl; lia|]. intros o Ho Hle. no_other_row Ho.
    + exists 100. split; [in_pattern|]. split; [simpl; lia|]. intros o Ho Hle. no_other_row Ho.
    + exists 300. split; [in_pattern|]. split; [simpl; lia|]. intros o Ho Hle. no_other_row Ho.
    + exists 700. split; [in_pattern|]. split; [simpl; lia|]. intros o Ho Hle. no_other_row Ho.
    + exists 1200. split; [in_pattern|]. split; [simpl; lia|]. intros o Ho Hle. no_other_row Ho.
    + exists 2000. split; [in_pattern|]. split; [simpl; lia|]. intros o Ho Hle. no_other_row Ho.
  - apply compute_level_count.
  - rewrite compute_level_count. unfold levels_reached.
    pose proof (length_filter (λ cxp, cxp ≤ xp) LEVEL_XP) as H.
    change (length LEVEL_XP) with 12%nat in H. lia.
  - intros more H. rewrite !compute_level_count.
    pose proof (levels_reached_mono xp more H). lia.
Qed.
(** ** The quiz of a part, regenerated until it is valid *)

Lemma regenerate_spec (generate : nat → text) (left calls : nat) :
  let r := regenerate generate left (S calls) (generate calls) in
  (S calls ≤ r.2 ≤ S calls + left)%nat
  ∧ r.1 = generate (pred r.2)
  ∧ (∀ k, (calls ≤ k < pred r.2)%nat → validate_quiz_block (generate k) = false)
  ∧ (validate_quiz_block r.1 = true ∨ r.2 = (S calls + left)%nat).
Proof.
  revert calls. induction left as [|left IH]; intros calls; cbn [regenerate].
  - destruct (validate_quiz_block (generate calls)) eqn:E; simpl;
      (split; [lia|]); (split; [done|]); (split; [intros k Hk; lia|]);
      [by left|right; lia].
  - destruct (validate_quiz_block (generate calls)) eqn:E.
    + simpl. split; [lia|]. split; [done|]. split; [intros k Hk; lia|by left].
    + destruct (IH (S calls)) as (Hc & Hq & Hbad & Hend).
      set (r := regenerate generate left (S (S calls)) (generate (S calls))) in *.
      split; [lia|]. split; [done|]. split.
      * intros k Hk. destruct (decide (k = calls)) as [->|Hne]; [done|].
        apply Hbad. lia.
      * destruct Hend as [?|?]; [by left|right; lia].
Qed.

(** X22. For a part, [run_chapters] asks the model for a quiz once and then
    again while the answer is not valid, at most [retry_quiz] more times:
    it makes between 1 and [1 + retry_quiz] calls, every answer before the
    one it keeps was invalid, and the one it keeps is valid or the budget is
    spent. The records it yields are those of the answer it keeps, at most
    five when that answer is valid. *)
Theorem quiz_regenerated_within_budget (generate : nat → text) (retry_quiz : Z) :
  let '(quiz, parsed, calls) := quiz_of_part generate retry_quiz in
  (1 ≤ calls ≤ 1 + Z.to_nat retry_quiz)%nat
  ∧ quiz = generate (pred calls)
  ∧ (∀ k, (k < pred calls)%nat → validate_quiz_block (generate k) = false)
  ∧ (validate_quiz_block quiz = true ∨ calls = (1 + Z.to_nat retry_quiz)%nat)
  ∧ parsed = parse_quiz_block quiz
  ∧ (validate_quiz_block quiz = true → (length parsed ≤ 5)%nat).
Proof.
  unfold quiz_of_part.
  pose proof (regenerate_spec generate (Z.to_nat retry_quiz) 0) as H.
  destruct (regenerate generate (Z.to_nat retry_quiz) 1 (generate 0%nat))
    as [quiz calls].
  simpl in H. destruct H as (Hc & Hq & Hbad & Hend).
  split; [lia|]. split; [done|]. split; [intros k Hk; apply Hbad; lia|].
  split; [done|]. split; [done|].
  intros Hv. destruct (validate_quiz_block_inv quiz Hv) as (m & E & E5 & _).
  rewrite (parse_quiz_block_blocks quiz m E), <- E5. apply omap_length_le.
Qed.

(** The default budget of one retry, with a model that is down at first:
    two calls, and the five records of the second answer. *)
Example second_answer_is_kept :
  let '(quiz, parsed, calls) := quiz_of_part down_then_up 1 in
  calls = 2%nat ∧ quiz = five_good ∧ length parsed = 5%nat
  ∧ (quiz_of_part down_then_up 0).1.2 = [].
Proof. by vm_compute. Qed.
(** ** The texts of a record are trimmed lines *)

Lemma greedy_inv_class c (k : conts) prev s m :
  greedy c k prev s = Some m →
  ∃ a p s', s = a ++ s' ∧ Forall (λ x, c x = true) a ∧ k p s' = Some m.
Proof.
  revert prev. induction s as [|x s IH]; intros prev; simpl.
  { intros H. by exists [], prev, []. }
  destruct (c x) eqn:Ex.
  - destruct (greedy c k (Some x) s) as [m'|] eqn:E.
    + intros [= <-]. destruct (IH _ E) as (a & p & s' & -> & Ha & Hk).
      exists (x :: a), p, s'. split; [done|]. split; [by constructor|done].
    + intros H. by exists [], prev, (x :: s).
  - intros H. by exists [], prev, (x :: s).
Qed.

Lemma lstrip_suffix (s : text) : lstrip s `suffix_of` s.
Proof.
  induction s as [|x s IH]; simpl; [done|].
  destruct (is_space x); [by apply suffix_cons_r|done].
Qed.

Lemma lstrip_head (s : text) (y : N) : head (lstrip s) = Some y → is_space y = false.
Proof.
  induction s as [|x s IH]; simpl; [done|].
  destruct (is_space x) eqn:E; [done|]. simpl. by intros [= <-].
Qed.

Lemma lstrip_ink (y : N) (s : text) : is_space y = false → lstrip (s ++ [y]) ≠ [].
Proof.
  intros Hy. induction s as [|x s IH]; simpl; [by rewrite Hy|].
  by destruct (is_space x).
Qed.

Lemma strip_trimmed (s : text) :
  strip s ≠ [] → Forall (λ c, is_newline c = false) s → trimmed_line (strip s).
Proof.
  intros Hne Hs. unfold strip, rstrip in *.
  destruct (lstrip_suffix s) as [pre E].
  destruct (lstrip s) as [|y r] eqn:El; [done|].
  assert (Hy : is_space y = false) by (apply lstrip_head with s; by rewrite El).
  destruct (lstrip_suffix (reverse (y :: r))) as [pre2 E2].
  rewrite reverse_cons in E2 |- *.
  destruct (lstrip (reverse r ++ [y])) as [|z r2] eqn:El2.
  { by apply lstrip_ink in El2. }
  assert (Hz : is_space z = false).
  { apply lstrip_head with (reverse r ++ [y]). by rewrite El2. }
  (* [y :: r = reverse (z :: r2) ++ reverse pre2] *)
  apply (f_equal reverse) in E2.
  rewrite reverse_app, reverse_involutive, reverse_app in E2. simpl in E2.
  split; [|split].
  - rewrite E in Hs. apply Forall_app in Hs as [_ Hs].
    rewrite E2 in Hs. by apply Forall_app in Hs as [Hs _].
  - exists y. split; [|done].
    rewrite reverse_cons in E2 |- *.
    destruct (reverse r2) as [|h t]; simpl in *; [by injection E2 as <-|].
    by injection E2 as <-.
  - exists z. split; [|done]. rewrite reverse_cons. apply last_snoc.
Qed.

Lemma captured_line_trimmed (label qb : text) :
  captured (CAPTURED_LINE label) qb ≠ [] →
  trimmed_line (captured (CAPTURED_LINE label) qb).
Proof.
  unfold captured. destruct (search (CAPTURED_LINE label) qb) as [m|] eqn:Hm; [|done].
  intros Hne. apply strip_trimmed; [done|].
  apply search_from_inv in Hm as (a0 & p0 & s0 & -> & H).
  unfold CAPTURED_LINE in H. cbn [run] in H.
  destruct (at_bol p0); [|done].
  apply greedy_inv in H as (a1 & p1 & s1 & -> & H).
  destruct (eat label s1) as [s2|] eqn:E; [|done].
  apply greedy_inv in H as (a3 & p3 & s3 & -> & H).
  apply fmap_Some_inv in H as (m1 & H & ->).
  destruct s3 as [|y s3]; [done|].
  destruct (dot y) eqn:Hy; [|done].
  apply greedy_inv_class in H as (a & p5 & s5 & -> & Ha & H).
  apply fmap_Some_inv in H as (m2 & H & ->).
  unfold group1. cbn [g_start g_end set_start set_end].
  replace (length (y :: a ++ s5) - length s5)%nat with (length (y :: a))
    by (simpl; rewrite length_app; lia).
  change (y :: a ++ s5) with ((y :: a) ++ s5). rewrite take_app_length.
  constructor; [by apply negb_true_iff in Hy|].
  eapply Forall_impl; [exact Ha|]. intros c Hc. by apply negb_true_iff in Hc.
Qed.

Lemma parse_question_trimmed (qb : text) (it : item) :
  parse_question qb = Some it →
  Forall trimmed_line (question it :: answer it :: options it).
Proof.
  intros H. pose proof H as Hw. apply parse_question_well_formed in Hw.
  destruct Hw as (_ & a & b & c & Ho & _ & _ & _ & Hin).
  apply parse_question_Some in H as (E & Hq & Ha & Hb & Hc).
  assert (Hopts : Forall trimmed_line (options it)).
  { rewrite E. cbn [options].
    repeat (constructor; [by apply (captured_line_trimmed (py "[" ++ _ ++ py "]"))|]).
    constructor. }
  constructor.
  { rewrite E. cbn [question]. by apply (captured_line_trimmed (py "Question:")). }
  constructor; [|done].
  rewrite <- Ho in Hin. rewrite Forall_forall in Hopts. by apply Hopts.
Qed.

(** X23. In every record the parser returns, the question, the answer and
    the three options are trimmed lines: no line feed inside, and a
    character that is no white space at either end. *)
Theorem parsed_texts_are_trimmed_lines (t : text) (it : item) :
  it ∈ parse_quiz_block t →
  Forall trimmed_line (question it :: answer it :: options it).
Proof.
  unfold parse_quiz_block. destruct (negb (nonempty t)).
  { intros H. by apply elem_of_nil in H. }
  destruct (search QUIZ_RE t) as [m|].
  - intros (qb & _ & H)%list_elem_of_omap. by apply parse_question_trimmed in H.
  - intros H. by apply elem_of_nil in H.
Qed.

Lemma parsed_texts_are_trimmed_lines_witness :
  Forall trimmed_line
    [py "Speed is?"; py "distance/time";
     py "distance/time"; py "time/distance"; py "mass"].
Proof.
  apply (parsed_texts_are_trimmed_lines three_of_five
           (Item (py "Speed is?")
              [py "distance/time"; py "time/distance"; py "mass"]
              (py "distance/time") [] [] None)).
  replace (parse_quiz_block three_of_five) with three_records by (by vm_compute).
  do 2 apply list_elem_of_further. apply list_elem_of_here.
Defined.
(** ** Sudoku: what a valid group is *)

Lemma size_list_to_set_cons (x : Z) (l : list Z) :
  size (list_to_set (C := gset Z) (x :: l))
  = if decide (x ∈ l) then size (list_to_set (C := gset Z) l)
    else S (size (list_to_set (C := gset Z) l)).
Proof.
  cbn [list_to_set]. destruct (decide (x ∈ l)) as [Hin|Hin].
  - f_equal. apply set_eq. intros y.
    rewrite elem_of_union, elem_of_singleton, elem_of_list_to_set.
    split; [intros [->|?]; done|by right].
  - rewrite size_union, size_singleton; [done|].
    apply disjoint_singleton_l. by rewrite elem_of_list_to_set.
Qed.

Lemma size_list_to_set_le (l : list Z) :
  (size (list_to_set (C := gset Z) l) ≤ length l)%nat.
Proof.
  induction l as [|x l IH]; [done|].
  rewrite size_list_to_set_cons. simpl. destruct (decide (x ∈ l)); lia.
Qed.

Lemma length_as_set_NoDup (l : list Z) :
  length l = size (list_to_set (C := gset Z) l) ↔ NoDup l.
Proof.
  split; [|intros H; by rewrite size_list_to_set].
  induction l as [|x l IH]; [constructor|].
  rewrite size_list_to_set_cons. simpl.
  pose proof (size_list_to_set_le l).
  destruct (decide (x ∈ l)); [lia|]. intros [= H']. constructor; auto.
Qed.

Lemma valid_group_spec (group : list Z) :
  valid_group group = true
  ↔ NoDup (filter (λ x, x ≠ 0) group)
    ∧ Forall (λ x, 1 ≤ x ≤ 9) (filter (λ x, x ≠ 0) group).
Proof.
  unfold valid_group. cbn zeta. rewrite andb_true_iff, bool_decide_eq_true.
  rewrite length_as_set_NoDup, forallb_forall, Forall_forall.
  split; intros [H1 H2]; (split; [done|]); intros x Hx.
  - eapply bool_decide_eq_true_1, H2. by apply list_elem_of_In.
  - apply bool_decide_eq_true_2, H2. by apply list_elem_of_In.
Qed.

Lemma valid_group_digits (group : list Z) :
  group ≡ₚ digits → valid_group group = true.
Proof.
  intros H. apply valid_group_spec. rewrite H. split.
  - by apply (bool_decide_unpack _).
  - by apply (bool_decide_unpack _).
Qed.

Lemma full_group_digits (group : list Z) :
  valid_group group = true → 0 ∉ group → length group = 9%nat →
  group ≡ₚ digits.
Proof.
  intros Hv H0 Hlen. apply valid_group_spec in Hv.
  assert (E : filter (λ x, x ≠ 0) group = group).
  { clear -H0. induction group as [|x l IH]; [done|].
    rewrite not_elem_of_cons in H0. destruct H0 as [Hx Hl].
    rewrite filter_cons, decide_True by done. by rewrite IH. }
  rewrite E in Hv. destruct Hv as [Hnd Hr].
  apply submseteq_length_Permutation; [|by rewrite Hlen].
  apply NoDup_submseteq; [done|]. intros x Hx.
  rewrite Forall_forall in Hr. specialize (Hr x Hx). unfold digits.
  assert (x = 1 ∨ x = 2 ∨ x = 3 ∨ x = 4 ∨ x = 5 ∨ x = 6 ∨ x = 7 ∨ x = 8 ∨ x = 9)
    as [->|[->|[->|[->|[->|[->|[->|[->| ->]]]]]]]] by lia; in_pattern.
Qed.

(** Setting cells to 0 keeps a group valid. *)
Lemma valid_group_dimmed (dim lit : list Z) :
  Forall2 (λ x' x, x' = x ∨ x' = 0) dim lit →
  valid_group lit = true → valid_group dim = true.
Proof.
  intros H. rewrite !valid_group_spec.
  assert (Hsub : filter (λ x, x ≠ 0) dim `sublist_of` filter (λ x, x ≠ 0) lit).
  { induction H as [|x' x dim lit [->| ->] _ IH]; [done| |].
    - rewrite !filter_cons. destruct (decide (x ≠ 0)); [by apply sublist_skip|done].
    - rewrite !filter_cons. rewrite decide_False by (by intros ?).
      destruct (decide (x ≠ 0)); [by apply sublist_cons|done]. }
  intros [Hnd Hr]. split; [by eapply sublist_NoDup|].
  rewrite Forall_forall in Hr |- *. intros x Hx. apply Hr.
  by eapply elem_of_sublist.
Qed.
Lemma all_valid_true (groups : list (option (list Z))) :
  all_valid groups = Some true
  ↔ Forall (λ og, ∃ g, og = Some g ∧ valid_group g = true) groups.
Proof.
  induction groups as [|[g|] groups IH]; cbn [all_valid].
  - split; [constructor|done].
  - destruct (valid_group g) eqn:E.
    + rewrite IH. split.
      * intros H. constructor; [by exists g|done].
      * by intros [_ H]%Forall_cons.
    + split; [done|]. intros [(g' & [= <-] & Hv) _]%Forall_cons. congruence.
  - split; [done|]. by intros [(g' & ? & _) _]%Forall_cons.
Qed.

Lemma boxes_unfold (board : list (list Z)) :
  (br ← seq 0 3; bc ← seq 0 3; [read board (box_cells br bc)])
  = [read board (box_cells 0 0); read board (box_cells 0 1); read board (box_cells 0 2);
     read board (box_cells 1 0); read board (box_cells 1 1); read board (box_cells 1 2);
     read board (box_cells 2 0); read board (box_cells 2 1); read board (box_cells 2 2)].
Proof. done. Qed.

Lemma validate_sudoku_true (board : list (list Z)) :
  validate_sudoku board = Some true
  ↔ Forall (λ row, valid_group row = true) board
    ∧ (∀ c, (c < 9)%nat →
         ∃ g, read board (column_cells c) = Some g ∧ valid_group g = true)
    ∧ (∀ br bc, (br < 3)%nat → (bc < 3)%nat →
         ∃ g, read board (box_cells br bc) = Some g ∧ valid_group g = true).
Proof.
  unfold validate_sudoku. rewrite all_valid_true, !Forall_app, !Forall_fmap.
  rewrite Forall_seq, boxes_unfold.
  split.
  - intros (Hr & Hc & Hb). split; [|split].
    + eapply Forall_impl; [exact Hr|]. intros row (g & [= <-] & Hv). done.
    + intros c Hc'. apply Hc. lia.
    + intros br bc Hbr Hbc.
      repeat (apply Forall_cons in Hb as [? Hb]).
      destruct br as [|[|[|br]]], bc as [|[|[|bc]]]; solve [done|lia].
  - intros (Hr & Hc & Hb). split; [|split].
    + eapply Forall_impl; [exact Hr|]. intros row Hv. by exists row.
    + intros c Hc'. apply Hc. lia.
    + repeat (constructor; [apply Hb; lia|]). constructor.
Qed.
(** ** Sudoku: the button "Check" *)

Lemma read_elem_of (board : list (list Z)) (cells : list (nat * nat))
    (g : list Z) (x : Z) :
  read board cells = Some g → x ∈ g → ∃ row, row ∈ board ∧ x ∈ row.
Proof.
  unfold read. intros H%mapM_Some_1 Hx.
  apply list_elem_of_lookup in Hx as [k Hk].
  destruct (Forall2_lookup_r _ _ _ _ _ H Hk) as ([r c] & _ & Hc).
  unfold cell in Hc. simpl in Hc.
  destruct (board !! r) as [row|] eqn:Er; [|done]. simpl in Hc.
  exists row. split; by eapply list_elem_of_lookup_2.
Qed.

Lemma full_grid_solution (grid : list (list Z)) :
  length grid = 9%nat →
  Forall (λ row, length row = 9%nat ∧ 0 ∉ row) grid →
  validate_sudoku grid = Some true →
  sudoku_solution grid.
Proof.
  intros Hlen Hfull (Hr & Hc & Hb)%validate_sudoku_true.
  assert (Hz : ∀ cells g, read grid cells = Some g → 0 ∉ g).
  { intros cells g Hg H0. destruct (read_elem_of _ _ _ _ Hg H0) as (row & Hrow & Hin).
    rewrite Forall_forall in Hfull. by destruct (Hfull row Hrow). }
  split; [done|]. split; [|split].
  - rewrite Forall_forall in Hr, Hfull |- *. intros row Hrow.
    destruct (Hfull row Hrow). by apply full_group_digits; [apply Hr|..].
  - intros c Hc'. destruct (Hc c Hc') as (g & Hg & Hv). exists g. split; [done|].
    apply full_group_digits; [done|by eapply Hz|].
    apply length_mapM in Hg. by rewrite <- Hg.
  - intros br bc Hbr Hbc. destruct (Hb br bc Hbr Hbc) as (g & Hg & Hv).
    exists g. split; [done|].
    apply full_group_digits; [done|by eapply Hz|].
    apply length_mapM in Hg. rewrite <- Hg.
    destruct br as [|[|[|br]]], bc as [|[|[|bc]]]; solve [done|lia].
Qed.

(** X24. The button "Check" changes the session only when a game is started
    and the grid of clues and entries is a solution: nine rows, nine
    columns and nine boxes that each hold the digits 1 to 9 once, with every
    clue of the puzzle in its place. *)
Theorem check_rewards_only_solutions (current user : list (list Z)) (s : session) :
  sudoku_check (solved current user) s ≠ s →
  sudoku_started s = true
  ∧ ∃ grid, combined current user = Some grid
            ∧ sudoku_solution grid
            ∧ ∀ i j clue, (i < 9)%nat → (j < 9)%nat →
                cell current i j = Some clue → clue ≠ 0 →
                cell grid i j = Some clue.
Proof.
  unfold sudoku_check. destruct (sudoku_started s); [|done]. cbn [andb].
  destruct (solved current user) eqn:Hs; [|done]. intros _. split; [done|].
  unfold solved in Hs. destruct (combined current user) as [grid|] eqn:Hg; [|done].
  apply andb_prop in Hs as [Hfull Hv].
  apply bool_decide_eq_true in Hv. exists grid. split; [done|].
  unfold combined in Hg. apply mapM_Some_1 in Hg.
  assert (Hrows : Forall (λ row, length row = 9%nat) grid).
  { apply Forall_forall. intros row Hrow.
    apply list_elem_of_lookup in Hrow as [i Hi].
    destruct (Forall2_lookup_r _ _ _ _ _ Hg Hi) as (i' & _ & Hrow).
    apply length_mapM in Hrow. by rewrite <- Hrow. }
  split.
  - apply full_grid_solution; [| |done].
    + apply Forall2_length in Hg. by rewrite <- Hg.
    + apply negb_true_iff in Hfull. rewrite Forall_forall in Hrows |- *.
      intros row Hrow. split; [by apply Hrows|]. intros H0.
      assert (existsb (λ row, bool_decide (0 ∈ row)) grid = true); [|congruence].
      apply existsb_exists. exists row. split; [by apply list_elem_of_In|].
      by apply bool_decide_eq_true_2.
  - intros i j clue Hi Hj Hc Hne.
    destruct (Forall2_lookup_l _ _ _ i i Hg) as (row & Hrow & Hm).
    { by apply lookup_seq. }
    apply mapM_Some_1 in Hm.
    destruct (Forall2_lookup_l _ _ _ j j Hm) as (v & Hv' & Hcell).
    { by apply lookup_seq. }
    rewrite Hc in Hcell. simpl in Hcell.
    rewrite bool_decide_eq_true_2 in Hcell by done. injection Hcell as <-.
    unfold cell. by rewrite Hrow.
Qed.

Lemma check_rewards_only_solutions_witness :
  sudoku_started (sudoku_start (init_state 100)) = true
  ∧ ∃ grid, combined (generate_sudoku sample_draws) (full_board sample_draws) = Some grid
            ∧ sudoku_solution grid
            ∧ ∀ i j clue, (i < 9)%nat → (j < 9)%nat →
                cell (generate_sudoku sample_draws) i j = Some clue → clue ≠ 0 →
                cell grid i j = Some clue.
Proof.
  apply (check_rewards_only_solutions (generate_sudoku sample_draws)
           (full_board sample_draws) (sudoku_start (init_state 100))).
  by vm_compute.
Defined.
(** ** Sudoku: every generated puzzle is consistent *)

Lemma range_Permutation (l : list nat) (n : nat) :
  NoDup l → Forall (λ x, (x < n)%nat) l → length l = n → l ≡ₚ seq 0 n.
Proof.
  intros Hnd Hlt Hlen. apply submseteq_length_Permutation.
  - apply NoDup_submseteq; [done|]. intros x Hx. apply elem_of_seq.
    rewrite Forall_forall in Hlt. specialize (Hlt x Hx). lia.
  - rewrite length_seq. lia.
Qed.

Lemma range_check (l : list nat) (n : nat) :
  bool_decide (NoDup l ∧ Forall (λ x, (x < n)%nat) l ∧ length l = n) = true →
  l ≡ₚ seq 0 n.
Proof.
  intros (? & ? & ?)%bool_decide_eq_true. by apply range_Permutation.
Qed.

Lemma pattern_row (r : nat) :
  (r < 9)%nat → pattern r <$> seq 0 9 ≡ₚ seq 0 9.
Proof.
  intros H. do 9 (destruct r as [|r]; [by apply range_check|]). lia.
Qed.

Lemma pattern_column (c : nat) :
  (c < 9)%nat → (λ r, pattern r c) <$> seq 0 9 ≡ₚ seq 0 9.
Proof.
  intros H. do 9 (destruct c as [|c]; [by apply range_check|]). lia.
Qed.

Lemma pattern_box (g h : nat) :
  (g < 3)%nat → (h < 3)%nat →
  (r ← (λ r, g * 3 + r)%nat <$> seq 0 3;
   c ← (λ c, h * 3 + c)%nat <$> seq 0 3; [pattern r c]) ≡ₚ seq 0 9.
Proof.
  intros Hg Hh.
  destruct g as [|[|[|g]]], h as [|[|[|h]]]; try lia; by apply range_check.
Qed.

Lemma lookups_in_range (l : list Z) (n : nat) :
  length l = n → (λ k, default 0 (l !! k)) <$> seq 0 n = l.
Proof.
  intros <-. apply list_eq. intros i. rewrite list_lookup_fmap.
  destruct (decide (i < length l)%nat) as [Hi|Hi].
  - rewrite lookup_seq_lt by done. simpl.
    destruct (lookup_lt_is_Some_2 l i Hi) as [x ->]. done.
  - rewrite lookup_seq_ge by lia. simpl. symmetry. apply lookup_ge_None. lia.
Qed.

Lemma grid_values_Permutation {A} (f : nat → nat → A) (rs rs' cs cs' : list nat) :
  rs ≡ₚ rs' → cs ≡ₚ cs' →
  (r ← rs; c ← cs; [f r c]) ≡ₚ (r ← rs'; c ← cs'; [f r c]).
Proof.
  intros Hr Hc. rewrite Hr. clear rs Hr.
  induction rs' as [|r rs IH]; [done|].
  cbn [mbind list_bind]. change (list_bind ?f ?l) with (l ≫= f).
  by rewrite IH, Hc.
Qed.

(** The lines of a board after the two shuffles: all nine of them, band
    by band. *)
Lemma shuffled_lines_drawn (order : list nat) (within : list (list nat)) :
  order ≡ₚ seq 0 3 → length within = 3%nat → Forall (λ p, p ≡ₚ seq 0 3) within →
  shuffled_lines order within ≡ₚ seq 0 9
  ∧ length (shuffled_lines order within) = 9%nat
  ∧ ∀ b, (b < 3)%nat →
      ∃ g, (g < 3)%nat
           ∧ take 3 (drop (b * 3) (shuffled_lines order within))
             ≡ₚ (λ r, g * 3 + r)%nat <$> seq 0 3.
Proof.
  intros Ho Hl Hw.
  assert (Hlen := Permutation_length Ho).
  destruct order as [|g0 [|g1 [|g2 [|]]]]; try done.
  destruct within as [|p0 [|p1 [|p2 [|]]]]; try done.
  apply Forall_cons in Hw as [H0 Hw]. apply Forall_cons in Hw as [H1 Hw].
  apply Forall_cons in Hw as [H2 _].
  assert (L0 := Permutation_length H0). assert (L1 := Permutation_length H1).
  assert (L2 := Permutation_length H2).
  assert (Hg : ∀ g, g ∈ [g0; g1; g2] → (g < 3)%nat).
  { intros g Hg. rewrite Ho in Hg. apply elem_of_seq in Hg. lia. }
  unfold shuffled_lines. cbn [zip_with concat]. rewrite app_nil_r.
  split; [|split].
  - rewrite H0, H1, H2.
    change ([g0; g1; g2] ≫= (λ g, (λ r, g * 3 + r)%nat <$> seq 0 3) ≡ₚ seq 0 9).
    by rewrite Ho.
  - rewrite !length_app, !length_fmap, L0, L1, L2. done.
  - intros b Hb. destruct b as [|[|[|b]]]; [| | |lia].
    + exists g0. split; [apply Hg; in_pattern|].
      rewrite drop_0, take_app_length' by (by rewrite length_fmap). by rewrite H0.
    + exists g1. split; [apply Hg; in_pattern|].
      rewrite drop_app_length' by (by rewrite length_fmap).
      rewrite take_app_length' by (by rewrite length_fmap). by rewrite H1.
    + exists g2. split; [apply Hg; in_pattern|].
      rewrite (assoc_L (++)).
      rewrite drop_app_length' by (by rewrite length_app, !length_fmap, L0, L1).
      rewrite firstn_all2 by (by rewrite length_fmap, L2). by rewrite H2.
Qed.

Section Grid.

Variable f : nat → nat → Z.
Variables rows cols : list nat.
Hypothesis nine_rows : length rows = 9%nat.
Hypothesis nine_cols : length cols = 9%nat.

Lemma read_column_grid (j c : nat) :
  cols !! j = Some c →
  read ((λ r, f r <$> cols) <$> rows) (column_cells j)
  = Some ((λ r, f r c) <$> rows).
Proof.
  intros Hc. unfold read, column_cells. apply mapM_Some_2.
  apply Forall2_fmap. apply Forall2_same_length_lookup_2.
  { by rewrite length_seq. }
  intros i x r Hx Hr. apply lookup_seq in Hx as [-> _]. simpl.
  unfold cell. rewrite list_lookup_fmap, Hr. simpl.
  by rewrite list_lookup_fmap, Hc.
Qed.

Lemma read_box_grid (br bc : nat) :
  (br < 3)%nat → (bc < 3)%nat →
  read ((λ r, f r <$> cols) <$> rows) (box_cells br bc)
  = Some (r ← take 3 (drop (br * 3) rows); c ← take 3 (drop (bc * 3) cols); [f r c]).
Proof.
  intros Hbr Hbc.
  destruct rows as [|r0 [|r1 [|r2 [|r3 [|r4 [|r5 [|r6 [|r7 [|r8 [|]]]]]]]]]]; try done.
  destruct cols as [|c0 [|c1 [|c2 [|c3 [|c4 [|c5 [|c6 [|c7 [|c8 [|]]]]]]]]]]; try done.
  destruct br as [|[|[|br]]], bc as [|[|[|bc]]]; try lia; reflexivity.
Qed.

End Grid.
Lemma full_board_solution (d : draws) : drawn d → sudoku_solution (full_board d).
Proof.
  intros (Hb & Hrl & Hr & Hs & Hcl & Hc & Hn & _).
  destruct (shuffled_lines_drawn _ _ Hb Hrl Hr) as (Prows & Lrows & Brows).
  destruct (shuffled_lines_drawn _ _ Hs Hcl Hc) as (Pcols & Lcols & Bcols).
  fold (rows_of d) in Prows, Lrows, Brows. fold (cols_of d) in Pcols, Lcols, Bcols.
  set (num := λ k, default 0 (nums d !! k)).
  assert (Hnum : ∀ l, l ≡ₚ seq 0 9 → num <$> l ≡ₚ digits).
  { intros l ->. unfold num. rewrite lookups_in_range; [done|].
    by rewrite (Permutation_length Hn). }
  unfold full_board. fold num.
  change (λ r, (λ c, num (pattern r c)) <$> cols_of d)
    with (λ r, (λ r c, num (pattern r c)) r <$> cols_of d).
  split; [by rewrite length_fmap|]. split; [|split].
  - apply Forall_fmap, Forall_forall. intros r Hr'. simpl.
    rewrite Pcols.
    rewrite (list_fmap_compose (pattern r) num). apply Hnum, pattern_row.
    rewrite Prows in Hr'. apply elem_of_seq in Hr'. lia.
  - intros j Hj.
    destruct (lookup_lt_is_Some_2 (cols_of d) j) as [c Hc']; [lia|].
    rewrite (read_column_grid _ _ _ Lrows j c Hc'). eexists. split; [done|].
    rewrite Prows.
    rewrite (list_fmap_compose (λ r, pattern r c) num). apply Hnum, pattern_column.
    apply list_elem_of_lookup_2 in Hc'. rewrite Pcols in Hc'.
    apply elem_of_seq in Hc'. lia.
  - intros br bc Hbr Hbc.
    rewrite (read_box_grid _ _ _ Lrows Lcols br bc Hbr Hbc). eexists. split; [done|].
    destruct (Brows br Hbr) as (g & Hg & ->). destruct (Bcols bc Hbc) as (h & Hh & Ph).
    rewrite (grid_values_Permutation _ _ _ _ _ (reflexivity _) Ph).
    pose proof (pattern_box g h Hg Hh) as Hp. apply Hnum in Hp.
    rewrite <- Hp. clear.
    generalize ((λ r, g * 3 + r)%nat <$> seq 0 3), ((λ c, h * 3 + c)%nat <$> seq 0 3).
    intros rs cs. induction rs as [|r rs IH]; [done|].
    cbn [mbind list_bind]. change (list_bind ?f ?l) with (l ≫= f).
    rewrite fmap_app, <- IH. f_equiv.
    clear. induction cs as [|c cs IH]; [done|].
    cbn [mbind list_bind]. change (list_bind ?f ?l) with (l ≫= f).
    simpl. by rewrite <- IH.
Qed.

Lemma blank_dimmed (dim lit : list (list Z)) (rc : nat * nat) :
  dimmed dim lit → dimmed (blank dim rc) lit.
Proof.
  intros H. unfold blank. apply Forall2_alter_l; [done|].
  intros row' row _ _ Hrow. clear -Hrow. generalize rc.2. intros c.
  revert c. induction Hrow as [|x' x l' l Hx Hl IH]; intros c; [constructor|].
  destruct c as [|c]; simpl; constructor; auto.
Qed.

Lemma generate_sudoku_dimmed (d : draws) :
  dimmed (generate_sudoku d) (full_board d).
Proof.
  unfold generate_sudoku.
  assert (H : dimmed (full_board d) (full_board d)).
  { apply Forall_Forall2_diag, Forall_forall. intros row _.
    apply Forall_Forall2_diag, Forall_forall. intros x _. by left. }
  revert H. generalize (full_board d) at 1 3. generalize (blanks d).
  intros bs. induction bs as [|rc bs IH]; intros b H; [done|].
  cbn [foldl]. by apply IH, blank_dimmed.
Qed.

Lemma read_dimmed (dim lit : list (list Z)) (cells : list (nat * nat))
    (g : list Z) :
  dimmed dim lit → read lit cells = Some g →
  ∃ g', read dim cells = Some g' ∧ Forall2 (λ x' x, x' = x ∨ x' = 0) g' g.
Proof.
  intros Hd. unfold read. intros H%mapM_Some_1.
  induction H as [|[r c] x cells g Hx _ (g' & Hg' & Hrel)].
  { by exists []. }
  unfold cell in Hx. simpl in Hx.
  destruct (lit !! r) as [row|] eqn:Er; [|done]. simpl in Hx.
  destruct (Forall2_lookup_r _ _ _ _ _ Hd Er) as (row' & Er' & Hrow).
  destruct (Forall2_lookup_r _ _ _ _ _ Hrow Hx) as (x' & Ex' & Hxx).
  exists (x' :: g'). split; [|by constructor].
  apply mapM_Some_2. constructor.
  - unfold cell. simpl. rewrite Er'. done.
  - by apply mapM_Some_1.
Qed.

Lemma dimmed_solution_valid (dim lit : list (list Z)) :
  dimmed dim lit → sudoku_solution lit → validate_sudoku dim = Some true.
Proof.
  intros Hd (_ & Hr & Hc & Hb). apply validate_sudoku_true. split; [|split].
  - apply Forall_forall. intros row' Hrow'.
    apply list_elem_of_lookup in Hrow' as [i Hi].
    destruct (Forall2_lookup_l _ _ _ _ _ Hd Hi) as (row & Hrow & Hrel).
    apply (valid_group_dimmed row' row Hrel), valid_group_digits.
    rewrite Forall_forall in Hr. apply Hr. by eapply list_elem_of_lookup_2.
  - intros c Hc'. destruct (Hc c Hc') as (g & Hg & Hp).
    destruct (read_dimmed _ _ _ _ Hd Hg) as (g' & Hg' & Hrel).
    exists g'. split; [done|].
    by apply (valid_group_dimmed g' g Hrel), valid_group_digits.
  - intros br bc Hbr Hbc. destruct (Hb br bc Hbr Hbc) as (g & Hg & Hp).
    destruct (read_dimmed _ _ _ _ Hd Hg) as (g' & Hg' & Hrel).
    exists g'. split; [done|].
    by apply (valid_group_dimmed g' g Hrel), valid_group_digits.
Qed.
Lemma dimmed_refl (board : list (list Z)) : dimmed board board.
Proof.
  apply Forall_Forall2_diag, Forall_forall. intros row _.
  apply Forall_Forall2_diag, Forall_forall. intros x _. by left.
Qed.

(** Entering the missing digits of the full board wins the game. *)
Lemma combined_with_solution (dim lit : list (list Z)) :
  dimmed dim lit → length lit = 9%nat → Forall (λ row, length row = 9%nat) lit →
  combined dim lit = Some lit.
Proof.
  intros Hd Hlen Hrows. unfold combined. apply mapM_Some_2.
  apply Forall2_same_length_lookup_2; [by rewrite length_seq|].
  intros i x row Hx Hrow. apply lookup_seq in Hx as [-> _]. cbn [Nat.add].
  apply mapM_Some_2.
  assert (Hl : length row = 9%nat).
  { rewrite Forall_forall in Hrows. apply Hrows. by eapply list_elem_of_lookup_2. }
  apply Forall2_same_length_lookup_2; [by rewrite length_seq|].
  intros j y v Hy Hv. apply lookup_seq in Hy as [-> _]. cbn [Nat.add].
  destruct (Forall2_lookup_r _ _ _ _ _ Hd Hrow) as (row' & Hrow' & Hrel).
  destruct (Forall2_lookup_r _ _ _ _ _ Hrel Hv) as (v' & Hv' & Hvv).
  unfold cell. rewrite Hrow', Hrow. simpl. rewrite Hv'. simpl.
  case_bool_decide as Hz; [|done]. by destruct Hvv as [->|?].
Qed.

Lemma digits_nonzero (row : list Z) : row ≡ₚ digits → length row = 9%nat ∧ 0 ∉ row.
Proof.
  intros H. split; [by rewrite H|]. rewrite H. by apply (bool_decide_unpack _).
Qed.

Lemma insert_zero_count (row : list Z) (c : nat) :
  (length (filter (λ x, x = 0%Z) (<[c := 0%Z]> row))
   ≤ S (length (filter (λ x, x = 0%Z) row)))%nat.
Proof.
  revert c. induction row as [|x row IH]; intros c; [simpl; lia|].
  destruct c as [|c]; simpl.
  - rewrite filter_cons. destruct (decide (x = 0)); simpl; lia.
  - rewrite !filter_cons. specialize (IH c).
    destruct (decide (x = 0)); simpl; lia.
Qed.

Lemma blank_count (board : list (list Z)) (rc : nat * nat) :
  (blank_cells (blank board rc) ≤ S (blank_cells board))%nat.
Proof.
  unfold blank, blank_cells. generalize rc.1, rc.2. intros r c.
  revert r. induction board as [|row board IH]; intros r; [simpl; lia|].
  destruct r as [|r]; simpl; rewrite !filter_app, !length_app.
  - pose proof (insert_zero_count row c). lia.
  - specialize (IH r). unfold alter in IH. lia.
Qed.

Lemma solution_no_blank (grid : list (list Z)) :
  Forall (λ row, row ≡ₚ digits) grid → blank_cells grid = 0%nat.
Proof.
  unfold blank_cells. induction 1 as [|row grid Hrow _ IH]; [done|].
  simpl. rewrite filter_app, length_app, IH, Hrow. done.
Qed.

(** X25. Whatever the random draws, the puzzle [generate_sudoku] returns
    passes [validate_sudoku]; the board it was blanked from is a solution
    and the puzzle is that board with some cells set to 0, at most 48 of
    them; and entering the missing digits of that board wins the game. *)
Theorem generated_puzzle_can_be_won (d : draws) :
  drawn d →
  validate_sudoku (generate_sudoku d) = Some true
  ∧ sudoku_solution (full_board d)
  ∧ dimmed (generate_sudoku d) (full_board d)
  ∧ solved (generate_sudoku d) (full_board d) = true
  ∧ (blank_cells (generate_sudoku d) ≤ empties)%nat.
Proof.
  intros Hd. pose proof (full_board_solution d Hd) as Hsol.
  pose proof (generate_sudoku_dimmed d) as Hdim.
  split; [by eapply dimmed_solution_valid|]. split; [done|]. split; [done|].
  destruct Hsol as (Hlen & Hrows & Hc & Hb).
  assert (Hfull : Forall (λ row, length row = 9%nat ∧ 0 ∉ row) (full_board d)).
  { eapply Forall_impl; [exact Hrows|]. intros row. apply digits_nonzero. }
  split.
  - unfold solved. rewrite (combined_with_solution _ _ Hdim Hlen).
    2:{ eapply Forall_impl; [exact Hfull|]. by intros row [? _]. }
    apply andb_true_intro. split.
    + apply negb_true_iff. destruct (existsb _ _) eqn:E; [|done].
      apply existsb_exists in E as (row & Hrow & H0).
      apply bool_decide_eq_true in H0. apply list_elem_of_In in Hrow.
      rewrite Forall_forall in Hfull. by destruct (Hfull row Hrow).
    + apply bool_decide_eq_true_2.
      by apply (dimmed_solution_valid _ _ (dimmed_refl _)).
  - destruct Hd as (_ & _ & _ & _ & _ & _ & _ & Hn & _). rewrite <- Hn.
    unfold generate_sudoku.
    assert (H : ∀ bs b, (blank_cells (foldl blank b bs) ≤ blank_cells b + length bs)%nat).
    { induction bs as [|rc bs IH]; intros b; [simpl; lia|].
      cbn [foldl length]. specialize (IH (blank b rc)).
      pose proof (blank_count b rc). lia. }
    specialize (H (blanks d) (full_board d)).
    rewrite (solution_no_blank _ Hrows) in H. exact H.
Qed.

Lemma digits_Permutation (l : list Z) :
  NoDup l → Forall (λ x, x ∈ digits) l → length l = 9%nat → l ≡ₚ digits.
Proof.
  intros Hnd Hin Hlen. apply submseteq_length_Permutation; [|by rewrite Hlen].
  apply NoDup_submseteq; [done|]. by apply Forall_forall.
Qed.

Lemma generated_puzzle_can_be_won_witness :
  validate_sudoku (generate_sudoku sample_draws) = Some true
  ∧ sudoku_solution (full_board sample_draws)
  ∧ dimmed (generate_sudoku sample_draws) (full_board sample_draws)
  ∧ solved (generate_sudoku sample_draws) (full_board sample_draws) = true
  ∧ (blank_cells (generate_sudoku sample_draws) ≤ empties)%nat.
Proof.
  apply (generated_puzzle_can_be_won sample_draws).
  unfold drawn, sample_draws. cbn [band_order rows_in_band stack_order
    cols_in_stack nums blanks].
  split; [by apply range_check|]. split; [done|].
  split; [repeat (constructor; [by apply range_check|]); constructor|].
  split; [by apply range_check|]. split; [done|].
  split; [repeat (constructor; [by apply range_check|]); constructor|].
  split.
  { apply digits_Permutation; [by apply (bool_decide_unpack _)
                              |by apply (bool_decide_unpack _)|done]. }
  split; [done|]. by apply (bool_decide_unpack _).
Defined.
(** ** The dashboard: what the chat takes a message for *)

Lemma existsb_str_in (words : list text) (low : text) :
  existsb (λ t, str_in t low) words = true ↔ ∃ w, w ∈ words ∧ str_in w low = true.
Proof.
  rewrite existsb_exists. split; intros (w & Hw & H); exists w.
  - split; [by apply list_elem_of_In|done].
  - split; [by apply list_elem_of_In|done].
Qed.

(** X26. The chat of the dashboard looks for its words anywhere in the
    message, inside other words too. A message asks for a quiz exactly when
    it holds "continue", "quiz", "yes" or "ok"; the entry "next quiz" of the
    list never decides. It asks for the next part exactly when it holds
    "next" and none of these. Then the part goes up by one even when
    Ollama cannot be reached, and only the learner's message is added. *)
Theorem chat_words_match_anywhere (low : text) :
  (Dashboard.intent_of low = Dashboard.Quiz
   ↔ ∃ w, w ∈ short_quiz_words ∧ ∃ before after, low = before ++ w ++ after)
  ∧ (Dashboard.intent_of low = Dashboard.Next
     ↔ (∃ before after, low = before ++ py "next" ++ after)
       ∧ ∀ w, w ∈ short_quiz_words → str_in w low = false)
  ∧ (∀ lower reply user_msg s,
       Dashboard.intent_of (strip (lower user_msg)) = Dashboard.Next →
       user_msg ≠ [] → Dashboard.subject s ≠ ""%string →
       Dashboard.chapter s ≠ ""%string →
       Dashboard.part (Dashboard.on_message lower false reply user_msg s)
       = Dashboard.part s + 1
       ∧ Dashboard.messages (Dashboard.on_message lower false reply user_msg s)
         = Dashboard.messages s ++ [(true, user_msg)]).
Proof.
  assert (Hq : existsb (λ t, str_in t low) Dashboard.QUIZ_WORDS = true
               ↔ ∃ w, w ∈ short_quiz_words ∧ str_in w low = true).
  { rewrite existsb_str_in. split; intros (w & Hw & H).
    - unfold Dashboard.QUIZ_WORDS in Hw.
      do 4 (apply elem_of_cons in Hw as [->|Hw];
            [eexists; (split; [|exact H]); unfold short_quiz_words; in_pattern|]).
      apply elem_of_cons in Hw as [->|Hw]; [|by apply elem_of_nil in Hw].
      (* "next quiz" holds "quiz" *)
      exists (py "quiz"). split; [unfold short_quiz_words; in_pattern|].
      apply str_in_spec in H as (a & b & ->). apply str_in_spec.
      exists (a ++ py "next "), b. by rewrite <- !(assoc_L (++)).
    - exists w. split; [|done]. unfold short_quiz_words in Hw.
      unfold Dashboard.QUIZ_WORDS. 
      repeat (apply elem_of_cons in Hw as [->|Hw]; [in_pattern|]).
      by apply elem_of_nil in Hw. }
  split; [|split].
  - unfold Dashboard.intent_of.
    destruct (existsb _ Dashboard.QUIZ_WORDS) eqn:E.
    + split; [intros _|done]. destruct (proj1 Hq eq_refl) as (w & Hw & H).
      exists w. split; [done|]. by apply str_in_spec.
    + split; [by destruct (str_in _ low)|].
      intros (w & Hw & H). apply str_in_spec in H.
      assert (false = true); [|done]. apply Hq. by exists w.
  - unfold Dashboard.intent_of.
    destruct (existsb _ Dashboard.QUIZ_WORDS) eqn:E.
    + split; [done|]. intros [_ Hno]. destruct (proj1 Hq eq_refl) as (w & Hw & H).
      rewrite (Hno w Hw) in H. done.
    + destruct (str_in (py "next") low) eqn:En.
      * split; [intros _|done]. split; [by apply str_in_spec|].
        intros w Hw. destruct (str_in w low) eqn:Ew; [|done].
        assert (false = true); [|done]. apply Hq. by exists w.
      * split; [done|]. intros [Hn _]. apply str_in_spec in Hn. congruence.
  - intros lower reply user_msg s Hi Hm Hs Hc. unfold Dashboard.on_message.
    destruct user_msg as [|c m]; [done|]. cbn [nonempty andb].
    apply String.eqb_neq in Hs, Hc. rewrite Hs, Hc. cbn [negb andb].
    rewrite Hi. done.
Qed.

(** "explain the book", and "ok, next". *)
Example a_book_asks_for_a_quiz :
  Dashboard.intent_of (py "explain the book") = Dashboard.Quiz
  ∧ Dashboard.intent_of (py "ok, next") = Dashboard.Quiz
  ∧ Dashboard.intent_of (py "next") = Dashboard.Next
  ∧ Dashboard.intent_of (py "what is reflection?") = Dashboard.Explain.
Proof. by vm_compute. Qed.
(** ** The dashboard: the URL of the health check *)

Lemma lstrip_of_suffix (chars : N → bool) (s : text) :
  lstrip_of chars s `suffix_of` s.
Proof.
  induction s as [|x s IH]; simpl; [done|].
  destruct (chars x); [by apply suffix_cons_r|done].
Qed.

Lemma lstrip_of_head (chars : N → bool) (s : text) (y : N) :
  head (lstrip_of chars s) = Some y → chars y = false.
Proof.
  induction s as [|x s IH]; simpl; [done|].
  destruct (chars x) eqn:E; [done|]. simpl. by intros [= <-].
Qed.

Lemma rstrip_of_prefix (chars : N → bool) (s : text) :
  rstrip_of chars s `prefix_of` s.
Proof.
  unfold rstrip_of. destruct (lstrip_of_suffix chars (reverse s)) as [k E].
  exists (reverse k). apply (f_equal reverse) in E.
  by rewrite reverse_involutive, reverse_app in E.
Qed.

Lemma rstrip_of_last (chars : N → bool) (s : text) (y : N) :
  last (rstrip_of chars s) = Some y → chars y = false.
Proof.
  unfold rstrip_of. rewrite last_reverse. apply lstrip_of_head.
Qed.

Lemma lstrip_of_ink (chars : N → bool) (s tail : text) (y : N) :
  chars y = false → lstrip_of chars (s ++ y :: tail) = lstrip_of chars s ++ y :: tail.
Proof.
  intros Hy. induction s as [|x s IH]; simpl; [by rewrite Hy|].
  by destruct (chars x).
Qed.

(** Nothing is stripped before the last character that is to stay. *)
Lemma rstrip_of_ink (chars : N → bool) (pre tail : text) (y : N) :
  chars y = false →
  rstrip_of chars (pre ++ y :: tail) = pre ++ y :: rstrip_of chars tail.
Proof.
  intros Hy. unfold rstrip_of.
  rewrite reverse_app, reverse_cons, <- (assoc_L (++)). simpl.
  rewrite lstrip_of_ink by done.
  rewrite reverse_app, reverse_cons, reverse_involutive.
  by rewrite <- (assoc_L (++)).
Qed.

Lemma startswith_spec (prefix s : text) :
  startswith prefix s = true ↔ ∃ rest, s = prefix ++ rest.
Proof.
  unfold startswith. split.
  - destruct (eat prefix s) as [rest|] eqn:E; [|done]. intros _.
    exists rest. by apply eat_Some.
  - intros [rest ->]. by rewrite eat_app.
Qed.

(** A text that starts with the wildcard address once the path of the
    health check is appended starts with it whatever is appended. *)
Lemma startswith_before_path (r k : text) :
  startswith (py "http://0.0.0.0") (r ++ py "/api/tags") = true →
  startswith (py "http://0.0.0.0") (r ++ k) = true.
Proof.
  unfold startswith. spell.
  do 14 (destruct r as [|? r];
         [intros Eu; by vm_compute in Eu
         |cbn [eat app]; destruct (_ =? _)%N; [|done]]).
  done.
Qed.

(** X27. The URL [ensure_ollama_ready] requests never starts with
    "http://0.0.0.0"; it is a host, not ending in a slash, followed by
    "/api/tags"; and for a base that starts, once stripped, with
    "http://0.0.0.0", it is "http://127.0.0.1", what followed without its
    trailing slashes, and "/api/tags". *)
Theorem health_check_never_asks_0_0_0_0 (base url : text) :
  Dashboard.health_url base = Some url →
  startswith (py "http://0.0.0.0") url = false
  ∧ (∃ host, url = host ++ py "/api/tags" ∧ last host ≠ Some 47%N)
  ∧ (∀ rest, strip base = py "http://0.0.0.0" ++ rest →
       url = py "http://127.0.0.1" ++ rstrip_of slash rest ++ py "/api/tags").
Proof.
  unfold Dashboard.health_url. destruct (negb (nonempty base)); [done|].
  cbn zeta. generalize (strip base). clear base. intros b [= <-].
  assert (Hhost : ∀ s, last (rstrip_of slash s) ≠ Some 47%N).
  { intros s H. by apply rstrip_of_last in H. }
  destruct (startswith (py "http://0.0.0.0") b) eqn:Es.
  - apply startswith_spec in Es as [rest ->].
    assert (E : replace_first (py "0.0.0.0") (py "127.0.0.1")
                  (py "http://0.0.0.0" ++ rest)
                = py "http://127.0.0.1" ++ rest).
    { spell. reflexivity. }
    rewrite E.
    assert (R : rstrip_of slash (py "http://127.0.0.1" ++ rest)
                = py "http://127.0.0.1" ++ rstrip_of slash rest).
    { change (py "http://127.0.0.1" ++ rest)
        with (py "http://127.0.0." ++ 49%N :: rest).
      by rewrite rstrip_of_ink. }
    split; [by rewrite R|]. split; [eexists; split; [done|apply Hhost]|].
    intros rest' Hr. apply app_inv_head in Hr as <-.
    by rewrite R, <- (assoc_L (++)).
  - split; [|split; [eexists; split; [done|apply Hhost]|]].
    2:{ intros rest ->. by rewrite (proj2 (startswith_spec _ _)) in Es by eauto. }
    destruct (startswith _ (rstrip_of slash b ++ _)) eqn:Eu; [|done].
    destruct (rstrip_of_prefix slash b) as [k Hk].
    apply (startswith_before_path _ k) in Eu. rewrite <- Hk in Eu. congruence.
Qed.

Lemma health_check_never_asks_0_0_0_0_witness :
  startswith (py "http://0.0.0.0")
    (py "http://127.0.0.1:11434/api/tags") = false
  ∧ (∃ host, py "http://127.0.0.1:11434/api/tags" = host ++ py "/api/tags"
             ∧ last host ≠ Some 47%N)
  ∧ (∀ rest, strip (py " http://0.0.0.0:11434// ") = py "http://0.0.0.0" ++ rest →
       py "http://127.0.0.1:11434/api/tags"
       = py "http://127.0.0.1" ++ rstrip_of slash rest ++ py "/api/tags").
Proof.
  apply (health_check_never_asks_0_0_0_0 (py " http://0.0.0.0:11434// ")).
  by vm_compute.
Defined.
(** ** Sudoku: the games that are counted *)

Lemma step_sudoku_counters (now : clock) (o : op) (s : session) :
  sudoku_games_played s = sudoku_wins s →
  sudoku_games_played (step now o s).1 = sudoku_wins (step now o s).1.
Proof.
  intros H. destruct o; unfold step; cbn [fst].
  - unfold touch_daily_streak.
    destruct (last_active_date s); repeat case_bool_decide; exact H.
  - quests_frame_by update_quests_frame. exact H.
  - destruct (grant_quest_rewards_grows completed_ids s) as (x & c & -> & _). exact H.
  - destruct (check_achievements_spec s) as (newly & -> & _). exact H.
  - unfold apply_answer_and_move. destruct is_correct; [|exact H].
    quests_frame_by update_quests_frame. exact H.
  - unfold check_completion_gate.
    destruct (bool_decide (quiz_map_total_questions s ≤ quiz_map_qindex s)
              && negb (quiz_map_done s)); [|done].
    quests_frame_by update_quests_frame.
    destruct (Qle_bool 80 _);
      match goal with |- context [check_achievements ?x] =>
        destruct (check_achievements_spec x) as (newly & -> & _) end;
      exact H.
  - exact H.
  - unfold answer_click. case_bool_decide; [|done].
    destruct (quiz_items s !! _); [|done]. case_bool_decide; [|done].
    unfold apply_answer_and_move. destruct (bool_decide _); [|exact H].
    quests_frame_by update_quests_frame. exact H.
  - exact H.
  - destruct (quest_progress_view_frame (utc_today now) s) as (x & c & u & -> & _).
    exact H.
  - unfold sudoku_start. by destruct (_ && _).
  - unfold sudoku_check. destruct (_ && _); [|done]. simpl. lia.
  - unfold buy. case_bool_decide; [|done]. by destruct (i_value it).
Qed.

(** X28. A game of Sudoku is counted as played only when it is won: along
    any session the games played and the games won stay equal, so the win
    rate on display is 0 or 100. *)
Theorem only_won_games_are_counted (ops : list (clock * op)) (s : session) :
  sudoku_games_played s = sudoku_wins s →
  sudoku_games_played (run_session ops s).1 = sudoku_wins (run_session ops s).1.
Proof.
  revert s. induction ops as [|[now o] ops IH]; intros s H; [done|].
  cbn [run_session]. pose proof (step_sudoku_counters now o s H) as H1.
  destruct (step now o s) as [s1 n1]. simpl in H1.
  pose proof (IH s1 H1) as H2.
  by destruct (run_session ops s1) as [s2 n2].
Qed.

Lemma only_won_games_are_counted_witness :
  sudoku_games_played (run_session busy_day (init_state 100)).1
  = sudoku_wins (run_session busy_day (init_state 100)).1.
Proof. apply (only_won_games_are_counted busy_day (init_state 100)). reflexivity. Defined.

(** ** Text to speech: formulas between dollar signs are passed over *)

Lemma after_nil (prev : option N) : after [] prev = prev.
Proof. done. Qed.

Lemma after_step (x : N) (l : text) (prev : option N) :
  after (x :: l) prev = after l (Some x).
Proof. unfold after. rewrite last_cons. by destruct (last l). Qed.

Lemma delete_from_skip (r : list atom) (a rest : text) (prev : option N) :
  delete_from r prev (a ++ rest) (length a) = delete_from r (after a prev) rest 0.
Proof.
  revert prev. induction a as [|x a IH]; intros prev; [done|].
  rewrite after_step. simpl. apply IH.
Qed.

(** The lazy repetition stops at the first dollar sign of the line. *)
Lemma lazy_to_dollar (prev : option N) (s : text) :
  m_end <$> lazy dot (run [Lit [dollar]]) prev s = to_dollar s.
Proof.
  revert prev. induction s as [|x s IH]; intros prev; [done|].
  cbn [lazy run eat to_dollar]. rewrite (N.eqb_sym dollar x).
  destruct (x =? dollar)%N; [done|].
  destruct (dot x); [apply IH|done].
Qed.

Lemma run_MATH_RE (prev : option N) (s : text) :
  m_end <$> run MATH_RE prev s
  = match s with
    | x :: s' => if (x =? dollar)%N then to_dollar s' else None
    | [] => None
    end.
Proof.
  unfold MATH_RE. destruct s as [|x s]; [done|].
  cbn [run eat]. rewrite (N.eqb_sym dollar x).
  destruct (x =? dollar)%N; [|done]. apply lazy_to_dollar.
Qed.

Lemma to_dollar_Some (s rest : text) :
  to_dollar s = Some rest →
  ∃ d, s = d ++ dollar :: rest ∧ Forall (λ c, dot c = true ∧ c ≠ dollar) d.
Proof.
  revert rest. induction s as [|x s IH]; intros rest; [done|]. cbn [to_dollar].
  destruct (N.eqb_spec x dollar) as [->|Hx].
  { intros [= ->]. by exists []. }
  destruct (dot x) eqn:Hd; [|done]. intros (d & -> & Hall)%IH.
  exists (x :: d). split; [done|]. by constructor.
Qed.

(** What is left of a text, one step at a time. *)
Lemma delete_from_cons (prev : option N) (x : N) (s : text) :
  delete_from MATH_RE prev (x :: s) 0
  = if (x =? dollar)%N then
      match to_dollar s with
      | Some rest => delete_from MATH_RE (Some dollar) rest 0
      | None => x :: delete_from MATH_RE (Some x) s 0
      end
    else x :: delete_from MATH_RE (Some x) s 0.
Proof.
  cbn [delete_from]. pose proof (run_MATH_RE prev (x :: s)) as H. cbn iota in H.
  destruct (N.eqb_spec x dollar) as [->|Hx].
  - destruct (to_dollar s) as [rest|] eqn:E.
    + rewrite ?N.eqb_refl, ?E in H.
      destruct (run MATH_RE prev (dollar :: s)) as [m|]; [|done].
      injection H as H. rewrite H.
      apply to_dollar_Some in E as (d & -> & _).
      replace (pred (length (dollar :: d ++ dollar :: rest) - length rest))
        with (length (d ++ [dollar])).
      2:{ simpl. rewrite !length_app. simpl. lia. }
      rewrite (cons_middle dollar d rest), (assoc_L (++)).
      rewrite delete_from_skip. f_equal. unfold after. by rewrite last_snoc.
    + rewrite ?N.eqb_refl, ?E in H.
      destruct (run MATH_RE prev (dollar :: s)); [by simpl in H|done].
  - rewrite ?(proj2 (N.eqb_neq x dollar) Hx) in H.
    destruct (run MATH_RE prev (x :: s)); [by simpl in H|done].
Qed.

(** The scan does not look back. *)
Lemma delete_from_prev (p q : option N) (s : text) :
  delete_from MATH_RE p s 0 = delete_from MATH_RE q s 0.
Proof. destruct s as [|x s]; [done|]. by rewrite !delete_from_cons. Qed.

Lemma delete_from_lone (n : nat) :
  ∀ (s : text) (prev : option N), (length s ≤ n)%nat →
    lone_dollars false (delete_from MATH_RE prev s 0) = true
    ∧ (to_dollar s = None →
       lone_dollars true (delete_from MATH_RE prev s 0) = true).
Proof.
  induction n as [|n IH]; intros s prev Hn.
  { destruct s; [done|simpl in Hn; lia]. }
  destruct s as [|x s]; [done|]. simpl in Hn.
  rewrite delete_from_cons. cbn [to_dollar].
  destruct (N.eqb_spec x dollar) as [->|Hx].
  - split; [|done].
    destruct (to_dollar s) as [rest|] eqn:E.
    + apply IH. apply to_dollar_Some in E as (d & -> & _).
      rewrite length_app in Hn. simpl in Hn. lia.
    + cbn [lone_dollars]. change (is_newline dollar) with false.
      rewrite N.eqb_refl. cbn [negb andb]. apply IH; [lia|done].
  - cbn [lone_dollars]. rewrite (proj2 (N.eqb_neq x dollar) Hx).
    destruct (IH s (Some x)) as [H1 H2]; [lia|].
    unfold dot. destruct (is_newline x); cbn [negb]; [by split|].
    by split.
Qed.

Lemma delete_from_sublist (n : nat) :
  ∀ (s : text) (prev : option N), (length s ≤ n)%nat →
    delete_from MATH_RE prev s 0 `sublist_of` s.
Proof.
  induction n as [|n IH]; intros s prev Hn.
  { destruct s; [done|simpl in Hn; lia]. }
  destruct s as [|x s]; [done|]. simpl in Hn.
  rewrite delete_from_cons.
  destruct (x =? dollar)%N; [|apply sublist_skip, IH; lia].
  destruct (to_dollar s) as [rest|] eqn:E; [|apply sublist_skip, IH; lia].
  apply to_dollar_Some in E as (d & -> & _).
  apply sublist_cons. apply sublist_inserts_l. apply sublist_cons.
  apply IH. rewrite length_app in Hn. simpl in Hn. lia.
Qed.

Lemma delete_from_plain (s : text) (prev : option N) :
  dollar ∉ s → delete_from MATH_RE prev s 0 = s.
Proof.
  revert prev. induction s as [|x s IH]; intros prev H; [done|].
  rewrite not_elem_of_cons in H. destruct H as [Hx Hs].
  rewrite delete_from_cons, (proj2 (N.eqb_neq x dollar)) by done.
  by rewrite IH.
Qed.

(** A formula on one line goes, and what stands before it stays. *)
Lemma clean_text_formula (before formula rest : list N) :
  dollar ∉ before → dollar ∉ formula → newline ∉ formula →
  clean_text (before ++ dollar :: formula ++ dollar :: rest)
  = before ++ clean_text rest.
Proof.
  unfold clean_text. intros Hb Hf Hn.
  generalize (@None N). induction before as [|x before IH]; intros prev.
  - cbn [app]. rewrite delete_from_cons, N.eqb_refl.
    assert (E : to_dollar (formula ++ dollar :: rest) = Some rest).
    { clear -Hf Hn. induction formula as [|c f IH]; simpl; [done|].
      rewrite not_elem_of_cons in Hf, Hn. destruct Hf as [Hc Hf], Hn as [Hc' Hn].
      rewrite (proj2 (N.eqb_neq c dollar)) by done.
      unfold dot, is_newline. rewrite (proj2 (N.eqb_neq c newline)) by done.
      simpl. by apply IH. }
    rewrite E. apply delete_from_prev.
  - rewrite not_elem_of_cons in Hb. destruct Hb as [Hx Hb]. cbn [app].
    rewrite delete_from_cons, (proj2 (N.eqb_neq x dollar)) by done.
    rewrite IH by done. do 2 f_equal. apply delete_from_prev.
Qed.

(** X29. What is read aloud is the text without its formulas: each stretch
    from a dollar sign to the next one on the same line is passed over,
    and nothing else, so that no line of what is left holds two dollar
    signs, what is left is the text with characters removed, in its order,
    and a text without dollar signs is read as it is. A text that is one
    formula passes the test for blank texts, and nothing is left of it to
    read. The voice that is set is one of the voices there are. *)
Theorem speech_skips_formulas (t : text) :
  lone_dollars false (clean_text t) = true
  ∧ clean_text t `sublist_of` t
  ∧ (dollar ∉ t → clean_text t = t)
  ∧ (∀ before formula after,
       dollar ∉ before → dollar ∉ formula → newline ∉ formula →
       clean_text (before ++ dollar :: formula ++ dollar :: after)
       = before ++ clean_text after)
  ∧ (∀ formula, dollar ∉ formula → newline ∉ formula →
       spoken_text (dollar :: formula ++ [dollar]) = Some [])
  ∧ (∀ i voices v, voice_of i voices = Some v → 0 ≤ v < Z.of_nat voices).
Proof.
  split; [|split; [|split; [|split; [|split]]]].
  - by apply (delete_from_lone (length t)).
  - by apply (delete_from_sublist (length t)).
  - apply delete_from_plain.
  - apply clean_text_formula.
  - intros formula Hf Hn. unfold spoken_text. cbn [nonempty negb orb].
    destruct (strip (dollar :: formula ++ [dollar])) eqn:E.
    { by apply strip_nonblank in E. }
    cbn [nonempty negb]. f_equal.
    apply (clean_text_formula [] formula [] (not_elem_of_nil _) Hf Hn).
  - intros i voices v. unfold voice_of. destruct i as [i|]; [|done].
    destruct voices as [|n]; [done|]. intros [= <-]. lia.
Qed.

(** A formula within a line, one that runs over two lines, and prices. *)
Example formulas_are_not_read :
  show (clean_text (py "Area: $A = r^2$ units")) = "Area:  units"%string
  ∧ clean_text (lines ["$a"; "b$"]%string) = lines ["$a"; "b$"]%string
  ∧ show (clean_text (py "5$ and 6$ and 7$")) = "5 and 7$"%string.
Proof. by vm_compute. Qed.

(** ** Five correct answers in a day *)

Lemma daily_progress_qindex (v : Z) (x : session) :
  quests_daily_progress (with_quiz_map_qindex v x) = quests_daily_progress x.
Proof. reflexivity. Qed.

Lemma apply_answer_and_move_daily (today : Z) (ok : bool) (qidx : Z) (s : session) :
  let d := quests_daily_progress s in
  let d' := quests_daily_progress (apply_answer_and_move today ok qidx s) in
  quest_done (apply_answer_and_move today ok qidx s) = quest_done s
  ∧ if ok
    then reset_date d' = Some today
         ∧ daily_get d' "daily_correct" = correct_so_far today d + 1
    else d' = d.
Proof.
  unfold apply_answer_and_move. destruct ok; [|split; reflexivity].
  split; [quests_frame_by update_quests_frame; reflexivity|].
  cbn zeta. rewrite daily_progress_qindex.
  rewrite update_quests_daily. cbn [quests_daily_progress with_correct_total
    with_correct_streak with_total_xp with_quiz_map_anim with_quiz_map_correct
    with_quiz_map_position].
  unfold correct_so_far. cbn zeta.
  destruct (decide (reset_date (quests_daily_progress s) = Some today)) as [E|E].
  - rewrite bool_decide_eq_false_2 by (by intros ?).
    rewrite (bool_decide_eq_true_2 _ E). cbn [reset_date]. split; [exact E|].
    unfold daily_get at 1. cbn [counters]. rewrite lookup_insert_eq.
    reflexivity.
  - rewrite bool_decide_eq_true_2 by exact E.
    rewrite (bool_decide_eq_false_2 _ E). split; [reflexivity|].
    unfold daily_get at 1. cbn [counters]. rewrite lookup_insert_eq.
    rewrite daily_get_fresh. reflexivity.
Qed.

Lemma submit_all_daily (today : Z) (subs : list (Z * bool * Z)) (s : session) :
  Forall (λ sub, sub.1.1 = today) subs →
  let d := quests_daily_progress s in
  let d' := quests_daily_progress (submit_all subs s) in
  quest_done (submit_all subs s) = quest_done s
  ∧ total_xp (submit_all subs s) = total_xp s + 5 * correct_answers subs
  ∧ coins (submit_all subs s) = coins s
  ∧ (correct_answers subs = 0 → d' = d)
  ∧ (0 < correct_answers subs →
     reset_date d' = Some today
     ∧ daily_get d' "daily_correct" = correct_so_far today d + correct_answers subs).
Proof.
  intros Hday. revert s. unfold submit_all, correct_answers.
  induction Hday as [|[[day ok] qidx] subs Hd _ IH]; intros s.
  { simpl. repeat split; solve [done|lia]. }
  simpl in Hd. subst day. cbn [foldl].
  destruct (IH (apply_answer_and_move today ok qidx s)) as (Hq & Hx & Hc & H0 & Hpos).
  destruct (apply_answer_and_move_daily today ok qidx s) as [Hq1 Hd1].
  destruct (apply_answer_and_move_ledger today ok qidx s) as (Hx1 & _ & _ & Hc1 & _).
  rewrite Hq, Hx, Hc, Hq1, Hx1, Hc1. clear Hq Hx Hc Hq1 Hx1 Hc1.
  rewrite filter_cons. cbn [fst snd].
  set (k := Z.of_nat (length (filter (λ sub, sub.1.2 = true) subs))) in *.
  assert (0 ≤ k) by lia.
  destruct ok.
  - rewrite decide_True by done. cbn [length].
    replace (Z.of_nat (S (length (filter (λ sub, sub.1.2 = true) subs))))
      with (k + 1) by lia.
    destruct Hd1 as [Hr Hg].
    split; [done|]. split; [lia|]. split; [done|]. split; [lia|]. intros _.
    destruct (decide (k = 0)) as [Hk|Hk].
    + rewrite (H0 Hk), Hk. by split.
    + destruct Hpos as [Hr' Hg']; [lia|]. split; [done|].
      rewrite Hg'. unfold correct_so_far at 1.
      rewrite (bool_decide_eq_true_2 _ Hr), Hg. lia.
  - rewrite decide_False by done. fold k. rewrite Hd1 in *.
    split; [done|]. split; [lia|]. by split.
Qed.

(** X30. Answers given on one day, five or more of them correct: the daily
    counter of correct answers is what the day had counted so far plus the
    correct answers, and the quests tab, when it is drawn that day and the
    quest "Sharp Mind" is not marked yet, pays its 20 XP and 5 coins on top
    of the 5 XP of each correct answer. *)
Theorem five_correct_answers_earn_sharp_mind (today : Z)
    (subs : list (Z * bool * Z)) (s : session) :
  Forall (λ sub, sub.1.1 = today) subs →
  5 ≤ correct_answers subs →
  0 ≤ correct_so_far today (quests_daily_progress s) →
  ("q_daily_correct"%string, today) ∉ quest_done s →
  let s' := quest_progress_view today (submit_all subs s) in
  daily_get (quests_daily_progress (submit_all subs s)) "daily_correct"
  = correct_so_far today (quests_daily_progress s) + correct_answers subs
  ∧ total_xp s + 5 * correct_answers subs + 20 ≤ total_xp s'
  ∧ coins s + 5 ≤ coins s'.
Proof.
  intros Hday H5 H0 Hm. cbn zeta.
  destruct (submit_all_daily today subs s Hday) as (Hq & Hx & Hc & _ & Hpos).
  destruct Hpos as [Hr Hg]; [lia|]. split; [done|].
  destruct (quest_progress_view_pays_daily today (submit_all subs s)
              (Quest "q_daily_correct" "Sharp Mind" 5 "daily_correct" 20 5))
    as [Hx' Hc'].
  - unfold DAILY_QUESTS. in_pattern.
  - cbn [q_target q_key]. rewrite Hg. lia.
  - cbn [q_id]. by rewrite Hq.
  - cbn [q_reward_xp q_reward_coins] in Hx', Hc'. lia.
Qed.

Lemma five_correct_answers_earn_sharp_mind_witness :
  let s' := quest_progress_view 100 (submit_all five_of_six (init_state 99)) in
  daily_get (quests_daily_progress (submit_all five_of_six (init_state 99)))
    "daily_correct"
  = correct_so_far 100 (quests_daily_progress (init_state 99))
    + correct_answers five_of_six
  ∧ total_xp (init_state 99) + 5 * correct_answers five_of_six + 20 ≤ total_xp s'
  ∧ coins (init_state 99) + 5 ≤ coins s'.
Proof.
  apply (five_correct_answers_earn_sharp_mind 100 five_of_six (init_state 99)).
  - unfold five_of_six. repeat (constructor; [reflexivity|]). constructor.
  - by vm_compute.
  - by vm_compute.
  - by vm_compute.
Defined.
